(** * The entry routine of the postgres executable (src/backend/main/main.c)

    A shallow embedding of [main], [startup_hacks], [init_locale], [help] and
    [check_root], and the properties of the start-up and dispatch sequence.

    The process is modelled as a program in a state-and-termination monad:
    the state is the environment block, the number of [setlocale] calls made
    so far and the chronological trace of observable events; a computation
    either continues with a value or terminates the process with an
    [Outcome] ([exit], [elog(FATAL)], [abort], or a role driver that keeps
    control for the rest of the process lifetime).

    Conditional compilation ([WIN32], [EXEC_BACKEND], [LC_MESSAGES], ...) is
    a [BuildConfig]; everything the operating system or a routine of another
    file decides (user ids, [setlocale] answers, whether a role driver hands
    control back) is a field of [Host]. *)

From Stdlib Require Import ZArith String Ascii.
From stdpp Require Import base tactics option list strings gmap.

Local Open Scope string_scope.
Local Open Scope list_scope.
Local Open Scope Z_scope.

(** ** C strings

    An argument or an environment value is a NUL-terminated C string; it is
    represented by the [string] of its characters before the terminator.
    [strcmp] and [strncmp] compare as the C library does (unsigned bytes,
    lexicographically); only the sign of the result is specified by C, and
    the model returns -1, 0 or 1. *)

Module CString.

Definition sign_of (c : comparison) : Z :=
  match c with
  | Eq => 0
  | Lt => -1
  | Gt => 1
  end.

Definition strcmp (s1 s2 : string) : Z := sign_of (String.compare s1 s2).

(** The first [n] characters of [s] (all of [s] when it is shorter). *)
Fixpoint strnpart (n : nat) (s : string) : string :=
  match n, s with
  | S n', String c s' => String c (strnpart n' s')
  | _, _ => EmptyString
  end.

Definition strncmp (s1 s2 : string) (n : nat) : Z :=
  strcmp (strnpart n s1) (strnpart n s2).

End CString.
Export CString.

(** ** Build configuration and host *)

(** The preprocessor symbols the file tests, and the one string constant it
    takes from the build ([PG_BACKEND_VERSIONSTR]). *)
Record BuildConfig := {
  WIN32 : bool;
  HAVE_MINIDUMP_TYPE : bool;
  MSVC2013_AMD64 : bool;        (* defined(_M_AMD64) && _MSC_VER == 1800 *)
  EXEC_BACKEND : bool;
  HAVE_LC_MESSAGES : bool;      (* #ifdef LC_MESSAGES *)
  USE_SSL : bool;
  PG_BACKEND_VERSIONSTR : string
}.

Inductive LocaleCategory :=
  LC_COLLATE | LC_CTYPE | LC_MESSAGES | LC_MONETARY | LC_NUMERIC | LC_TIME.

Global Instance LocaleCategory_eq_dec : EqDecision LocaleCategory.
Proof. solve_decision. Defined.

(** The environment variable that carries a category's setting. *)
Definition category_envvar (c : LocaleCategory) : string :=
  match c with
  | LC_COLLATE => "LC_COLLATE"
  | LC_CTYPE => "LC_CTYPE"
  | LC_MESSAGES => "LC_MESSAGES"
  | LC_MONETARY => "LC_MONETARY"
  | LC_NUMERIC => "LC_NUMERIC"
  | LC_TIME => "LC_TIME"
  end.

(** A call of one of the role drivers, with the arguments [main] passes.
    A NULL [char *] argument is [None]. *)
Inductive DriverCall :=
| SubPostmasterMain (argc : nat) (argv : list string)
| AuxiliaryProcessMain (argc : nat) (argv : list string)
| GucInfoMain
| PostgresMain (argc : nat) (argv : list string)
               (dbname : option string) (username : option string)
| PostmasterMain (argc : nat) (argv : list string).

(** What [get_user_name_or_exit] (common/username.c) does: it hands back
    the name of the invoking user, or ends the process itself. *)
Inductive UserNameResult :=
| UserName (name : string)
| UserNameExit (status : Z).

Record Host := {
  host_get_progname : string → string;
  (** [host_setlocale h n env c l]: the answer of the [n]-th call of the C
      library's [setlocale(c, l)] under environment [env]; [None] is NULL. *)
  host_setlocale :
    nat → gmap string string → LocaleCategory → string → option string;
  host_getuid : Z;
  host_geteuid : Z;
  host_pgwin32_is_admin : bool;
  host_WSAStartup : Z;
  host_IsWindows7SP1OrGreater : bool;
  host_user_name : UserNameResult;
  (** whether a role driver, against its contract, hands control back *)
  host_driver_returns : DriverCall → bool;
  (** the message catalogue lookup written [_( )] in the source *)
  host_gettext : string → string
}.

(** ** Observable events, outcomes and the process monad *)

(** An argument of a printf-style call. *)
Inductive FmtArg :=
| ArgStr (s : string)
| ArgInt (z : Z).

Inductive Event :=
| EvCall (routine : string)           (* a routine of another file, no modelled effect *)
| EvSetlocale (c : LocaleCategory) (locale : string) (result : option string)
| EvUnsetenv (name : string)
| EvStdout (fmt : string) (args : list FmtArg)
| EvStderr (fmt : string) (args : list FmtArg)
| EvCheckRoot                         (* control enters check_root *)
| EvDriver (d : DriverCall).

Global Instance FmtArg_eq_dec : EqDecision FmtArg.
Proof. solve_decision. Defined.
Global Instance DriverCall_eq_dec : EqDecision DriverCall.
Proof. solve_decision. Defined.
Global Instance Event_eq_dec : EqDecision Event.
Proof. solve_decision. Defined.

Inductive Outcome :=
| Exit (status : Z)
| ElogFatal (fmt : string) (args : list FmtArg)
| Abort
| Running (d : DriverCall).           (* the driver never handed control back *)

Record World := {
  environ : gmap string string;
  setlocale_calls : nat;
  trace : list Event
}.

Inductive Result (A : Type) :=
| Continue (a : A)
| Terminated (o : Outcome).
Arguments Continue {A} a.
Arguments Terminated {A} o.

Definition M (A : Type) : Type := World → Result A * World.

Global Instance M_ret : MRet M := λ A a w, (Continue a, w).
Global Instance M_bind : MBind M := λ A B f m w,
  match m w with
  | (Continue a, w') => f a w'
  | (Terminated o, w') => (Terminated o, w')
  end.

Definition terminate {A} (o : Outcome) : M A := λ w, (Terminated o, w).

(** Appending events to the trace. *)
Definition log (evs : list Event) (w : World) : World :=
  {| environ := environ w; setlocale_calls := setlocale_calls w;
     trace := trace w ++ evs |}.

Definition emit (e : Event) : M unit := λ w, (Continue tt, log [e] w).

Definition exit {A} (status : Z) : M A := terminate (Exit status).
Definition abort {A} : M A := terminate Abort.
(** A call of a routine of another file: the call is observed; what the
    routine does to the state of the process is not modelled. *)
Definition extern (routine : string) : M unit := emit (EvCall routine).
Definition printf (fmt : string) (args : list FmtArg) : M unit :=
  emit (EvStdout fmt args).
Definition fputs_stdout (s : string) : M unit := emit (EvStdout s []).
Definition write_stderr (fmt : string) (args : list FmtArg) : M unit :=
  emit (EvStderr fmt args).
(** elog(FATAL) ends the process; the message travels with the outcome.
    How elog reports it is another file's business: the trace has no
    event for it. *)
Definition elog_FATAL {A} (fmt : string) (args : list FmtArg) : M A :=
  terminate (ElogFatal fmt args).

Definition getenv (name : string) : M (option string) := λ w,
  (Continue (environ w !! name), w).

Definition unsetenv (name : string) : M unit := λ w,
  (Continue tt,
   {| environ := delete name (environ w); setlocale_calls := setlocale_calls w;
      trace := trace w ++ [EvUnsetenv name] |}).

Definition when (b : bool) (m : M unit) : M unit := if b then m else mret tt.

(** [argv[i]]; the source reads it only under a guard on [argc], except
    [argv[0]], which the C runtime provides. *)
Definition arg (argv : list string) (i : nat) : string := default "" (argv !! i).

Definition LF : string := String (ascii_of_nat 10) EmptyString.
Definition DQUOTE : string := String (ascii_of_nat 34) EmptyString.

(** ** The program *)

Section Program.

Context (cfg : BuildConfig) (host : Host).

(** Calling a role driver: the call is observed, and control comes back
    only if the host says so. The drivers do not return (the source marks
    every call so); [host_driver_returns] gives the statement that follows
    in the source text to a driver that did, against its contract. *)
Definition call_driver (d : DriverCall) : M unit :=
  emit (EvDriver d);;
  if host_driver_returns host d then mret tt else terminate (Running d).

(** get_user_name_or_exit (common/username.c) is not part of this file:
    it hands back the name, or ends the process itself. What it reports
    before it ends the process is not modelled. *)
Definition get_user_name_or_exit (progname : string) : M string :=
  match host_user_name host with
  | UserName name => mret name
  | UserNameExit status => exit status
  end.

(** Modelled from the spec: pg_perm_setlocale (utils/adt/pg_locale.c) is
    not part of this file. It asks the C library to adopt [locale] for
    [category]; on success the resolved name becomes the permanent
    setting of the category, kept in the category's environment variable
    ("the environment variables installed by pg_perm_setlocale"), and is
    returned; on failure nothing changes and NULL is returned. *)
Definition pg_perm_setlocale (category : LocaleCategory) (locale : string)
  : M (option string) := λ w,
  let result :=
    host_setlocale host (setlocale_calls w) (environ w) category locale in
  (Continue result,
   {| environ := match result with
                 | Some r => <[category_envvar category := r]> (environ w)
                 | None => environ w
                 end;
      setlocale_calls := S (setlocale_calls w);
      trace := trace w ++ [EvSetlocale category locale result] |}).

(** startup_hacks, lines 260-311 *)
Definition startup_hacks (progname : string) : M unit :=
  (if WIN32 cfg then
     extern "setvbuf(stdout)";;
     extern "setvbuf(stderr)";;
     let err := host_WSAStartup host in
     (if negb (err =? 0) then
        write_stderr ("%s: WSAStartup failed: %d" +:+ LF)
                     [ArgStr progname; ArgInt err];;
        exit 1
      else mret tt);;
     extern "SetErrorMode";;
     when (MSVC2013_AMD64 cfg)
       (when (negb (host_IsWindows7SP1OrGreater host))
          (extern "_set_FMA3_enable(0)"))
   else mret tt);;
  extern "SpinLockInit(&dummy_spinlock)".

(** init_locale, lines 321-328 *)
Definition init_locale (categoryname : string) (category : LocaleCategory)
    (locale : string) : M unit :=
  r1 ← pg_perm_setlocale category locale;
  if bool_decide (r1 = None) then
    r2 ← pg_perm_setlocale category "C";
    if bool_decide (r2 = None) then
      elog_FATAL ("could not adopt " +:+ DQUOTE +:+ "%s" +:+ DQUOTE +:+
                  " locale nor C locale for %s")
                 [ArgStr locale; ArgStr categoryname]
    else mret tt
  else mret tt.

(** check_root, lines 400-438 *)
Definition check_root (progname : string) : M unit :=
  emit EvCheckRoot;;
  if negb (WIN32 cfg) then
    (if host_geteuid host =? 0 then
       write_stderr
         (DQUOTE +:+ "root" +:+ DQUOTE +:+
          " execution of the PostgreSQL server is not permitted." +:+ LF +:+
          "The server must be started under an unprivileged user ID to prevent" +:+ LF +:+
          "possible system security compromise.  See the documentation for" +:+ LF +:+
          "more information on how to properly start the server." +:+ LF) [];;
       exit 1
     else mret tt);;
    (if negb (host_getuid host =? host_geteuid host) then
       write_stderr ("%s: real and effective user IDs must match" +:+ LF)
                    [ArgStr progname];;
       exit 1
     else mret tt)
  else
    (if host_pgwin32_is_admin host then
       write_stderr
         ("Execution of PostgreSQL by a user with administrative permissions is not" +:+ LF +:+
          "permitted." +:+ LF +:+
          "The server must be started under an unprivileged user ID to prevent" +:+ LF +:+
          "possible system security compromises.  See the documentation for" +:+ LF +:+
          "more information on how to properly start the server." +:+ LF) [];;
       exit 1
     else mret tt).

(** The message catalogue lookup, [_( )] in the source. *)
Definition tr (msgid : string) : string := host_gettext host msgid.

(** help, lines 340-396 *)
Definition help (progname : string) : M unit :=
  printf (tr ("%s is the PostgreSQL server." +:+ LF +:+
      LF)) [ArgStr progname];;
  printf (tr ("Usage:" +:+ LF +:+ "  %s [OPTION]..." +:+ LF +:+
      LF)) [ArgStr progname];;
  printf (tr ("Options:" +:+ LF)) [];;
  printf (tr ("  -B NBUFFERS        number of shared buffers" +:+ LF)) [];;
  printf (tr ("  -c NAME=VALUE      set run-time parameter" +:+ LF)) [];;
  printf (tr ("  -C NAME            print value of run-time parameter, then exit" +:+
      LF)) [];;
  printf (tr ("  -d 1-5             debugging level" +:+ LF)) [];;
  printf (tr ("  -D DATADIR         database directory" +:+ LF)) [];;
  printf (tr ("  -e                 use European date input format (DMY)" +:+
      LF)) [];;
  printf (tr ("  -F                 turn fsync off" +:+ LF)) [];;
  printf (tr ("  -h HOSTNAME        host name or IP address to listen on" +:+
      LF)) [];;
  printf (tr ("  -i                 enable TCP/IP connections" +:+ LF)) [];;
  printf (tr ("  -k DIRECTORY       Unix-domain socket location" +:+ LF)) [];;
  when (USE_SSL cfg) (printf (tr ("  -l                 enable SSL connections" +:+
      LF)) []);;
  printf (tr ("  -N MAX-CONNECT     maximum number of allowed connections" +:+
      LF)) [];;
  printf (tr ("  -o OPTIONS         pass " +:+ DQUOTE +:+ "OPTIONS" +:+
      DQUOTE +:+ " to each server process (obsolete)" +:+ LF)) [];;
  printf (tr ("  -p PORT            port number to listen on" +:+ LF)) [];;
  printf (tr ("  -s                 show statistics after each query" +:+
      LF)) [];;
  printf (tr ("  -S WORK-MEM        set amount of memory for sorts (in kB)" +:+
      LF)) [];;
  printf (tr ("  -V, --version      output version information, then exit" +:+
      LF)) [];;
  printf (tr ("  --NAME=VALUE       set run-time parameter" +:+ LF)) [];;
  printf (tr ("  --describe-config  describe configuration parameters, then exit" +:+
      LF)) [];;
  printf (tr ("  -?, --help         show this help, then exit" +:+ LF)) [];;
  printf (tr (LF +:+ "Developer options:" +:+ LF)) [];;
  printf (tr ("  -f s|i|n|m|h       forbid use of some plan types" +:+
      LF)) [];;
  printf (tr ("  -n                 do not reinitialize shared memory after abnormal exit" +:+
      LF)) [];;
  printf (tr ("  -O                 allow system table structure changes" +:+
      LF)) [];;
  printf (tr ("  -P                 disable system indexes" +:+ LF)) [];;
  printf (tr ("  -t pa|pl|ex        show timings after each query" +:+
      LF)) [];;
  printf (tr ("  -T                 send SIGSTOP to all backend processes if one dies" +:+
      LF)) [];;
  printf (tr ("  -W NUM             wait NUM seconds to allow attach from a debugger" +:+
      LF)) [];;
  printf (tr (LF +:+ "Options for single-user mode:" +:+ LF)) [];;
  printf (tr ("  --single           selects single-user mode (must be first argument)" +:+
      LF)) [];;
  printf (tr ("  DBNAME             database name (defaults to user name)" +:+
      LF)) [];;
  printf (tr ("  -d 0-5             override debugging level" +:+ LF)) [];;
  printf (tr ("  -E                 echo statement before execution" +:+
      LF)) [];;
  printf (tr ("  -j                 do not use newline as interactive query delimiter" +:+
      LF)) [];;
  printf (tr ("  -r FILENAME        send stdout and stderr to given file" +:+
      LF)) [];;
  printf (tr (LF +:+ "Options for bootstrapping mode:" +:+ LF)) [];;
  printf (tr ("  --boot             selects bootstrapping mode (must be first argument)" +:+
      LF)) [];;
  printf (tr ("  DBNAME             database name (mandatory argument in bootstrapping mode)" +:+
      LF)) [];;
  printf (tr ("  -r FILENAME        send stdout and stderr to given file" +:+
      LF)) [];;
  printf (tr ("  -x NUM             internal use" +:+ LF)) [];;
  printf (tr (LF +:+
      "Please read the documentation for the complete list of run-time" +:+
      LF +:+
      "configuration settings and how to set them on the command line or in" +:+
      LF +:+ "the configuration file." +:+ LF +:+ LF +:+
      "Report bugs to <pgsql-bugs@lists.postgresql.org>." +:+ LF)) [].

(** main, lines 62-111: crash-dump handler, program name, platform
    start-up, saved argument vector, memory contexts. The program name
    (the global [progname]) is the value handed on; save_ps_display_args
    gives back an argument vector with the same contents. *)
Definition main_startup (argv : list string) : M string :=
  when (WIN32 cfg && HAVE_MINIDUMP_TYPE cfg)
    (extern "pgwin32_install_crashdump_handler");;
  let progname := host_get_progname host (arg argv 0) in
  startup_hacks progname;;
  extern "save_ps_display_args";;
  extern "MemoryContextInit";;
  mret progname.

(** main, lines 122-172: the locale categories *)
Definition main_locale (argv : list string) : M unit :=
  extern "set_pglocale_pgservice";;
  (if WIN32 cfg then
     env_locale ← getenv "LC_COLLATE";
     match env_locale with
     | Some l => init_locale "LC_COLLATE" LC_COLLATE l
     | None => init_locale "LC_COLLATE" LC_COLLATE ""
     end;;
     env_locale ← getenv "LC_CTYPE";
     match env_locale with
     | Some l => init_locale "LC_CTYPE" LC_CTYPE l
     | None => init_locale "LC_CTYPE" LC_CTYPE ""
     end
   else
     init_locale "LC_COLLATE" LC_COLLATE "";;
     init_locale "LC_CTYPE" LC_CTYPE "");;
  when (HAVE_LC_MESSAGES cfg) (init_locale "LC_MESSAGES" LC_MESSAGES "");;
  init_locale "LC_MONETARY" LC_MONETARY "C";;
  init_locale "LC_NUMERIC" LC_NUMERIC "C";;
  init_locale "LC_TIME" LC_TIME "C";;
  unsetenv "LC_ALL";;
  extern "check_strxfrm_bug".

(** main, lines 178-205: the standard options; the value is the local
    [do_check_root]. *)
Definition main_standard_options (progname : string) (argv : list string)
  : M bool :=
  let argc := length argv in
  if (1 <? argc)%nat then
    (if (strcmp (arg argv 1) "--help" =? 0) || (strcmp (arg argv 1) "-?" =? 0)
     then help progname;; exit 0
     else mret tt);;
    (if (strcmp (arg argv 1) "--version" =? 0) || (strcmp (arg argv 1) "-V" =? 0)
     then fputs_stdout (PG_BACKEND_VERSIONSTR cfg);; exit 0
     else mret tt);;
    if strcmp (arg argv 1) "--describe-config" =? 0 then mret false
    else if (2 <? argc)%nat && (strcmp (arg argv 1) "-C" =? 0) then mret false
    else mret true
  else mret true.

(** main, lines 218-244: the dispatch *)
Definition main_dispatch (progname : string) (argv : list string)
  : M Empty_set :=
  let argc := length argv in
  when (EXEC_BACKEND cfg)
    (if (1 <? argc)%nat && (strncmp (arg argv 1) "--fork" 6 =? 0)
     then call_driver (SubPostmasterMain argc argv)
     else mret tt);;
  when (WIN32 cfg) (extern "pgwin32_signal_initialize");;
  (if (1 <? argc)%nat && (strcmp (arg argv 1) "--boot" =? 0) then
     call_driver (AuxiliaryProcessMain argc argv)
   else if (1 <? argc)%nat && (strcmp (arg argv 1) "--describe-config" =? 0) then
     call_driver GucInfoMain
   else if (1 <? argc)%nat && (strcmp (arg argv 1) "--single" =? 0) then
     username ← get_user_name_or_exit progname;
     call_driver (PostgresMain argc argv None (Some username))
   else
     call_driver (PostmasterMain argc argv));;
  abort.

(** main, lines 59-245 *)
Definition main (argv : list string) : M Empty_set :=
  progname ← main_startup argv;
  main_locale argv;;
  do_check_root ← main_standard_options progname argv;
  when do_check_root (check_root progname);;
  main_dispatch progname argv.

End Program.

(** The process starts with a given environment, no [setlocale] call made
    and nothing observed yet. *)
Definition start (env : gmap string string) : World :=
  {| environ := env; setlocale_calls := 0; trace := [] |}.

(** Running the executable: [main] has no value to return, so a run is an
    outcome and the final state of the process. *)
Definition run (cfg : BuildConfig) (host : Host) (argv : list string)
    (env : gmap string string) : Outcome * World :=
  match main cfg host argv (start env) with
  | (Terminated o, w) => (o, w)
  | (Continue e, _) => match e : Empty_set with end
  end.

Definition outcome_of (r : Outcome * World) : Outcome := r.1.
Definition trace_of (r : Outcome * World) : list Event := trace r.2.
Definition environ_of (r : Outcome * World) : gmap string string := environ r.2.

(** ** Concrete builds and hosts, for examples *)

Module Samples.

Definition posix : BuildConfig :=
  {| WIN32 := false; HAVE_MINIDUMP_TYPE := false; MSVC2013_AMD64 := false;
     EXEC_BACKEND := false; HAVE_LC_MESSAGES := true; USE_SSL := true;
     PG_BACKEND_VERSIONSTR := "postgres (PostgreSQL) 12.0" +:+ LF |}.

Definition posix_exec_backend : BuildConfig :=
  {| WIN32 := false; HAVE_MINIDUMP_TYPE := false; MSVC2013_AMD64 := false;
     EXEC_BACKEND := true; HAVE_LC_MESSAGES := true; USE_SSL := true;
     PG_BACKEND_VERSIONSTR := "postgres (PostgreSQL) 12.0" +:+ LF |}.

Definition win32 : BuildConfig :=
  {| WIN32 := true; HAVE_MINIDUMP_TYPE := true; MSVC2013_AMD64 := false;
     EXEC_BACKEND := true; HAVE_LC_MESSAGES := false; USE_SSL := false;
     PG_BACKEND_VERSIONSTR := "postgres (PostgreSQL) 12.0" +:+ LF |}.

(** A C library that adopts every locale; the empty name resolves to
    "en_US.UTF-8". *)
Definition setlocale_ok (n : nat) (env : gmap string string)
    (c : LocaleCategory) (l : string) : option string :=
  Some (if String.eqb l "" then "en_US.UTF-8" else l).

(** A C library that adopts nothing. *)
Definition setlocale_fails (n : nat) (env : gmap string string)
    (c : LocaleCategory) (l : string) : option string := None.

(** A C library that knows the "C" locale only. *)
Definition setlocale_C_only (n : nat) (env : gmap string string)
    (c : LocaleCategory) (l : string) : option string :=
  if String.eqb l "C" then Some "C" else None.

Definition make_host (sl : nat → gmap string string → LocaleCategory →
                           string → option string)
    (uid euid : Z) (ret : DriverCall → bool) : Host :=
  {| host_get_progname := λ s, "postgres";
     host_setlocale := sl;
     host_getuid := uid; host_geteuid := euid;
     host_pgwin32_is_admin := euid =? 0;
     host_WSAStartup := 0;
     host_IsWindows7SP1OrGreater := true;
     host_user_name := UserName "alice";
     host_driver_returns := ret;
     host_gettext := λ s, s |}.

(** An unprivileged user, a superuser and a set-uid configuration; role
    drivers keep control. *)
Definition user : Host := make_host setlocale_ok 1000 1000 (λ _, false).
Definition root : Host := make_host setlocale_ok 0 0 (λ _, false).
Definition setuid : Host := make_host setlocale_ok 0 1000 (λ _, false).
Definition no_locale : Host := make_host setlocale_fails 1000 1000 (λ _, false).
Definition C_locale : Host := make_host setlocale_C_only 1000 1000 (λ _, false).
(** The same user on a host whose role drivers all hand control back. *)
Definition returning : Host := make_host setlocale_ok 1000 1000 (λ _, true).

Definition env0 : gmap string string :=
  {[ "LC_ALL" := "de_DE.UTF-8"; "LANG" := "en_US.UTF-8" ]}.

End Samples.

(** ** Reading a run *)

Definition is_stdout (e : Event) : bool :=
  match e with EvStdout _ _ => true | _ => false end.

Definition is_driver (e : Event) : bool :=
  match e with EvDriver _ => true | _ => false end.

(** The role drivers a run has called, in order. *)
Definition drivers_called (t : list Event) : list DriverCall :=
  omap (λ e, match e with EvDriver d => Some d | _ => None end) t.

(** What a run has written on the standard output, in order. *)
Definition stdout_of (t : list Event) : list Event := filter is_stdout t.

(** Control has entered check_root. *)
Definition privilege_checked (t : list Event) : Prop := EvCheckRoot ∈ t.

(** Control has come past the locale set-up (lines 122-172): the call of
    check_strxfrm_bug is its last statement. *)
Definition startup_completed (t : list Event) : Prop :=
  EvCall "check_strxfrm_bug" ∈ t.

(** The categories kept at "C" (lines 160-162). *)
Definition pinned (c : LocaleCategory) : bool :=
  match c with
  | LC_MONETARY | LC_NUMERIC | LC_TIME => true
  | _ => false
  end.

(** The categories the build knows. *)
Definition categories (cfg : BuildConfig) : list LocaleCategory :=
  [LC_COLLATE; LC_CTYPE] ++
  (if HAVE_LC_MESSAGES cfg then [LC_MESSAGES] else []) ++
  [LC_MONETARY; LC_NUMERIC; LC_TIME].

(** What the start-up before the locale set-up may emit, and what the
    negotiation of the categories may emit. *)
Definition is_startup_event (e : Event) : bool :=
  match e with
  | EvCall n => negb (String.eqb n "check_strxfrm_bug")
  | EvStderr _ _ => true
  | _ => false
  end.

Definition is_negotiation_event (e : Event) : bool :=
  match e with
  | EvCall n => String.eqb n "set_pglocale_pgservice"
  | EvSetlocale c l _ => implb (pinned c) (String.eqb l "C")
  | _ => false
  end.

(** What the rest of [main], after the locale set-up, may emit. *)
Definition is_late_event (e : Event) : bool :=
  match e with
  | EvCall n => String.eqb n "pgwin32_signal_initialize"
  | EvStdout _ _ | EvStderr _ _ | EvCheckRoot | EvDriver _ => true
  | _ => false
  end.

(** What entering a role may emit. *)
Definition is_role_event (e : Event) : bool :=
  match e with
  | EvCall n => String.eqb n "pgwin32_signal_initialize"
  | EvDriver _ => true
  | _ => false
  end.

(** ** The mode of an invocation

    The source has no mode variable: the mode is the branch its chain of
    comparisons takes. [classify] makes the chain a function, tests in the
    order of the source (lines 180, 185, 219, 234, 236, 238, 243). *)

Inductive ExecutionMode :=
| ShowHelp | ShowVersion | ForkedWorker | BootstrapLoad
| DescribeConfig | SingleSession | Supervisor.

Definition classify (cfg : BuildConfig) (argv : list string) : ExecutionMode :=
  let argc := length argv in
  if (1 <? argc)%nat &&
     ((strcmp (arg argv 1) "--help" =? 0) || (strcmp (arg argv 1) "-?" =? 0))
  then ShowHelp
  else if (1 <? argc)%nat &&
     ((strcmp (arg argv 1) "--version" =? 0) || (strcmp (arg argv 1) "-V" =? 0))
  then ShowVersion
  else if EXEC_BACKEND cfg && (1 <? argc)%nat &&
          (strncmp (arg argv 1) "--fork" 6 =? 0)
  then ForkedWorker
  else if (1 <? argc)%nat && (strcmp (arg argv 1) "--boot" =? 0)
  then BootstrapLoad
  else if (1 <? argc)%nat && (strcmp (arg argv 1) "--describe-config" =? 0)
  then DescribeConfig
  else if (1 <? argc)%nat && (strcmp (arg argv 1) "--single" =? 0)
  then SingleSession
  else Supervisor.

(** The fixed tokens compared with [argv[1]] by [strcmp]. *)
Definition mode_tokens : list string :=
  ["--help"; "-?"; "--version"; "-V"; "--boot"; "--describe-config"; "--single"].

(** The token table of the specification (section 4.4): the mode that a
    first argument [o] ([None] when there is none) stands for. *)
Definition token_table (cfg : BuildConfig) (o : option string)
    (mode : ExecutionMode) : Prop :=
  match mode with
  | ShowHelp => o = Some "--help" ∨ o = Some "-?"
  | ShowVersion => o = Some "--version" ∨ o = Some "-V"
  | ForkedWorker => EXEC_BACKEND cfg = true ∧ ∃ r, o = Some ("--fork" +:+ r)
  | BootstrapLoad => o = Some "--boot"
  | DescribeConfig => o = Some "--describe-config"
  | SingleSession => o = Some "--single"
  | Supervisor =>
      (∀ t, t ∈ mode_tokens → o ≠ Some t) ∧
      (EXEC_BACKEND cfg = true → ∀ r, o ≠ Some ("--fork" +:+ r))
  end.

(** The condition under which lines 201-204 clear [do_check_root]. *)
Definition root_check_exempt (argv : list string) : bool :=
  let argc := length argv in
  (1 <? argc)%nat &&
  ((strcmp (arg argv 1) "--describe-config" =? 0) ||
   ((2 <? argc)%nat && (strcmp (arg argv 1) "-C" =? 0))).

(** The specification's reading of the rest of [main], by mode (spec
    sections 4.3, 4.5 and 4.6): help and version report and exit; every
    other mode passes the privilege guard unless exempt and then enters its
    role driver; [abort] follows the driver. A forked worker that hands
    control back is followed by the supervisor entry, as the source's chain
    has it. *)
Definition role_entry (cfg : BuildConfig) (host : Host)
    (mode : ExecutionMode) (progname : string) (argv : list string)
  : M Empty_set :=
  let argc := length argv in
  let signals := when (WIN32 cfg) (extern "pgwin32_signal_initialize") in
  match mode with
  | ShowHelp | ShowVersion => abort
  | ForkedWorker =>
      call_driver host (SubPostmasterMain argc argv);;
      signals;;
      call_driver host (PostmasterMain argc argv);;
      abort
  | BootstrapLoad =>
      signals;;
      call_driver host (AuxiliaryProcessMain argc argv);;
      abort
  | DescribeConfig =>
      signals;; call_driver host GucInfoMain;; abort
  | SingleSession =>
      signals;;
      username ← get_user_name_or_exit host progname;
      call_driver host (PostgresMain argc argv None (Some username));;
      abort
  | Supervisor =>
      signals;;
      call_driver host (PostmasterMain argc argv);;
      abort
  end.

Definition mode_behaviour (cfg : BuildConfig) (host : Host)
    (mode : ExecutionMode) (progname : string) (argv : list string)
  : M Empty_set :=
  match mode with
  | ShowHelp => help cfg host progname;; exit 0
  | ShowVersion => fputs_stdout (PG_BACKEND_VERSIONSTR cfg);; exit 0
  | _ =>
      when (negb (root_check_exempt argv)) (check_root cfg host progname);;
      role_entry cfg host mode progname argv
  end.

(** Outcome and events of entering the role of a mode. *)
Definition role_run (cfg : BuildConfig) (host : Host)
    (mode : ExecutionMode) (argv : list string) : Outcome * list Event :=
  match role_entry cfg host mode
          (host_get_progname host (arg argv 0)) argv (start ∅) with
  | (Terminated o, w) => (o, trace w)
  | (Continue e, _) => match e : Empty_set with end
  end.

(** The role driver a mode enters first; help and version enter none, and
    the single-session mode enters none when get_user_name_or_exit has
    ended the process. *)
Definition entry_point (host : Host) (mode : ExecutionMode)
    (argv : list string) : option DriverCall :=
  let argc := length argv in
  match mode with
  | ShowHelp | ShowVersion => None
  | ForkedWorker => Some (SubPostmasterMain argc argv)
  | BootstrapLoad => Some (AuxiliaryProcessMain argc argv)
  | DescribeConfig => Some GucInfoMain
  | SingleSession =>
      match host_user_name host with
      | UserName u => Some (PostgresMain argc argv None (Some u))
      | UserNameExit _ => None
      end
  | Supervisor => Some (PostmasterMain argc argv)
  end.

(** The events of the usage document: what [help] writes. *)
Definition usage_document (cfg : BuildConfig) (host : Host)
    (progname : string) : list Event :=
  trace (help cfg host progname (start ∅)).2.

(** The condition under which check_root refuses to go on. *)
Definition privilege_violation (cfg : BuildConfig) (host : Host) : bool :=
  if WIN32 cfg then host_pgwin32_is_admin host
  else (host_geteuid host =? 0) ||
       negb (host_getuid host =? host_geteuid host).

(** The state of the locale set-up, relative to the state [w0] it started
    from: the events so far are negotiation events, and every category of
    [cs] has been adopted and has its environment variable set. *)
Definition negotiating (w0 : World) (cs : list LocaleCategory) (w : World)
  : Prop :=
  ∃ evs, trace w = trace w0 ++ evs ∧
         Forall (λ e, is_negotiation_event e = true) evs ∧
         ∀ c, c ∈ cs →
              is_Some (environ w !! category_envvar c) ∧
              ∃ l r, EvSetlocale c l (Some r) ∈ evs.

Definition negotiation_failed (w0 : World) (o : Outcome) (w : World) : Prop :=
  (∃ fmt args, o = ElogFatal fmt args) ∧
  ∃ evs, trace w = trace w0 ++ evs ∧
         Forall (λ e, is_negotiation_event e = true) evs.

(** The format of the diagnostic of init_locale. *)
Definition init_locale_diagnostic : string :=
  "could not adopt " +:+ DQUOTE +:+ "%s" +:+ DQUOTE +:+
  " locale nor C locale for %s".

(** The Windows signal emulation is started before every role but the
    forked worker's (lines 223-232). *)
Definition signals_events (cfg : BuildConfig) : list Event :=
  if WIN32 cfg then [EvCall "pgwin32_signal_initialize"] else [].

(** How the process ends once the last role driver [d] of the chain has
    been called: the driver keeps control, or [abort] is reached. *)
Definition entered (host : Host) (d : DriverCall) : Outcome :=
  if host_driver_returns host d then Abort else Running d.

(** What the run does once the locale set-up is through: outcome and
    events of the rest of [main], which does not look at the state. *)
Definition after_startup (cfg : BuildConfig) (host : Host)
    (argv : list string) : Outcome * list Event :=
  match mode_behaviour cfg host (classify cfg argv)
          (host_get_progname host (arg argv 0)) argv (start ∅) with
  | (Terminated o, w) => (o, trace w)
  | (Continue e, _) => match e : Empty_set with end
  end.

(** A run that ended before the locale set-up was through. *)
Definition early_failure (r : Outcome * World) : Prop :=
  (outcome_of r = Exit 1 ∨ ∃ fmt args, outcome_of r = ElogFatal fmt args) ∧
  Forall (λ e, is_startup_event e || is_negotiation_event e = true)
         (trace_of r).

(** A run that came through the locale set-up and went on with [rest]. *)
Definition startup_done (cfg : BuildConfig) (r : Outcome * World)
    (rest : Outcome * list Event) : Prop :=
  ∃ pre1 pre2,
    trace_of r =
      pre1 ++ pre2 ++ [EvUnsetenv "LC_ALL"; EvCall "check_strxfrm_bug"] ++
      rest.2 ∧
    Forall (λ e, is_startup_event e = true) pre1 ∧
    Forall (λ e, is_negotiation_event e = true) pre2 ∧
    (∀ c, c ∈ categories cfg →
          is_Some (environ_of r !! category_envvar c) ∧
          ∃ l res, EvSetlocale c l (Some res) ∈ pre2) ∧
    environ_of r !! "LC_ALL" = None ∧
    outcome_of r = rest.1.

(** ** Reasoning about the process monad *)

(** A computation that does not look at the state: it appends a fixed list
    of events and ends in a fixed result. *)
Definition Framed {A} (m : M A) : Prop :=
  ∃ evs r, ∀ w, m w = (r, log evs w).

(** Partial-correctness triples with a condition for each way of ending. *)
Definition hoare {A} (P : World → Prop) (m : M A)
    (Q : A → World → Prop) (X : Outcome → World → Prop) : Prop :=
  ∀ w, P w →
    match m w with
    | (Continue a, w') => Q a w'
    | (Terminated o, w') => X o w'
    end.

(** A computation that only writes on the standard output and goes on. *)
Definition Prints (m : M unit) : Prop :=
  ∃ evs, Forall (λ e, is_stdout e = true) evs ∧
         ∀ w, m w = (Continue tt, log evs w).

(** What holds when the locale set-up is through. *)
Definition locale_done (cfg : BuildConfig) (w0 w : World) : Prop :=
  ∃ pre,
    trace w = trace w0 ++ pre ++
              [EvUnsetenv "LC_ALL"; EvCall "check_strxfrm_bug"] ∧
    Forall (λ e, is_negotiation_event e = true) pre ∧
    (∀ c, c ∈ categories cfg →
          is_Some (environ w !! category_envvar c) ∧
          ∃ l r, EvSetlocale c l (Some r) ∈ pre) ∧
    environ w !! "LC_ALL" = None.

(** What the run may emit before the end of the locale set-up. *)
Definition is_early_event (e : Event) : bool :=
  is_startup_event e || is_negotiation_event e.

(** Modelled from the spec: the exit status of the process (section 6).
    elog(FATAL) belongs to another file; the specification gives status 1
    to a total failure of the locale adoption. [abort] and a driver that
    keeps control produce no exit status of [main]. *)
Definition exit_status (o : Outcome) : option Z :=
  match o with
  | Exit status => Some status
  | ElogFatal _ _ => Some 1
  | Abort | Running _ => None
  end.

(** ** Further readings of a run: start-up, diagnostics, locale requests *)

Definition is_call (e : Event) : bool :=
  match e with EvCall _ => true | _ => false end.

Definition is_setlocale (e : Event) : bool :=
  match e with EvSetlocale _ _ _ => true | _ => false end.

Definition is_stderr (e : Event) : bool :=
  match e with EvStderr _ _ => true | _ => false end.

(** What a run has written on the standard error stream with
    write_stderr, in order. *)
Definition stderr_of (t : list Event) : list Event := filter is_stderr t.

(** The events of lines 62-111, which do not depend on the state. *)
Definition startup_events (cfg : BuildConfig) (host : Host)
    (argv : list string) : list Event :=
  trace (main_startup cfg host argv (start ∅)).2.

(** The calls of lines 68-70 and of startup_hacks before the spinlock is
    initialised, when start-up goes through: none but on WIN32. *)
Definition crashdump_events (cfg : BuildConfig) : list Event :=
  if WIN32 cfg && HAVE_MINIDUMP_TYPE cfg
  then [EvCall "pgwin32_install_crashdump_handler"] else [].

Definition platform_events (cfg : BuildConfig) (host : Host) : list Event :=
  crashdump_events cfg ++
  if WIN32 cfg then
    [EvCall "setvbuf(stdout)"; EvCall "setvbuf(stderr)"; EvCall "SetErrorMode"] ++
    (if MSVC2013_AMD64 cfg && negb (host_IsWindows7SP1OrGreater host)
     then [EvCall "_set_FMA3_enable(0)"] else [])
  else [].

(** The Winsock start-up has failed (lines 276-282). *)
Definition winsock_failure (cfg : BuildConfig) (host : Host) : bool :=
  WIN32 cfg && negb (host_WSAStartup host =? 0).

(** The diagnostics of startup_hacks (line 279) and of check_root (lines
    406-409, 423, 430-434). *)
Definition winsock_diagnostic : string := "%s: WSAStartup failed: %d" +:+ LF.

Definition root_diagnostic : string :=
  DQUOTE +:+ "root" +:+ DQUOTE +:+
  " execution of the PostgreSQL server is not permitted." +:+ LF +:+
  "The server must be started under an unprivileged user ID to prevent" +:+ LF +:+
  "possible system security compromise.  See the documentation for" +:+ LF +:+
  "more information on how to properly start the server." +:+ LF.

Definition mismatch_diagnostic : string :=
  "%s: real and effective user IDs must match" +:+ LF.

Definition admin_diagnostic : string :=
  "Execution of PostgreSQL by a user with administrative permissions is not" +:+ LF +:+
  "permitted." +:+ LF +:+
  "The server must be started under an unprivileged user ID to prevent" +:+ LF +:+
  "possible system security compromises.  See the documentation for" +:+ LF +:+
  "more information on how to properly start the server." +:+ LF.

(** The message check_root writes when it refuses: the tests come in the
    order of the source, the superuser test first. *)
Definition check_root_diagnostic (cfg : BuildConfig) (host : Host)
    (progname : string) : Event :=
  if WIN32 cfg then EvStderr admin_diagnostic []
  else if host_geteuid host =? 0 then EvStderr root_diagnostic []
  else EvStderr mismatch_diagnostic [ArgStr progname].

(** The line of the usage document that depends on the build (line 357). *)
Definition ssl_usage_line (host : Host) : Event :=
  EvStdout (host_gettext host
              ("  -l                 enable SSL connections" +:+ LF)) [].

(** The locale [main] asks for first, per category (lines 135-162), under
    the environment [env] the process was started with. *)
Definition requested_locale (cfg : BuildConfig) (env : gmap string string)
    (c : LocaleCategory) : string :=
  match c with
  | LC_COLLATE | LC_CTYPE =>
      if WIN32 cfg then default "" (env !! category_envvar c) else ""
  | LC_MESSAGES => ""
  | LC_MONETARY | LC_NUMERIC | LC_TIME => "C"
  end.

(** The requests a list of setlocale events may hold for [main]: each is
    for a category of [cs], and asks for the category's first choice or
    for "C"; and every category of [cs] has been asked for its first
    choice. *)
Definition requests_of (cfg : BuildConfig) (env : gmap string string)
    (cs : list LocaleCategory) (evs : list Event) : Prop :=
  Forall (λ e, is_setlocale e = true) evs ∧
  (∀ c l res, EvSetlocale c l res ∈ evs →
              c ∈ cs ∧ (l = requested_locale cfg env c ∨ l = "C")) ∧
  (∀ c, c ∈ cs → ∃ res, EvSetlocale c (requested_locale cfg env c) res ∈ evs).

(** The state of the locale set-up after the categories [cs], relative to
    the state [w0] it started from: the variables of other names are
    untouched, and each category has cost one or two setlocale calls. *)
Definition locale_inv (cfg : BuildConfig) (w0 : World)
    (cs : list LocaleCategory) (w : World) : Prop :=
  (∀ k, (∀ c, c ∈ cs → k ≠ category_envvar c) →
        environ w !! k = environ w0 !! k) ∧
  ∃ evs,
    trace w = trace w0 ++ EvCall "set_pglocale_pgservice" :: evs ∧
    requests_of cfg (environ w0) cs evs ∧
    setlocale_calls w = (setlocale_calls w0 + length evs)%nat ∧
    (length cs ≤ length evs)%nat ∧ (length evs ≤ 2 * length cs)%nat.

(** The locale set-up has ended in the fatal error of a category [c]:
    its first choice and "C" were both refused, which the diagnostic
    reports. *)
Definition locale_fatal (cfg : BuildConfig) (w0 : World) (o : Outcome)
    (w : World) : Prop :=
  (∀ k, (∀ c, c ∈ categories cfg → k ≠ category_envvar c) →
        environ w !! k = environ w0 !! k) ∧
  ∃ c pre,
    c ∈ categories cfg ∧
    o = ElogFatal init_locale_diagnostic
          [ArgStr (requested_locale cfg (environ w0) c);
           ArgStr (category_envvar c)] ∧
    trace w = trace w0 ++ EvCall "set_pglocale_pgservice" ::
              pre ++ [EvSetlocale c (requested_locale cfg (environ w0) c) None;
                      EvSetlocale c "C" None] ∧
    setlocale_calls w = (setlocale_calls w0 + length pre + 2)%nat ∧
    (length pre + 2 ≤ 2 * length (categories cfg))%nat ∧
    Forall (λ e, is_setlocale e = true) pre ∧
    (∀ c' l res, EvSetlocale c' l res ∈ pre →
                 c' ∈ categories cfg ∧
                 (l = requested_locale cfg (environ w0) c' ∨ l = "C")).

(** The locale set-up has come through. *)
Definition locale_final (cfg : BuildConfig) (w0 w : World) : Prop :=
  (∀ k, k ≠ "LC_ALL" →
        (∀ c, c ∈ categories cfg → k ≠ category_envvar c) →
        environ w !! k = environ w0 !! k) ∧
  ∃ evs,
    trace w = trace w0 ++ EvCall "set_pglocale_pgservice" ::
              evs ++ [EvUnsetenv "LC_ALL"; EvCall "check_strxfrm_bug"] ∧
    requests_of cfg (environ w0) (categories cfg) evs ∧
    setlocale_calls w = (setlocale_calls w0 + length evs)%nat ∧
    (length (categories cfg) ≤ length evs)%nat ∧
    (length evs ≤ 2 * length (categories cfg))%nat.

(** A WIN32 host whose Winsock start-up fails (WSASYSNOTREADY). *)
Definition no_winsock : Host :=
  {| host_get_progname := λ s, "postgres";
     host_setlocale := Samples.setlocale_ok;
     host_getuid := 1000; host_geteuid := 1000;
     host_pgwin32_is_admin := false;
     host_WSAStartup := 10091;
     host_IsWindows7SP1OrGreater := true;
     host_user_name := UserName "alice";
     host_driver_returns := λ _, false;
     host_gettext := λ s, s |}.




(** ** The block of the locale categories *)

(** main, lines 124-170: the locale categories and LC_ALL, the statements
    between the calls of set_pglocale_pgservice and check_strxfrm_bug. *)
Definition main_categories (cfg : BuildConfig) (host : Host) : M unit :=
  (if WIN32 cfg then
     env_locale ← getenv "LC_COLLATE";
     match env_locale with
     | Some l => init_locale host "LC_COLLATE" LC_COLLATE l
     | None => init_locale host "LC_COLLATE" LC_COLLATE ""
     end;;
     env_locale ← getenv "LC_CTYPE";
     match env_locale with
     | Some l => init_locale host "LC_CTYPE" LC_CTYPE l
     | None => init_locale host "LC_CTYPE" LC_CTYPE ""
     end
   else
     init_locale host "LC_COLLATE" LC_COLLATE "";;
     init_locale host "LC_CTYPE" LC_CTYPE "");;
  when (HAVE_LC_MESSAGES cfg)
    (init_locale host "LC_MESSAGES" LC_MESSAGES "");;
  init_locale host "LC_MONETARY" LC_MONETARY "C";;
  init_locale host "LC_NUMERIC" LC_NUMERIC "C";;
  init_locale host "LC_TIME" LC_TIME "C";;
  unsetenv "LC_ALL".

(** The requests of one call of init_locale for the category [c]: one
    request that is granted, or a refused one followed by the request for
    "C". *)
Definition request_segment (c : LocaleCategory) (seg : list Event) : Prop :=
  ∃ l, (∃ r, seg = [EvSetlocale c l (Some r)]) ∨
       (∃ res, seg = [EvSetlocale c l None; EvSetlocale c "C" res]).

Definition is_request_for (c : LocaleCategory) (e : Event) : bool :=
  match e with
  | EvSetlocale c' _ _ => bool_decide (c' = c)
  | _ => false
  end.

(** The setlocale requests of a trace for the category [c], in order. *)
Definition requests_for (c : LocaleCategory) (t : list Event) : list Event :=
  filter (is_request_for c) t.

(** The state of the block after the calls of init_locale for the
    categories [cs], in the order of the calls, relative to the state [w0]
    it started from. *)
Definition categories_inv (w0 : World) (cs : list LocaleCategory)
    (w : World) : Prop :=
  (∀ k, (∀ c, c ∈ cs → k ≠ category_envvar c) →
        environ w !! k = environ w0 !! k) ∧
  ∃ segs, trace w = trace w0 ++ concat segs ∧
          Forall2 request_segment cs segs.

(** The block has ended in the fatal error of init_locale for a category
    [c], after the calls for the categories [cs] before it. *)
Definition categories_fatal (cfg : BuildConfig) (w0 : World) (o : Outcome)
    (w : World) : Prop :=
  (∀ k, (∀ c, c ∈ categories cfg → k ≠ category_envvar c) →
        environ w !! k = environ w0 !! k) ∧
  ∃ cs c l segs,
    cs ++ [c] `prefix_of` categories cfg ∧
    o = ElogFatal init_locale_diagnostic [ArgStr l; ArgStr (category_envvar c)] ∧
    trace w = trace w0 ++ concat segs ++
              [EvSetlocale c l None; EvSetlocale c "C" None] ∧
    Forall2 request_segment cs segs.

(** The block has come through. *)
Definition categories_final (cfg : BuildConfig) (w0 w : World) : Prop :=
  (∀ k, k ≠ "LC_ALL" →
        (∀ c, c ∈ categories cfg → k ≠ category_envvar c) →
        environ w !! k = environ w0 !! k) ∧
  environ w !! "LC_ALL" = None ∧
  ∃ segs, trace w = trace w0 ++ concat segs ++ [EvUnsetenv "LC_ALL"] ∧
          Forall2 request_segment (categories cfg) segs.

(** ** The diagnostics of this file *)

(** The messages check_root writes when it refuses. *)
Definition is_refusal (e : Event) : bool :=
  match e with
  | EvStderr fmt _ =>
      String.eqb fmt root_diagnostic || String.eqb fmt mismatch_diagnostic ||
      String.eqb fmt admin_diagnostic
  | _ => false
  end.

(** The messages this file writes with write_stderr: that of startup_hacks
    and those of check_root. *)
Definition is_own_diagnostic (e : Event) : bool :=
  match e with
  | EvStderr fmt _ => String.eqb fmt winsock_diagnostic || is_refusal e
  | _ => false
  end.

(** * Properties *)

(** ** C strings *)

Section CStringFacts.

Lemma strcmp_eq_0 (s1 s2 : string) : strcmp s1 s2 = 0 ↔ s1 = s2.
Proof.
  unfold strcmp. split.
  - intros H. apply String.compare_eq_iff.
    by destruct (String.compare s1 s2).
  - intros <-. pose proof (String.compare_antisym s1 s1) as H.
    by destruct (String.compare s1 s1).
Qed.

Lemma strcmp_eqb (s1 s2 : string) : (strcmp s1 s2 =? 0) = String.eqb s1 s2.
Proof.
  destruct (String.eqb_spec s1 s2) as [->|Hne].
  - apply Z.eqb_eq. by apply strcmp_eq_0.
  - apply Z.eqb_neq. by rewrite strcmp_eq_0.
Qed.

Lemma append_cons (c : ascii) (s r : string) :
  String c s +:+ r = String c (s +:+ r).
Proof. reflexivity. Qed.

Lemma strnpart_app (p s : string) :
  strnpart (String.length p) (p +:+ s) = p.
Proof.
  induction p as [|c p IH]; [done|].
  rewrite append_cons. simpl. by rewrite IH.
Qed.

Lemma strnpart_all (p : string) : strnpart (String.length p) p = p.
Proof. induction p as [|c p IH]; simpl; [done | by rewrite IH]. Qed.

Lemma strnpart_split (n : nat) (s : string) :
  ∃ r, s = strnpart n s +:+ r.
Proof.
  revert s. induction n as [|n IH]; intros s.
  - exists s. by destruct s.
  - destruct s as [|c s]; [by exists EmptyString|].
    destruct (IH s) as [r Hr]. exists r. simpl.
    rewrite append_cons. by f_equal.
Qed.

(** [strncmp s p (strlen p) == 0] is the C idiom for "s begins with p". *)
Lemma strncmp_prefix (s p : string) :
  strncmp s p (String.length p) = 0 ↔ ∃ r, s = p +:+ r.
Proof.
  unfold strncmp. rewrite strcmp_eq_0, strnpart_all. split.
  - intros H. destruct (strnpart_split (String.length p) s) as [r Hr].
    exists r. by rewrite <- H.
  - intros [r ->]. apply strnpart_app.
Qed.

End CStringFacts.

(** ** The process monad *)

Section MonadFacts.

Lemma log_nil (w : World) : log [] w = w.
Proof. destruct w; unfold log; simpl. by rewrite app_nil_r. Qed.

Lemma log_log (evs1 evs2 : list Event) (w : World) :
  log evs2 (log evs1 w) = log (evs1 ++ evs2) w.
Proof. unfold log; simpl. by rewrite app_assoc. Qed.

Lemma trace_log (evs : list Event) (w : World) :
  trace (log evs w) = trace w ++ evs.
Proof. reflexivity. Qed.

Lemma environ_log (evs : list Event) (w : World) :
  environ (log evs w) = environ w.
Proof. reflexivity. Qed.

Lemma bind_run {A B} (m : M A) (f : A → M B) (w : World) :
  (m ≫= f) w =
  match m w with
  | (Continue a, w') => f a w'
  | (Terminated o, w') => (Terminated o, w')
  end.
Proof. reflexivity. Qed.

Lemma Framed_ret {A} (a : A) : Framed (mret a : M A).
Proof. exists [], (Continue a). intros w. by rewrite log_nil. Qed.

Lemma Framed_terminate {A} (o : Outcome) : Framed (terminate o : M A).
Proof. exists [], (Terminated o). intros w. by rewrite log_nil. Qed.

Lemma Framed_emit (e : Event) : Framed (emit e).
Proof. by exists [e], (Continue tt). Qed.

Lemma Framed_bind {A B} (m : M A) (f : A → M B) :
  Framed m → (∀ a, Framed (f a)) → Framed (m ≫= f).
Proof.
  intros (evs1 & [a|o] & Hm) Hf.
  - destruct (Hf a) as (evs2 & r & Hfa).
    exists (evs1 ++ evs2), r. intros w.
    by rewrite bind_run, Hm, Hfa, log_log.
  - exists evs1, (Terminated o). intros w. by rewrite bind_run, Hm.
Qed.

Lemma Framed_if {A} (b : bool) (m1 m2 : M A) :
  Framed m1 → Framed m2 → Framed (if b then m1 else m2).
Proof. by destruct b. Qed.

Lemma Framed_when (b : bool) (m : M unit) : Framed m → Framed (when b m).
Proof. intros H. apply Framed_if; [done | apply Framed_ret]. Qed.

(** A framed computation is known from its run on the empty process. *)
Lemma Framed_run {A} (m : M A) (w : World) :
  Framed m →
  m w = ((m (start ∅)).1, log (trace (m (start ∅)).2) w).
Proof. intros (evs & r & Hm). by rewrite !Hm. Qed.

Lemma hoare_bind {A B} P (m : M A) (f : A → M B) Q R X :
  hoare P m Q X → (∀ a, hoare (Q a) (f a) R X) → hoare P (m ≫= f) R X.
Proof.
  intros Hm Hf w HP. rewrite bind_run. specialize (Hm w HP).
  destruct (m w) as [[a|o] w']; [by apply Hf | done].
Qed.

Lemma hoare_conseq {A} (P P' : World → Prop) (m : M A)
    (Q Q' : A → World → Prop) X :
  hoare P' m Q' X → (∀ w, P w → P' w) → (∀ a w, Q' a w → Q a w) →
  hoare P m Q X.
Proof.
  intros Hm HP HQ w Hw. specialize (Hm w (HP w Hw)).
  destruct (m w) as [[a|o] w']; [by apply HQ | done].
Qed.

Lemma hoare_ret {A} (P : World → Prop) (a : A) X :
  hoare P (mret a) (λ _, P) X.
Proof. by intros w HP. Qed.

End MonadFacts.

(** ** The parts of [main] that do not look at the state *)

Section FramedParts.

Context (cfg : BuildConfig) (host : Host).

Lemma Framed_extern (routine : string) : Framed (extern routine).
Proof. apply Framed_emit. Qed.

Lemma Framed_printf fmt args : Framed (printf fmt args).
Proof. apply Framed_emit. Qed.

Lemma Framed_fputs_stdout s : Framed (fputs_stdout s).
Proof. apply Framed_emit. Qed.

Lemma Framed_write_stderr fmt args : Framed (write_stderr fmt args).
Proof. apply Framed_emit. Qed.

Lemma Framed_exit {A} status : Framed (exit status : M A).
Proof. apply Framed_terminate. Qed.

Lemma Framed_abort {A} : Framed (abort : M A).
Proof. apply Framed_terminate. Qed.

Lemma Framed_call_driver (d : DriverCall) : Framed (call_driver host d).
Proof.
  unfold call_driver. apply Framed_bind; [apply Framed_emit|intros _].
  apply Framed_if; [apply Framed_ret | apply Framed_terminate].
Qed.

Lemma Framed_get_user_name_or_exit (progname : string) :
  Framed (get_user_name_or_exit host progname).
Proof.
  unfold get_user_name_or_exit.
  destruct (host_user_name host); [apply Framed_ret | apply Framed_exit].
Qed.

Ltac framed_step :=
  lazymatch goal with
  | |- Framed (mret _) => apply Framed_ret
  | |- Framed (mbind _ _) => apply Framed_bind; [|intros ?]
  | |- Framed (when _ _) => apply Framed_when
  | |- Framed (if _ then _ else _) => apply Framed_if
  | |- Framed (extern _) => apply Framed_extern
  | |- Framed (printf _ _) => apply Framed_printf
  | |- Framed (fputs_stdout _) => apply Framed_fputs_stdout
  | |- Framed (write_stderr _ _) => apply Framed_write_stderr
  | |- Framed (exit _) => apply Framed_exit
  | |- Framed abort => apply Framed_abort
  | |- Framed (emit _) => apply Framed_emit
  | |- Framed (call_driver _ _) => apply Framed_call_driver
  | |- Framed (get_user_name_or_exit _ _) =>
      apply Framed_get_user_name_or_exit
  end.

Lemma Framed_help (progname : string) : Framed (help cfg host progname).
Proof. unfold help. repeat framed_step. Qed.

Lemma Framed_check_root (progname : string) :
  Framed (check_root cfg host progname).
Proof. unfold check_root. repeat framed_step. Qed.

Lemma Framed_startup_hacks (progname : string) :
  Framed (startup_hacks cfg host progname).
Proof. unfold startup_hacks. repeat framed_step. Qed.

Ltac framed_block :=
  lazymatch goal with
  | |- Framed (help _ _ _) => apply Framed_help
  | |- Framed (check_root _ _ _) => apply Framed_check_root
  | |- Framed (startup_hacks _ _ _) => apply Framed_startup_hacks
  | |- _ => framed_step
  end.

Lemma Framed_main_startup (argv : list string) :
  Framed (main_startup cfg host argv).
Proof. unfold main_startup. cbv zeta. repeat framed_block. Qed.

Lemma Framed_main_standard_options (progname : string) (argv : list string) :
  Framed (main_standard_options cfg host progname argv).
Proof.
  unfold main_standard_options. cbv zeta. repeat framed_block.
Qed.

Lemma Framed_main_dispatch (progname : string) (argv : list string) :
  Framed (main_dispatch cfg host progname argv).
Proof. unfold main_dispatch. cbv zeta. repeat framed_step. Qed.

Lemma Framed_mode_behaviour (mode : ExecutionMode) (progname : string)
    (argv : list string) :
  Framed (mode_behaviour cfg host mode progname argv).
Proof.
  unfold mode_behaviour, role_entry. cbv zeta.
  destruct mode; repeat framed_block.
Qed.

Lemma Framed_role_entry (mode : ExecutionMode) (progname : string)
    (argv : list string) :
  Framed (role_entry cfg host mode progname argv).
Proof. unfold role_entry. cbv zeta. destruct mode; repeat framed_block. Qed.

Lemma Prints_printf fmt args : Prints (printf fmt args).
Proof. exists [EvStdout fmt args]. split; [by repeat constructor | done]. Qed.

Lemma Prints_bind (m k : M unit) : Prints m → Prints k → Prints (m ;; k).
Proof.
  intros (evs1 & H1 & Hm) (evs2 & H2 & Hk). exists (evs1 ++ evs2).
  split; [by apply Forall_app|]. intros w.
  by rewrite bind_run, Hm, Hk, log_log.
Qed.

Lemma Prints_when (b : bool) (m : M unit) : Prints m → Prints (when b m).
Proof.
  destruct b; [done|]. intros _. exists []. split; [done|].
  intros w. simpl. by rewrite log_nil.
Qed.

Lemma Prints_help (progname : string) : Prints (help cfg host progname).
Proof.
  unfold help.
  repeat lazymatch goal with
         | |- Prints (mbind _ _) => apply Prints_bind
         | |- Prints (when _ _) => apply Prints_when
         | |- Prints (printf _ _) => apply Prints_printf
         end.
Qed.

Lemma help_run (progname : string) (w : World) :
  help cfg host progname w =
  (Continue tt, log (usage_document cfg host progname) w).
Proof.
  destruct (Prints_help progname) as (evs & _ & Hrun).
  unfold usage_document. by rewrite !Hrun.
Qed.

Lemma usage_document_stdout (progname : string) :
  Forall (λ e, is_stdout e = true) (usage_document cfg host progname).
Proof.
  destruct (Prints_help progname) as (evs & Hall & Hrun).
  unfold usage_document. by rewrite Hrun.
Qed.

Lemma usage_document_nonempty (progname : string) :
  usage_document cfg host progname ≠ [].
Proof.
  unfold usage_document, help. rewrite bind_run.
  unfold printf at 1. unfold emit at 1. cbv beta iota.
  rewrite (Framed_run _ (log _ _)); [|repeat framed_block].
  cbv [snd]. rewrite !trace_log.
  intros [[_ H]%app_eq_nil _]%app_eq_nil. discriminate H.
Qed.


Lemma call_driver_run (d : DriverCall) (w : World) :
  call_driver host d w =
  (if host_driver_returns host d then Continue tt
   else Terminated (Running d),
   log [EvDriver d] w).
Proof.
  unfold call_driver. rewrite bind_run. simpl.
  by destruct (host_driver_returns host d).
Qed.

Lemma check_root_run (progname : string) :
  ∃ msg args, ∀ w,
    check_root cfg host progname w =
    if privilege_violation cfg host
    then (Terminated (Exit 1), log [EvCheckRoot; EvStderr msg args] w)
    else (Continue tt, log [EvCheckRoot] w).
Proof.
  unfold check_root, privilege_violation.
  destruct (WIN32 cfg), (host_pgwin32_is_admin host),
    (host_geteuid host =? 0), (host_getuid host =? host_geteuid host);
    unfold write_stderr, exit, terminate, emit, mbind, M_bind, mret, M_ret;
    simpl;
    first
      [ exists "", []; intros w; rewrite ?log_log; reflexivity
      | eexists _, _; intros w; rewrite ?log_log; reflexivity ].
Qed.

End FramedParts.

(** ** [main] by mode *)

Section ByMode.

Context (cfg : BuildConfig) (host : Host).

Lemma fork_prefix_tokens (r : string) :
  String.eqb ("--fork" +:+ r) "--boot" = false ∧
  String.eqb ("--fork" +:+ r) "--describe-config" = false ∧
  String.eqb ("--fork" +:+ r) "--single" = false ∧
  String.eqb ("--fork" +:+ r) "-C" = false ∧
  String.eqb ("--fork" +:+ r) "--help" = false ∧
  String.eqb ("--fork" +:+ r) "-?" = false ∧
  String.eqb ("--fork" +:+ r) "--version" = false ∧
  String.eqb ("--fork" +:+ r) "-V" = false.
Proof. repeat split; reflexivity. Qed.

Lemma fork_test (s : string) :
  (strncmp s "--fork" 6 =? 0) = true ↔ ∃ r, s = "--fork" +:+ r.
Proof. rewrite Z.eqb_eq. apply (strncmp_prefix s "--fork"). Qed.

(** After the locale set-up, [main] does what the mode of the argument
    vector prescribes. *)
Lemma main_rest_by_mode (progname : string) (argv : list string) (w : World) :
  (do_check_root ← main_standard_options cfg host progname argv;
   when do_check_root (check_root cfg host progname);;
   main_dispatch cfg host progname argv) w =
  mode_behaviour cfg host (classify cfg argv) progname argv w.
Proof.
  unfold main_standard_options, main_dispatch, mode_behaviour, role_entry,
    classify, root_check_exempt.
  generalize (help cfg host progname) (check_root cfg host progname)
    (call_driver host) (get_user_name_or_exit host progname).
  intros hlp chk call uname.
  destruct (EXEC_BACKEND cfg) eqn:Hexec, (WIN32 cfg) eqn:Hwin;
  (destruct argv as [|a0 [|a1 rest]]; [reflexivity | reflexivity |]).
  all: change (arg (a0 :: a1 :: rest) 1) with a1.
  all: change (1 <? length (a0 :: a1 :: rest))%nat with true.
  all: generalize (length (a0 :: a1 :: rest)); intros argc.
  all: rewrite !strcmp_eqb.
  all: cbv beta iota zeta.
  all: destruct (strncmp a1 "--fork" 6 =? 0) eqn:Hfork;
    [ apply fork_test in Hfork as [r ->];
      destruct (fork_prefix_tokens r) as (-> & -> & -> & -> & -> & -> & -> & ->)
    | repeat match goal with
             | |- context [String.eqb ?s ?t] =>
                 is_var s; destruct (String.eqb_spec s t) as [->|?]
             end ].
  all: try reflexivity.
  all: destruct (2 <? argc)%nat; try reflexivity.
  all: unfold when, mbind, M_bind, mret, M_ret, exit, abort, terminate,
         fputs_stdout, extern, emit; cbn.
  all: repeat match goal with
              | |- context [let (_, _) := ?m ?w in _] =>
                  destruct (m w) as [[?|?] ?]
              end; reflexivity.
Qed.

End ByMode.

(** ** The locale set-up *)

Section Locale.

Context (cfg : BuildConfig) (host : Host).

Lemma init_locale_run (name : string) (c : LocaleCategory) (l : string)
    (w : World) :
  init_locale host name c l w =
  match host_setlocale host (setlocale_calls w) (environ w) c l with
  | Some r =>
      (Continue tt,
       {| environ := <[category_envvar c := r]> (environ w);
          setlocale_calls := S (setlocale_calls w);
          trace := trace w ++ [EvSetlocale c l (Some r)] |})
  | None =>
      match host_setlocale host (S (setlocale_calls w)) (environ w) c "C" with
      | Some r =>
          (Continue tt,
           {| environ := <[category_envvar c := r]> (environ w);
              setlocale_calls := S (S (setlocale_calls w));
              trace := trace w ++
                       [EvSetlocale c l None; EvSetlocale c "C" (Some r)] |})
      | None =>
          (Terminated (ElogFatal init_locale_diagnostic
                                 [ArgStr l; ArgStr name]),
           {| environ := environ w;
              setlocale_calls := S (S (setlocale_calls w));
              trace := trace w ++
                       [EvSetlocale c l None; EvSetlocale c "C" None] |})
      end
  end.
Proof.
  unfold init_locale, pg_perm_setlocale. rewrite bind_run. simpl.
  destruct (host_setlocale host (setlocale_calls w) (environ w) c l)
    as [r|]; simpl; [reflexivity|].
  rewrite bind_run. simpl.
  destruct (host_setlocale host (S (setlocale_calls w)) (environ w) c "C")
    as [r|]; simpl; by rewrite <- app_assoc.
Qed.

Lemma negotiating_extend (w0 w : World) (cs : list LocaleCategory)
    (c : LocaleCategory) (l r : string) (n : nat) (evs : list Event) :
  negotiating w0 cs w →
  Forall (λ e, is_negotiation_event e = true) evs →
  EvSetlocale c l (Some r) ∈ evs →
  negotiating w0 (c :: cs)
    {| environ := <[category_envvar c := r]> (environ w);
       setlocale_calls := n; trace := trace w ++ evs |}.
Proof.
  intros (evs0 & Htr & Hall & Hcs) Hevs Hin.
  exists (evs0 ++ evs). simpl. split; [by rewrite Htr, app_assoc|].
  split; [by apply Forall_app|].
  intros c' [->|Hc']%elem_of_cons.
  - split; [rewrite lookup_insert_eq; eauto|].
    exists l, r. apply elem_of_app. by right.
  - destruct (Hcs c' Hc') as (Hsome & l' & r' & Hin').
    split; [apply lookup_insert_is_Some'; by right|].
    exists l', r'. apply elem_of_app. by left.
Qed.

Lemma hoare_init_locale (w0 : World) (cs : list LocaleCategory)
    (name : string) (c : LocaleCategory) (l : string) :
  implb (pinned c) (String.eqb l "C") = true →
  hoare (negotiating w0 cs) (init_locale host name c l)
        (λ _, negotiating w0 (c :: cs)) (negotiation_failed w0).
Proof.
  intros Hpin w Hw. rewrite init_locale_run.
  assert (HC : is_negotiation_event (EvSetlocale c "C" None) = true)
    by (simpl; by destruct (pinned c)).
  destruct (host_setlocale host (setlocale_calls w) (environ w) c l)
    as [r|].
  - eapply negotiating_extend; [done | | apply list_elem_of_singleton; done].
    by repeat constructor.
  - destruct (host_setlocale host (S (setlocale_calls w)) (environ w) c "C")
      as [r|].
    + eapply negotiating_extend; [done | | ].
      * repeat constructor; [done | simpl; by destruct (pinned c)].
      * apply elem_of_cons; right. by apply list_elem_of_singleton.
    + destruct Hw as (evs0 & Htr & Hall & _). split; [eauto|].
      exists (evs0 ++ [EvSetlocale c l None; EvSetlocale c "C" None]).
      simpl. split; [by rewrite Htr, app_assoc|].
      apply Forall_app; split; [done|]. by repeat constructor.
Qed.

Lemma negotiating_weaken (w0 w : World) (cs cs' : list LocaleCategory) :
  (∀ c, c ∈ cs' → c ∈ cs) → negotiating w0 cs w → negotiating w0 cs' w.
Proof.
  intros Hsub (evs & Htr & Hall & Hcs). exists evs. eauto.
Qed.

Lemma hoare_negotiation_call (w0 : World) :
  hoare (λ w, w = w0) (extern "set_pglocale_pgservice")
        (λ _, negotiating w0 []) (negotiation_failed w0).
Proof.
  intros w Hw. subst w. simpl. exists [EvCall "set_pglocale_pgservice"].
  split; [done|]. split; [by repeat constructor|].
  intros c Hc. by apply elem_of_nil in Hc.
Qed.

Lemma hoare_getenv (P : World → Prop) (name : string) X :
  hoare P (getenv name) (λ _, P) X.
Proof. by intros w HP. Qed.

(** The first two categories: from the environment variable on WIN32,
    from the C library's own reading of the environment elsewhere. *)
Lemma hoare_collate_ctype (w0 : World) (cs : list LocaleCategory) :
  hoare (negotiating w0 cs)
    (if WIN32 cfg then
       env_locale ← getenv "LC_COLLATE";
       match env_locale with
       | Some l => init_locale host "LC_COLLATE" LC_COLLATE l
       | None => init_locale host "LC_COLLATE" LC_COLLATE ""
       end;;
       env_locale ← getenv "LC_CTYPE";
       match env_locale with
       | Some l => init_locale host "LC_CTYPE" LC_CTYPE l
       | None => init_locale host "LC_CTYPE" LC_CTYPE ""
       end
     else
       init_locale host "LC_COLLATE" LC_COLLATE "";;
       init_locale host "LC_CTYPE" LC_CTYPE "")
    (λ _, negotiating w0 (LC_CTYPE :: LC_COLLATE :: cs))
    (negotiation_failed w0).
Proof.
  destruct (WIN32 cfg).
  - eapply hoare_bind; [apply hoare_getenv|]. intros e1.
    eapply hoare_bind;
      [destruct e1; by apply hoare_init_locale|]. intros ?.
    eapply hoare_bind; [apply hoare_getenv|]. intros e2.
    destruct e2; by apply hoare_init_locale.
  - eapply hoare_bind; [by apply hoare_init_locale|]. intros ?.
    by apply hoare_init_locale.
Qed.

Lemma hoare_messages (w0 : World) (cs : list LocaleCategory) :
  hoare (negotiating w0 cs)
    (when (HAVE_LC_MESSAGES cfg)
       (init_locale host "LC_MESSAGES" LC_MESSAGES ""))
    (λ _, negotiating w0
            ((if HAVE_LC_MESSAGES cfg then [LC_MESSAGES] else []) ++ cs))
    (negotiation_failed w0).
Proof.
  destruct (HAVE_LC_MESSAGES cfg); simpl.
  - by apply hoare_init_locale.
  - apply hoare_ret.
Qed.

Lemma hoare_unset_LC_ALL (w0 : World) :
  hoare (negotiating w0 (categories cfg))
    (unsetenv "LC_ALL";; extern "check_strxfrm_bug")
    (λ _, locale_done cfg w0) (negotiation_failed w0).
Proof.
  intros w (pre & Htr & Hall & Hcs). simpl.
  exists pre. simpl. split; [by rewrite Htr, <- !app_assoc|].
  split; [done|]. split; [|apply lookup_delete_eq].
  intros c Hc. destruct (Hcs c Hc) as [Hsome Hev]. split; [|done].
  rewrite lookup_delete_ne; [done|]. by destruct c.
Qed.

Lemma hoare_main_locale (argv : list string) (w0 : World) :
  hoare (λ w, w = w0) (main_locale cfg host argv)
        (λ _, locale_done cfg w0) (negotiation_failed w0).
Proof.
  unfold main_locale.
  eapply hoare_bind; [apply hoare_negotiation_call|]. intros ?.
  eapply hoare_bind; [apply hoare_collate_ctype|]. intros ?.
  eapply hoare_bind; [apply hoare_messages|]. intros ?.
  eapply hoare_bind; [by apply hoare_init_locale|]. intros ?.
  eapply hoare_bind; [by apply hoare_init_locale|]. intros ?.
  eapply hoare_bind; [by apply hoare_init_locale|]. intros ?.
  eapply hoare_conseq; [apply hoare_unset_LC_ALL| |done].
  intros w. apply negotiating_weaken. unfold categories.
  intros c Hc.
  destruct (HAVE_LC_MESSAGES cfg); simpl in *;
    rewrite !elem_of_cons in *;
    repeat (destruct Hc as [->|Hc]; [auto 10|]);
    by apply elem_of_nil in Hc.
Qed.

End Locale.

(** ** The run as a whole *)

Section Run.

Context (cfg : BuildConfig) (host : Host).

Lemma main_startup_run (argv : list string) (w : World) :
  ∃ evs, Forall (λ e, is_startup_event e = true) evs ∧
    (main_startup cfg host argv w =
       (Continue (host_get_progname host (arg argv 0)), log evs w) ∨
     main_startup cfg host argv w = (Terminated (Exit 1), log evs w) ∧
     WIN32 cfg = true ∧ host_WSAStartup host ≠ 0).
Proof.
  rewrite (Framed_run _ w (Framed_main_startup cfg host argv)).
  unfold main_startup, startup_hacks.
  destruct (WIN32 cfg), (HAVE_MINIDUMP_TYPE cfg), (MSVC2013_AMD64 cfg),
    (host_IsWindows7SP1OrGreater host),
    (Z.eqb_spec (host_WSAStartup host) 0);
    cbn;
    (eexists; split; [|first [left; reflexivity | right; by split]]);
    by repeat constructor.
Qed.

Lemma run_cases (argv : list string) (env : gmap string string) :
  early_failure (run cfg host argv env) ∨
  startup_done cfg (run cfg host argv env) (after_startup cfg host argv).
Proof.
  unfold run, main. rewrite bind_run.
  destruct (main_startup_run argv (start env))
    as (evs1 & Hevs1 & [Hs|[Hs _]]); rewrite Hs.
  - rewrite bind_run.
    pose proof (hoare_main_locale cfg host argv (log evs1 (start env))
                  (log evs1 (start env)) eq_refl) as Hloc.
    destruct (main_locale cfg host argv (log evs1 (start env)))
      as [[[]|o] w2].
    + right. rewrite main_rest_by_mode.
      rewrite (Framed_run _ w2 (Framed_mode_behaviour cfg host _ _ _)).
      unfold after_startup.
      destruct (mode_behaviour cfg host _ _ _ (start ∅)) as [[e|o] w3];
        [destruct e|].
      destruct Hloc as (pre2 & Htr & Hneg & Hcat & Hall).
      exists evs1, pre2. unfold trace_of, environ_of, outcome_of. simpl.
      rewrite Htr. simpl. by rewrite <- !app_assoc.
    + left. destruct Hloc as [Hfatal (evs2 & Htr & Hneg)].
      split; [by right|]. unfold trace_of. simpl. rewrite Htr. simpl.
      apply Forall_app. split.
      * eapply Forall_impl; [exact Hevs1|]. intros e ->. done.
      * eapply Forall_impl; [exact Hneg|]. intros e ->.
        apply orb_true_r.
  - left. split; [by left|]. unfold trace_of. simpl.
    eapply Forall_impl; [exact Hevs1|]. intros e ->. done.
Qed.

(** The rest of the run in closed form: report, or guard and role. *)
Lemma after_startup_eq (argv : list string) :
  ∃ msg args,
    after_startup cfg host argv =
    match classify cfg argv with
    | ShowHelp =>
        (Exit 0, usage_document cfg host (host_get_progname host (arg argv 0)))
    | ShowVersion => (Exit 0, [EvStdout (PG_BACKEND_VERSIONSTR cfg) []])
    | mode =>
        if root_check_exempt argv then role_run cfg host mode argv
        else if privilege_violation cfg host
             then (Exit 1, [EvCheckRoot; EvStderr msg args])
             else ((role_run cfg host mode argv).1,
                   EvCheckRoot :: (role_run cfg host mode argv).2)
    end.
Proof.
  destruct (check_root_run cfg host (host_get_progname host (arg argv 0)))
    as (msg & args & Hchk).
  exists msg, args. unfold after_startup, mode_behaviour, role_run.
  destruct (classify cfg argv) eqn:Hmode.
  1: by rewrite bind_run, help_run.
  1: reflexivity.
  all: rewrite bind_run; destruct (root_check_exempt argv);
    cbn [negb when];
    [ reflexivity | rewrite Hchk ];
    (destruct (privilege_violation cfg host); [reflexivity|]);
    cbv beta iota;
    rewrite (Framed_run _ (log _ _) (Framed_role_entry cfg host _ _ _));
    by destruct (role_entry cfg host _ _ _ (start ∅)) as [[[]|?] ?].
Qed.

Lemma role_run_eq (mode : ExecutionMode) (argv : list string) :
  role_run cfg host mode argv =
  let argc := length argv in
  let sig := signals_events cfg in
  match mode with
  | ShowHelp | ShowVersion => (Abort, [])
  | ForkedWorker =>
      if host_driver_returns host (SubPostmasterMain argc argv)
      then (entered host (PostmasterMain argc argv),
            [EvDriver (SubPostmasterMain argc argv)] ++ sig ++
            [EvDriver (PostmasterMain argc argv)])
      else (Running (SubPostmasterMain argc argv),
            [EvDriver (SubPostmasterMain argc argv)])
  | BootstrapLoad =>
      (entered host (AuxiliaryProcessMain argc argv),
       sig ++ [EvDriver (AuxiliaryProcessMain argc argv)])
  | DescribeConfig =>
      (entered host GucInfoMain, sig ++ [EvDriver GucInfoMain])
  | SingleSession =>
      match host_user_name host with
      | UserName u =>
          (entered host (PostgresMain argc argv None (Some u)),
           sig ++ [EvDriver (PostgresMain argc argv None (Some u))])
      | UserNameExit status => (Exit status, sig)
      end
  | Supervisor =>
      (entered host (PostmasterMain argc argv),
       sig ++ [EvDriver (PostmasterMain argc argv)])
  end.
Proof.
  unfold role_run, role_entry, signals_events, entered,
    get_user_name_or_exit.
  cbv zeta. rewrite ?bind_run.
  destruct mode, (WIN32 cfg); try reflexivity;
    cbn [when]; unfold extern, emit, mret, M_ret; cbv beta iota;
    rewrite ?bind_run;
    try (destruct (host_user_name host); unfold exit, terminate;
         cbv beta iota; [|reflexivity]);
    rewrite ?bind_run, ?call_driver_run;
    repeat (match goal with
            | |- context [host_driver_returns host ?d] =>
                destruct (host_driver_returns host d)
            end;
            cbv beta iota; rewrite ?bind_run, ?call_driver_run);
    try reflexivity.
Qed.

End Run.

(** ** Classification *)

Section Classification.

Context (cfg : BuildConfig).

Lemma first_arg_test (argv : list string) (t : string) :
  (1 <? length argv)%nat && (strcmp (arg argv 1) t =? 0) = true ↔
  argv !! 1%nat = Some t.
Proof.
  rewrite strcmp_eqb.
  destruct argv as [|a0 [|a1 rest]]; simpl; [done | done |].
  change (arg (a0 :: a1 :: rest) 1) with a1.
  destruct (String.eqb_spec a1 t); split; intros H; congruence.
Qed.

Lemma fork_prefix_neq (r t : string) :
  t ∈ mode_tokens → "--fork" +:+ r ≠ t.
Proof.
  unfold mode_tokens. rewrite !elem_of_cons.
  intros H E.
  repeat (destruct H as [->|H]; [compute in E; discriminate E|]).
  by apply elem_of_nil in H.
Qed.

Lemma classify_token_table (argv : list string) :
  token_table cfg (argv !! 1%nat) (classify cfg argv).
Proof.
  unfold classify.
  destruct argv as [|a0 [|a1 rest]].
  1, 2: destruct (EXEC_BACKEND cfg); simpl; split; intros; done.
  change (arg (a0 :: a1 :: rest) 1) with a1.
  change (1 <? length (a0 :: a1 :: rest))%nat with true.
  change ((a0 :: a1 :: rest) !! 1%nat) with (Some a1).
  rewrite !strcmp_eqb. cbn [andb].
  destruct (String.eqb_spec a1 "--help") as [->|H1]; [by left|].
  destruct (String.eqb_spec a1 "-?") as [->|H2]; [by right|].
  destruct (String.eqb_spec a1 "--version") as [->|H3]; [by left|].
  destruct (String.eqb_spec a1 "-V") as [->|H4]; [by right|].
  cbn [orb].
  destruct (EXEC_BACKEND cfg) eqn:Hexec; cbn [andb].
  - destruct (strncmp a1 "--fork" 6 =? 0) eqn:Hfork.
    { apply fork_test in Hfork as [r ->]. split; [done|]. by exists r. }
    destruct (String.eqb_spec a1 "--boot") as [->|H5]; [done|].
    destruct (String.eqb_spec a1 "--describe-config") as [->|H6]; [done|].
    destruct (String.eqb_spec a1 "--single") as [->|H7]; [done|].
    split.
    + unfold mode_tokens. intros t Ht [= ->]. rewrite !elem_of_cons in Ht.
      repeat (destruct Ht as [->|Ht]; [done|]). by apply elem_of_nil in Ht.
    + intros _ r [= ->].
      assert ((strncmp ("--fork" +:+ r) "--fork" 6 =? 0) = true) as Hf
        by (apply fork_test; by exists r).
      congruence.
  - destruct (String.eqb_spec a1 "--boot") as [->|H5]; [done|].
    destruct (String.eqb_spec a1 "--describe-config") as [->|H6]; [done|].
    destruct (String.eqb_spec a1 "--single") as [->|H7]; [done|].
    split; [|intros E; congruence].
    unfold mode_tokens. intros t Ht [= ->]. rewrite !elem_of_cons in Ht.
    repeat (destruct Ht as [->|Ht]; [done|]). by apply elem_of_nil in Ht.
Qed.

(** No first argument stands for two modes. *)
Lemma token_table_functional (o : option string) (m1 m2 : ExecutionMode) :
  token_table cfg o m1 → token_table cfg o m2 → m1 = m2.
Proof.
  assert (Htok : ∀ t, t ∈ mode_tokens →
            (∀ t', t' ∈ mode_tokens → o ≠ Some t') → o = Some t → False)
    by (intros t Ht Hno E; exact (Hno t Ht E)).
  assert (Hfk : ∀ r t, t ∈ mode_tokens →
            o = Some ("--fork" +:+ r) → o = Some t → False).
  { intros r t Ht -> [= E]. exact (fork_prefix_neq r t Ht E). }
  assert (Hin : ∀ t, bool_decide (t ∈ mode_tokens) = true → t ∈ mode_tokens)
    by (intros t; apply bool_decide_eq_true_1).
  destruct m1, m2; simpl; try done;
    intros H1 H2;
    repeat match goal with
           | H : _ ∨ _ |- _ => destruct H
           | H : _ ∧ _ |- _ => destruct H
           | H : ∃ _, _ |- _ => destruct H
           end;
    try congruence;
    try (exfalso;
         match goal with
         | Hno : ∀ t', t' ∈ mode_tokens → o ≠ Some t', E : o = Some ?t |- _ =>
             apply (Htok t); [apply Hin; reflexivity | exact Hno | exact E]
         end);
    try (exfalso;
         match goal with
         | E1 : o = Some ("--fork" +:+ ?r), E2 : o = Some ?t |- _ =>
             apply (Hfk r t); [apply Hin; reflexivity | exact E1 | exact E2]
         end);
    try (exfalso;
         match goal with
         | H : EXEC_BACKEND cfg = true → _, E : EXEC_BACKEND cfg = true |- _ =>
             eapply (H E); eassumption
         end).
Qed.

Lemma root_check_exempt_spec (argv : list string) :
  root_check_exempt argv = true ↔
  argv !! 1%nat = Some "--describe-config" ∨
  (argv !! 1%nat = Some "-C" ∧ (2 < length argv)%nat).
Proof.
  unfold root_check_exempt. rewrite andb_orb_distrib_r.
  rewrite orb_true_iff, first_arg_test.
  rewrite (andb_comm (2 <? _)%nat), andb_assoc, andb_true_iff.
  by rewrite first_arg_test, Nat.ltb_lt.
Qed.

End Classification.

(** ** Reading the trace of a run *)

Section TraceFacts.

Context (cfg : BuildConfig) (host : Host).

Lemma not_in_class (f : Event → bool) (e : Event) (t : list Event) :
  Forall (λ e, f e = true) t → f e = false → e ∉ t.
Proof.
  intros Hall Hf Hin. rewrite Forall_forall in Hall.
  specialize (Hall e Hin). congruence.
Qed.

Lemma drivers_called_app (t1 t2 : list Event) :
  drivers_called (t1 ++ t2) = drivers_called t1 ++ drivers_called t2.
Proof. apply omap_app. Qed.

Lemma stdout_of_app (t1 t2 : list Event) :
  stdout_of (t1 ++ t2) = stdout_of t1 ++ stdout_of t2.
Proof. apply filter_app. Qed.

Lemma drivers_called_none (t : list Event) :
  Forall (λ e, is_driver e = false) t → drivers_called t = [].
Proof.
  induction 1 as [|e t He _ IH]; [done|].
  destruct e; simpl in He; try discriminate He; exact IH.
Qed.

Lemma stdout_of_none (t : list Event) :
  Forall (λ e, is_stdout e = false) t → stdout_of t = [].
Proof.
  induction 1 as [|e t He _ IH]; [done|].
  unfold stdout_of in *. rewrite filter_cons, IH.
  destruct (decide (is_stdout e)) as [Hd|]; [|done].
  rewrite He in Hd. done.
Qed.

Lemma stdout_of_all (t : list Event) :
  Forall (λ e, is_stdout e = true) t → stdout_of t = t.
Proof.
  induction 1 as [|e t He _ IH]; [done|].
  unfold stdout_of in *. rewrite filter_cons, IH.
  destruct (decide (is_stdout e)) as [|Hd]; [done|].
  rewrite He in Hd. by destruct Hd.
Qed.

Lemma class_impl (f g : Event → bool) (t : list Event) :
  (∀ e, f e = true → g e = true) →
  Forall (λ e, f e = true) t → Forall (λ e, g e = true) t.
Proof. intros Hfg Hall. eapply Forall_impl; [exact Hall | exact Hfg]. Qed.

Lemma class_excl (f g : Event → bool) (t : list Event) :
  (∀ e, f e = true → g e = false) →
  Forall (λ e, f e = true) t → Forall (λ e, g e = false) t.
Proof. intros Hfg Hall. eapply Forall_impl; [exact Hall | exact Hfg]. Qed.

Lemma early_facts (t : list Event) :
  Forall (λ e, is_early_event e = true) t →
  (EvCheckRoot ∉ t) ∧ (EvCall "check_strxfrm_bug" ∉ t) ∧
  (EvUnsetenv "LC_ALL" ∉ t) ∧
  drivers_called t = [] ∧ stdout_of t = [] ∧
  (∀ c l res, EvSetlocale c l res ∈ t → pinned c = true → l = "C").
Proof.
  intros Hall. repeat split.
  - by eapply not_in_class.
  - by eapply not_in_class.
  - by eapply not_in_class.
  - apply drivers_called_none. eapply class_excl; [|exact Hall].
    intros e. destruct e; simpl; try done.
  - apply stdout_of_none. eapply class_excl; [|exact Hall].
    intros e. destruct e; simpl; try done.
  - intros c l res Hin Hpin. rewrite Forall_forall in Hall.
    specialize (Hall _ Hin). unfold is_early_event in Hall. simpl in Hall.
    rewrite Hpin in Hall. simpl in Hall. by apply String.eqb_eq.
Qed.

Lemma late_facts (t : list Event) :
  Forall (λ e, is_late_event e = true) t →
  (EvCall "check_strxfrm_bug" ∉ t) ∧ (EvUnsetenv "LC_ALL" ∉ t) ∧
  (∀ c l res, EvSetlocale c l res ∉ t).
Proof.
  intros Hall. repeat split; try intros c l res; by eapply not_in_class.
Qed.

Lemma role_run_events (mode : ExecutionMode) (argv : list string) :
  Forall (λ e, is_role_event e = true) (role_run cfg host mode argv).2.
Proof.
  rewrite role_run_eq. unfold signals_events. cbv zeta.
  destruct mode, (WIN32 cfg);
    repeat match goal with
           | |- context [if ?b then _ else _] => destruct b
           | |- context [match host_user_name host with _ => _ end] =>
               destruct (host_user_name host)
           end;
    simpl; by repeat constructor.
Qed.

Lemma role_run_late (mode : ExecutionMode) (argv : list string) :
  Forall (λ e, is_late_event e = true) (role_run cfg host mode argv).2.
Proof.
  eapply class_impl; [|apply role_run_events]. by intros [].
Qed.

Lemma after_startup_late (argv : list string) :
  Forall (λ e, is_late_event e = true) (after_startup cfg host argv).2.
Proof.
  destruct (after_startup_eq cfg host argv) as (msg & args & ->).
  pose proof (usage_document_stdout cfg host
                (host_get_progname host (arg argv 0))) as Husage.
  assert (Hrole := λ m, role_run_late m argv).
  destruct (classify cfg argv);
    [ simpl; eapply class_impl; [|exact Husage]; by intros []
    | simpl; by repeat constructor | ..];
    (destruct (root_check_exempt argv); [apply Hrole|]);
    (destruct (privilege_violation cfg host);
     [simpl; by repeat constructor|]);
    simpl; (constructor; [done | apply Hrole]).
Qed.

Lemma early_failure_facts (r : Outcome * World) :
  early_failure r →
  ¬ startup_completed (trace_of r) ∧ ¬ privilege_checked (trace_of r) ∧
  drivers_called (trace_of r) = [] ∧ stdout_of (trace_of r) = [] ∧
  (∀ c l res, EvSetlocale c l res ∈ trace_of r → pinned c = true → l = "C").
Proof.
  intros [_ Hall]. apply early_facts in Hall.
  unfold startup_completed, privilege_checked. tauto.
Qed.

(** The trace of a run that came through the locale set-up. *)
Lemma startup_done_facts (argv : list string) (r : Outcome * World) :
  startup_done cfg r (after_startup cfg host argv) →
  let rest := (after_startup cfg host argv).2 in
  startup_completed (trace_of r) ∧
  (privilege_checked (trace_of r) ↔ EvCheckRoot ∈ rest) ∧
  drivers_called (trace_of r) = drivers_called rest ∧
  stdout_of (trace_of r) = stdout_of rest ∧
  (∀ c l res, EvSetlocale c l res ∈ trace_of r → pinned c = true → l = "C") ∧
  ∃ pre, trace_of r =
           pre ++ [EvUnsetenv "LC_ALL"; EvCall "check_strxfrm_bug"] ++ rest ∧
         Forall (λ e, is_early_event e = true) pre ∧
         (∀ c, c ∈ categories cfg → ∃ l res, EvSetlocale c l (Some res) ∈ pre).
Proof.
  intros (pre1 & pre2 & Htr & H1 & H2 & Hcat & _ & _). cbv zeta.
  set (rest := (after_startup cfg host argv).2) in *.
  assert (Hpre : Forall (λ e, is_early_event e = true) (pre1 ++ pre2)).
  { apply Forall_app. split.
    - eapply class_impl; [|exact H1]. intros e He.
      unfold is_early_event. by rewrite He.
    - eapply class_impl; [|exact H2]. intros e He.
      unfold is_early_event. rewrite He. apply orb_true_r. }
  assert (Ht : trace_of r =
               (pre1 ++ pre2) ++
               [EvUnsetenv "LC_ALL"; EvCall "check_strxfrm_bug"] ++ rest)
    by (by rewrite Htr, <- app_assoc).
  assert (Hpre2 : ∀ c, c ∈ categories cfg →
                       ∃ l res, EvSetlocale c l (Some res) ∈ pre1 ++ pre2).
  { intros c Hc'. destruct (Hcat c Hc') as (_ & l & res & Hin).
    exists l, res. apply elem_of_app. by right. }
  destruct (early_facts _ Hpre) as (Hc & Hm & Hu & Hd & Hs & Hp).
  destruct (late_facts _ (after_startup_late argv)) as (Lm & Lu & Ll).
  fold rest in Lm, Lu, Ll.
  unfold startup_completed, privilege_checked. rewrite Ht.
  clear Htr Ht H1 H2 Hcat.
  generalize dependent (pre1 ++ pre2). intros pre Hpre Hpre2 Hc Hm Hu Hd Hs Hp.
  repeat split.
  - rewrite !elem_of_app, !elem_of_cons. auto.
  - rewrite !elem_of_app, !elem_of_cons, elem_of_nil.
    intros [?|[[?|[?|?]]|?]]; done.
  - intros H. rewrite !elem_of_app. auto.
  - by rewrite !drivers_called_app, Hd.
  - by rewrite !stdout_of_app, Hs.
  - intros c l res. rewrite !elem_of_app, !elem_of_cons, elem_of_nil.
    intros [Hin|[[?|[?|?]]|Hin]] Hpin; try done.
    + by eapply Hp.
    + by apply Ll in Hin.
  - by exists pre.
Qed.

Lemma classify_iff (argv : list string) (mode : ExecutionMode) :
  classify cfg argv = mode ↔ token_table cfg (argv !! 1%nat) mode.
Proof.
  split.
  - intros <-. apply classify_token_table.
  - intros H. symmetry.
    eapply token_table_functional; [exact H | apply classify_token_table].
Qed.

(** The guard runs exactly in the modes that enter a role, unless the
    argument vector is exempt. *)
Lemma check_in_rest (argv : list string) :
  EvCheckRoot ∈ (after_startup cfg host argv).2 ↔
  classify cfg argv ≠ ShowHelp ∧ classify cfg argv ≠ ShowVersion ∧
  root_check_exempt argv = false.
Proof.
  destruct (after_startup_eq cfg host argv) as (msg & args & ->).
  pose proof (usage_document_stdout cfg host
                (host_get_progname host (arg argv 0))) as Husage.
  assert (Hrole : ∀ m, EvCheckRoot ∉ (role_run cfg host m argv).2)
    by (intros m; eapply not_in_class; [apply role_run_events | done]).
  destruct (classify cfg argv).
  1: { split; [|tauto]. intros Hin. exfalso. revert Hin.
       by eapply not_in_class. }
  1: { split; [|tauto]. simpl. rewrite list_elem_of_singleton. done. }
  all: destruct (root_check_exempt argv);
    [ split; [intros Hin; by apply Hrole in Hin | by intros (_ & _ & ?)] |];
    (split; [done|]); intros _;
    destruct (privilege_violation cfg host); simpl; apply elem_of_cons;
    by left.
Qed.

Lemma privilege_checked_iff (argv : list string) (env : gmap string string) :
  privilege_checked (trace_of (run cfg host argv env)) ↔
  startup_completed (trace_of (run cfg host argv env)) ∧
  (∀ tok, tok ∈ ["--help"; "-?"; "--version"; "-V"; "--describe-config"] →
          argv !! 1%nat ≠ Some tok) ∧
  ¬ (argv !! 1%nat = Some "-C" ∧ (2 < length argv)%nat).
Proof.
  destruct (run_cases cfg host argv env) as [Hearly|Hdone].
  - apply early_failure_facts in Hearly as (Hnc & Hnp & _). tauto.
  - apply startup_done_facts in Hdone as (Hc & Hp & _).
    rewrite Hp, check_in_rest, !classify_iff.
    pose proof (root_check_exempt_spec argv) as Hex.
    split.
    + intros (Hh & Hv & Hx). split; [done|].
      rewrite Hx in Hex. split.
      * intros tok Htok E. rewrite !elem_of_cons, elem_of_nil in Htok.
        simpl in Hh, Hv.
        destruct Htok as [->|[->|[->|[->|[->|[]]]]]];
          [tauto | tauto | tauto | tauto |].
        destruct Hex as [_ Hex]. by specialize (Hex (or_introl E)).
      * intros HC. destruct Hex as [_ Hex]. by specialize (Hex (or_intror HC)).
    + intros (_ & Htok & HC). simpl.
      assert (Hin : ∀ t, bool_decide
                (t ∈ ["--help"; "-?"; "--version"; "-V"; "--describe-config"])
                = true → argv !! 1%nat ≠ Some t)
        by (intros t Ht; apply Htok; by apply bool_decide_eq_true in Ht).
      repeat split.
      * intros [E|E]; revert E; by apply Hin.
      * intros [E|E]; revert E; by apply Hin.
      * destruct (root_check_exempt argv); [|done].
        destruct Hex as [Hex _]. destruct (Hex eq_refl) as [E|E]; [|done].
        exfalso. revert E. by apply Hin.
Qed.

Lemma drivers_called_signals :
  drivers_called (signals_events cfg) = [].
Proof. unfold signals_events. by destruct (WIN32 cfg). Qed.

(** Past the guard, the run is the role's. *)
Lemma after_startup_role (argv : list string) :
  classify cfg argv ≠ ShowHelp → classify cfg argv ≠ ShowVersion →
  root_check_exempt argv = true ∨ privilege_violation cfg host = false →
  (after_startup cfg host argv).1 =
    (role_run cfg host (classify cfg argv) argv).1 ∧
  drivers_called (after_startup cfg host argv).2 =
    drivers_called (role_run cfg host (classify cfg argv) argv).2.
Proof.
  intros Hh Hv Hpass.
  destruct (after_startup_eq cfg host argv) as (msg & args & ->).
  destruct (classify cfg argv); try done;
    (destruct (root_check_exempt argv); [done|]);
    (destruct Hpass as [?| ->]; done).
Qed.

(** A refused invocation ends with status 1 and enters no role. *)
Lemma after_startup_refused (argv : list string) :
  EvCheckRoot ∈ (after_startup cfg host argv).2 →
  privilege_violation cfg host = true →
  (after_startup cfg host argv).1 = Exit 1 ∧
  drivers_called (after_startup cfg host argv).2 = [].
Proof.
  intros (Hh & Hv & Hx)%check_in_rest Hviol.
  destruct (after_startup_eq cfg host argv) as (msg & args & ->).
  rewrite Hx, Hviol. by destruct (classify cfg argv).
Qed.

Lemma after_startup_help (argv : list string) :
  argv !! 1%nat = Some "--help" ∨ argv !! 1%nat = Some "-?" →
  after_startup cfg host argv =
  (Exit 0, usage_document cfg host (host_get_progname host (arg argv 0))).
Proof.
  intros H. assert (classify cfg argv = ShowHelp) as Hm
    by (by apply classify_iff).
  destruct (after_startup_eq cfg host argv) as (msg & args & ->).
  by rewrite Hm.
Qed.

Lemma after_startup_version (argv : list string) :
  argv !! 1%nat = Some "--version" ∨ argv !! 1%nat = Some "-V" →
  after_startup cfg host argv =
  (Exit 0, [EvStdout (PG_BACKEND_VERSIONSTR cfg) []]).
Proof.
  intros H. assert (classify cfg argv = ShowVersion) as Hm
    by (by apply classify_iff).
  destruct (after_startup_eq cfg host argv) as (msg & args & ->).
  by rewrite Hm.
Qed.

Lemma startup_done_outcome (argv : list string) (r : Outcome * World) :
  startup_done cfg r (after_startup cfg host argv) →
  outcome_of r = (after_startup cfg host argv).1 ∧
  environ_of r !! "LC_ALL" = None ∧
  ∀ c, c ∈ categories cfg → is_Some (environ_of r !! category_envvar c).
Proof.
  intros (pre1 & pre2 & _ & _ & _ & Hcat & Hall & Hout).
  split; [done|]. split; [done|]. intros c Hc. by apply Hcat.
Qed.

(** A run is an early failure or came through the locale set-up,
    according to the marker in its trace. *)
Lemma run_completed (argv : list string) (env : gmap string string) :
  startup_completed (trace_of (run cfg host argv env)) →
  startup_done cfg (run cfg host argv env) (after_startup cfg host argv).
Proof.
  intros Hc. destruct (run_cases cfg host argv env) as [Hearly|Hdone];
    [|done].
  by apply early_failure_facts in Hearly as (Hnc & _).
Qed.

Lemma main_locale_total_failure (argv : list string) (w : World) :
  (∀ n e c l, host_setlocale host n e c l = None) →
  ∃ l w', main_locale cfg host argv w =
          (Terminated (ElogFatal init_locale_diagnostic
                                 [ArgStr l; ArgStr "LC_COLLATE"]), w').
Proof.
  intros Hnone. unfold main_locale. rewrite bind_run. simpl.
  destruct (WIN32 cfg).
  - rewrite !bind_run. simpl.
    destruct (environ w !! "LC_COLLATE") as [l|];
      rewrite bind_run, init_locale_run, !Hnone; eauto.
  - rewrite !bind_run, init_locale_run, !Hnone. eauto.
Qed.

Lemma after_startup_not_fatal (argv : list string) fmt args :
  (after_startup cfg host argv).1 ≠ ElogFatal fmt args.
Proof.
  destruct (after_startup_eq cfg host argv) as (msg & args' & ->).
  assert (Hrole : ∀ m, (role_run cfg host m argv).1 ≠ ElogFatal fmt args).
  { intros m. rewrite role_run_eq. unfold entered. cbv zeta.
    destruct m;
      repeat match goal with
             | |- context [if ?b then _ else _] => destruct b
             | |- context [match host_user_name host with _ => _ end] =>
                 destruct (host_user_name host)
             end; done. }
  destruct (classify cfg argv); try done;
    (destruct (root_check_exempt argv); [apply Hrole|]);
    (destruct (privilege_violation cfg host); [done | apply Hrole]).
Qed.

(** When the C library adopts no locale at all, the run ends in the
    fatal error of the first category, whatever the arguments are. *)
Lemma total_locale_failure (argv : list string) (env : gmap string string) :
  (∀ n e c l, host_setlocale host n e c l = None) →
  (WIN32 cfg = true → host_WSAStartup host = 0) →
  (∃ l, outcome_of (run cfg host argv env) =
        ElogFatal init_locale_diagnostic [ArgStr l; ArgStr "LC_COLLATE"]) ∧
  ¬ startup_completed (trace_of (run cfg host argv env)).
Proof.
  intros Hnone Hwsa.
  assert (Hout : ∃ l, outcome_of (run cfg host argv env) =
            ElogFatal init_locale_diagnostic [ArgStr l; ArgStr "LC_COLLATE"]).
  { unfold run, main. rewrite bind_run.
    destruct (main_startup_run cfg host argv (start env))
      as (evs1 & _ & [Hs|(_ & Hw & Hne)]); [|by apply Hwsa in Hw].
    rewrite Hs, bind_run.
    destruct (main_locale_total_failure argv (log evs1 (start env)) Hnone)
      as (l & w' & ->).
    by exists l. }
  split; [done|]. intros Hdone%run_completed.
  destruct (startup_done_outcome _ _ Hdone) as (Hout' & _).
  destruct Hout as (l & Hout). rewrite Hout in Hout'.
  symmetry in Hout'. by apply after_startup_not_fatal in Hout'.
Qed.

(** The drivers a role calls. *)
Lemma role_run_drivers (mode : ExecutionMode) (argv : list string) :
  drivers_called (role_run cfg host mode argv).2 =
  match entry_point host mode argv with
  | None => []
  | Some d =>
      match mode with
      | ForkedWorker =>
          if host_driver_returns host d
          then [d; PostmasterMain (length argv) argv] else [d]
      | _ => [d]
      end
  end.
Proof.
  rewrite role_run_eq. cbv zeta. unfold entry_point.
  destruct mode; try done;
    repeat match goal with
           | |- context [if ?b then _ else _] => destruct b
           | |- context [match host_user_name host with _ => _ end] =>
               destruct (host_user_name host)
           end;
    cbn [snd]; rewrite ?drivers_called_app, ?drivers_called_signals;
    try reflexivity.
Qed.

(** How a role ends. *)
Lemma role_run_outcome (mode : ExecutionMode) (argv : list string)
    (d : DriverCall) :
  entry_point host mode argv = Some d →
  (role_run cfg host mode argv).1 =
  match mode with
  | ForkedWorker =>
      if host_driver_returns host d
      then entered host (PostmasterMain (length argv) argv)
      else Running d
  | _ => entered host d
  end.
Proof.
  rewrite role_run_eq. cbv zeta. unfold entry_point.
  destruct mode; try done;
    try (destruct (host_user_name host); [|done]);
    intros [= <-]; try reflexivity.
  by destruct (host_driver_returns host _).
Qed.

End TraceFacts.

(** * The claims *)

Section Claims.

Context (cfg : BuildConfig) (host : Host).

(** C1, as amended. The privilege check is skipped for the two read-only
    forms, both recognised in [argv[1]] only: control enters check_root
    exactly when the locale set-up came through, the first argument is
    none of --help, -?, --version, -V (which exit before the check) and
    --describe-config, and the invocation is not [-C] as first argument
    with a further argument after it. The user ids play no part. *)
Theorem root_check_bypass (argv : list string) (env : gmap string string) :
  privilege_checked (trace_of (run cfg host argv env)) ↔
  startup_completed (trace_of (run cfg host argv env)) ∧
  (∀ tok, tok ∈ ["--help"; "-?"; "--version"; "-V"; "--describe-config"] →
          argv !! 1%nat ≠ Some tok) ∧
  ¬ (argv !! 1%nat = Some "-C" ∧ (2 < length argv)%nat).
Proof. apply privilege_checked_iff. Qed.

(** C2. The mode depends on [argv[1]] alone; it is the one mode the token
    table gives for that argument (so exactly one mode is selected, by a
    total function); an absent first argument and a first argument that
    is no token and has no "--fork" prefix give Supervisor; and [main]
    does, after the locale set-up, what the selected mode prescribes. *)
Theorem mode_classification (argv : list string) :
  (∀ argv', argv' !! 1%nat = argv !! 1%nat →
            classify cfg argv' = classify cfg argv) ∧
  token_table cfg (argv !! 1%nat) (classify cfg argv) ∧
  (∀ mode, token_table cfg (argv !! 1%nat) mode →
           mode = classify cfg argv) ∧
  (argv !! 1%nat = None → classify cfg argv = Supervisor) ∧
  (∀ s, argv !! 1%nat = Some s → s ∉ mode_tokens →
        (∀ r, s ≠ "--fork" +:+ r) → classify cfg argv = Supervisor) ∧
  (∀ w, main cfg host argv w =
        (progname ← main_startup cfg host argv;
         main_locale cfg host argv;;
         mode_behaviour cfg host (classify cfg argv) progname argv) w).
Proof.
  repeat split.
  - intros argv' H. apply classify_iff. rewrite H.
    apply classify_token_table.
  - apply classify_token_table.
  - intros mode H. symmetry. by apply classify_iff.
  - intros H. apply classify_iff. rewrite H. simpl. by split.
  - intros s H Hs Hf. apply classify_iff. rewrite H. simpl. split.
    + intros t Ht [= ->]. done.
    + intros _ r [= ->]. by apply (Hf r).
  - intros w. unfold main. rewrite !bind_run.
    destruct (main_startup cfg host argv w) as [[p|o] w1]; [|done].
    rewrite !bind_run.
    destruct (main_locale cfg host argv w1) as [[[]|o] w2]; [|done].
    apply main_rest_by_mode.
Qed.


(** C4. With no first argument or with --boot or --single, control
    enters check_root once the locale set-up has come through; whenever
    control enters check_root and the effective user is the superuser or
    the real and effective user ids differ (on WIN32: the user has
    administrative permissions), the process exits with status 1 and no
    role driver has been called; so with such a first argument and such
    an identity every run ends with exit status 1 before any dispatch. *)
Theorem privilege_guard (argv : list string) (env : gmap string string) :
  (startup_completed (trace_of (run cfg host argv env)) →
   argv !! 1%nat = None ∨ argv !! 1%nat = Some "--boot" ∨
   argv !! 1%nat = Some "--single" →
   privilege_checked (trace_of (run cfg host argv env))) ∧
  (privilege_checked (trace_of (run cfg host argv env)) →
   (if WIN32 cfg then host_pgwin32_is_admin host = true
    else host_geteuid host = 0 ∨ host_getuid host ≠ host_geteuid host) →
   outcome_of (run cfg host argv env) = Exit 1 ∧
   drivers_called (trace_of (run cfg host argv env)) = []) ∧
  (argv !! 1%nat = None ∨ argv !! 1%nat = Some "--boot" ∨
   argv !! 1%nat = Some "--single" →
   (if WIN32 cfg then host_pgwin32_is_admin host = true
    else host_geteuid host = 0 ∨ host_getuid host ≠ host_geteuid host) →
   exit_status (outcome_of (run cfg host argv env)) = Some 1 ∧
   drivers_called (trace_of (run cfg host argv env)) = []).
Proof.
  assert (Hrun : startup_completed (trace_of (run cfg host argv env)) →
            argv !! 1%nat = None ∨ argv !! 1%nat = Some "--boot" ∨
            argv !! 1%nat = Some "--single" →
            privilege_checked (trace_of (run cfg host argv env))).
  { intros Hc H. apply privilege_checked_iff. split; [done|]. split.
    + intros tok Htok E. rewrite !elem_of_cons, elem_of_nil in Htok.
      destruct H as [H|[H|H]]; rewrite H in E; [done|..];
        injection E as <-; repeat (destruct Htok as [?|Htok]; [done|]);
        done.
    + intros [E _]. destruct H as [H|[H|H]]; rewrite H in E; done. }
  assert (Hrefuse : privilege_checked (trace_of (run cfg host argv env)) →
            (if WIN32 cfg then host_pgwin32_is_admin host = true
             else host_geteuid host = 0 ∨
                  host_getuid host ≠ host_geteuid host) →
            outcome_of (run cfg host argv env) = Exit 1 ∧
            drivers_called (trace_of (run cfg host argv env)) = []).
  { intros Hchk Hid.
    assert (Hviol : privilege_violation cfg host = true).
    { unfold privilege_violation. destruct (WIN32 cfg); [done|].
      destruct Hid as [->|Hne]; [done|].
      apply orb_true_iff. right. apply negb_true_iff.
      by apply Z.eqb_neq. }
    assert (Hdone := Hchk).
    apply privilege_checked_iff in Hdone as [Hdone%run_completed _].
    destruct (startup_done_outcome _ _ _ _ Hdone) as (Hout & _).
    destruct (startup_done_facts _ _ _ _ Hdone) as (_ & Hp & Hd & _).
    rewrite Hout, Hd. apply after_startup_refused; [|done].
    by apply Hp. }
  split; [done|]. split; [done|].
  intros Harg Hid.
  destruct (run_cases cfg host argv env) as [Hearly|Hdone].
  - split; [|by apply early_failure_facts in Hearly as (_ & _ & ? & _)].
    destruct Hearly as [[->|(fmt & args & ->)] _]; done.
  - apply startup_done_facts in Hdone as (Hc & _).
    destruct (Hrefuse (Hrun Hc Harg) Hid) as [-> ->]. done.
Qed.

(** C5. init_locale first asks for the requested locale; if that is
    refused it asks for "C"; if that is refused too it ends the process
    with the fatal diagnostic that names the rejected locale and the
    category. A successful attempt leaves the category's setting in
    place. Hence, once the locale set-up of [main] has come through,
    every category the build knows has a setting. *)
Theorem locale_negotiation :
  (∀ (name : string) (c : LocaleCategory) (l : string) (w : World),
     init_locale host name c l w =
     match host_setlocale host (setlocale_calls w) (environ w) c l with
     | Some r =>
         (Continue tt,
          {| environ := <[category_envvar c := r]> (environ w);
             setlocale_calls := S (setlocale_calls w);
             trace := trace w ++ [EvSetlocale c l (Some r)] |})
     | None =>
         match host_setlocale host (S (setlocale_calls w)) (environ w)
                 c "C" with
         | Some r =>
             (Continue tt,
              {| environ := <[category_envvar c := r]> (environ w);
                 setlocale_calls := S (S (setlocale_calls w));
                 trace := trace w ++ [EvSetlocale c l None;
                                      EvSetlocale c "C" (Some r)] |})
         | None =>
             (Terminated (ElogFatal init_locale_diagnostic
                                    [ArgStr l; ArgStr name]),
              {| environ := environ w;
                 setlocale_calls := S (S (setlocale_calls w));
                 trace := trace w ++ [EvSetlocale c l None;
                                      EvSetlocale c "C" None] |})
         end
     end) ∧
  (∀ (argv : list string) (env : gmap string string),
     startup_completed (trace_of (run cfg host argv env)) →
     ∀ c, c ∈ categories cfg →
          is_Some (environ_of (run cfg host argv env) !! category_envvar c) ∧
          ∃ l r, EvSetlocale c l (Some r) ∈ trace_of (run cfg host argv env)).
Proof.
  split; [apply init_locale_run|].
  intros argv env Hdone%run_completed c Hc.
  destruct (startup_done_outcome _ _ _ _ Hdone) as (_ & _ & Hcat).
  split; [by apply Hcat|].
  destruct (startup_done_facts _ _ _ _ Hdone)
    as (_ & _ & _ & _ & _ & pre & -> & _ & Hpre).
  destruct (Hpre c Hc) as (l & r & Hin). exists l, r.
  apply elem_of_app. by left.
Qed.

(** C6. Whatever the environment is, the only locale ever requested for
    the monetary, numeric and time categories is "C"; and once the
    categories are through, LC_ALL is removed from the environment: the
    unsetenv follows the last setlocale call, each of the three
    categories has been adopted with "C" before it, and LC_ALL is unset
    in the final environment. *)
Theorem pinned_categories (argv : list string) (env : gmap string string) :
  (∀ c l res, EvSetlocale c l res ∈ trace_of (run cfg host argv env) →
              pinned c = true → l = "C") ∧
  (startup_completed (trace_of (run cfg host argv env)) →
   environ_of (run cfg host argv env) !! "LC_ALL" = None ∧
   ∃ pre post,
     trace_of (run cfg host argv env) = pre ++ EvUnsetenv "LC_ALL" :: post ∧
     (∀ c l res, EvSetlocale c l res ∉ post) ∧
     ∀ c, pinned c = true → ∃ res, EvSetlocale c "C" (Some res) ∈ pre).
Proof.
  split.
  - destruct (run_cases cfg host argv env) as [Hearly|Hdone].
    + by apply early_failure_facts in Hearly as (_ & _ & _ & _ & H).
    + by apply startup_done_facts in Hdone as (_ & _ & _ & _ & H & _).
  - intros Hdone%run_completed.
    destruct (startup_done_outcome _ _ _ _ Hdone) as (_ & Hall & _).
    split; [done|].
    destruct (startup_done_facts _ _ _ _ Hdone)
      as (_ & _ & _ & _ & _ & pre & Htr & Hearly & Hpre).
    exists pre, (EvCall "check_strxfrm_bug" :: (after_startup cfg host argv).2).
    split; [done|]. split.
    + intros c l res [E|Hin]%elem_of_cons; [done|].
      revert Hin. apply late_facts, after_startup_late.
    + intros c Hc.
      assert (Hin : c ∈ categories cfg).
      { unfold categories.
        destruct c, (HAVE_LC_MESSAGES cfg); try done; simpl;
          rewrite !elem_of_cons; auto 10. }
      destruct (Hpre c Hin) as (l & res & Hev).
      apply early_facts in Hearly as (_ & _ & _ & _ & _ & Hp).
      rewrite (Hp _ _ _ Hev Hc) in Hev. by exists res.
Qed.

(** C7, as amended. With --single as first argument, once the locale
    set-up and the privilege guard are passed and the user name is
    found, PostgresMain is called with the whole argument vector, a NULL
    database name and the user name, whether the argument vector names a
    database or not; a database name travels in the argument vector
    only. No other driver is called, and [abort] follows if PostgresMain
    hands control back. *)
Theorem single_session (argv : list string) (env : gmap string string)
    (u : string) :
  argv !! 1%nat = Some "--single" →
  startup_completed (trace_of (run cfg host argv env)) →
  privilege_violation cfg host = false →
  host_user_name host = UserName u →
  drivers_called (trace_of (run cfg host argv env)) =
    [PostgresMain (length argv) argv None (Some u)] ∧
  outcome_of (run cfg host argv env) =
    if host_driver_returns host (PostgresMain (length argv) argv None (Some u))
    then Abort
    else Running (PostgresMain (length argv) argv None (Some u)).
Proof.
  intros Harg Hdone%run_completed Hviol Hu.
  assert (Hm : classify cfg argv = SingleSession) by (by apply classify_iff).
  destruct (startup_done_outcome _ _ _ _ Hdone) as (Hout & _).
  destruct (startup_done_facts _ _ _ _ Hdone) as (_ & _ & Hd & _).
  destruct (after_startup_role cfg host argv) as [Ho Hds];
    [by rewrite Hm | by rewrite Hm | by right |].
  rewrite Hout, Hd, Ho, Hds, Hm, role_run_drivers.
  erewrite role_run_outcome; unfold entry_point; rewrite Hu; done.
Qed.


(** C9. [-C] as first argument with a further argument after it skips
    check_root and is no dispatch token: the supervisor entry
    PostmasterMain is called with the argument vector, and no other
    driver. The configuration reporter GucInfoMain is called exactly when
    the locale set-up has come through and the first argument is
    --describe-config. *)
Theorem dash_C_dispatch (argv : list string) (env : gmap string string) :
  (argv !! 1%nat = Some "-C" → (2 < length argv)%nat →
   startup_completed (trace_of (run cfg host argv env)) →
     ¬ privilege_checked (trace_of (run cfg host argv env)) ∧
     drivers_called (trace_of (run cfg host argv env)) =
       [PostmasterMain (length argv) argv] ∧
     outcome_of (run cfg host argv env) =
       if host_driver_returns host (PostmasterMain (length argv) argv)
       then Abort else Running (PostmasterMain (length argv) argv)) ∧
  (GucInfoMain ∈ drivers_called (trace_of (run cfg host argv env)) ↔
   startup_completed (trace_of (run cfg host argv env)) ∧
   argv !! 1%nat = Some "--describe-config").
Proof.
  split.
  - intros Harg Hlen Hc. assert (Hdone := run_completed _ _ _ _ Hc).
    assert (Hm : classify cfg argv = Supervisor).
    { apply classify_iff. rewrite Harg. simpl. split.
      - intros t Ht [= <-]. unfold mode_tokens in Ht.
        rewrite !elem_of_cons, elem_of_nil in Ht.
        repeat (destruct Ht as [?|Ht]; [done|]). done.
      - by intros _ r [= E]. }
    assert (Hx : root_check_exempt argv = true)
      by (apply root_check_exempt_spec; by right).
    destruct (startup_done_outcome _ _ _ _ Hdone) as (Hout & _).
    destruct (startup_done_facts _ _ _ _ Hdone) as (_ & _ & Hd & _).
    destruct (after_startup_role cfg host argv) as [Ho Hds];
      [by rewrite Hm | by rewrite Hm | by left |].
    split.
    + rewrite privilege_checked_iff. intros (_ & _ & H). by apply H.
    + rewrite Hout, Hd, Ho, Hds, Hm, role_run_drivers.
      by erewrite role_run_outcome.
  - destruct (run_cases cfg host argv env) as [Hearly|Hdone].
    + apply early_failure_facts in Hearly as (Hnc & _ & -> & _).
      split; [by intros ?%elem_of_nil | tauto].
    + destruct (startup_done_facts _ _ _ _ Hdone) as (Hc & _ & -> & _).
      rewrite <- (classify_iff cfg argv DescribeConfig).
      pose proof (root_check_exempt_spec argv) as Hex.
      rewrite <- (classify_iff cfg argv DescribeConfig) in Hex.
      destruct (after_startup_eq cfg host argv) as (msg & args & ->).
      pose proof (usage_document_stdout cfg host
                    (host_get_progname host (arg argv 0))) as Husage.
      pose proof (λ m, role_run_drivers cfg host m argv) as Hrole.
      unfold entry_point in Hrole.
      split.
      * intros Hin. split; [done|]. revert Hin.
        destruct (classify cfg argv) eqn:Hm; try done.
        -- rewrite drivers_called_none; [by intros ?%elem_of_nil|].
           eapply class_excl; [|exact Husage]. by intros [].
        -- by intros ?%elem_of_nil.
        -- destruct (root_check_exempt argv),
             (privilege_violation cfg host); simpl;
             rewrite ?Hrole;
             repeat match goal with
                    | |- context [if ?b then _ else _] => destruct b
                    end;
             rewrite ?elem_of_cons, ?elem_of_nil; intros H; by intuition.
        -- destruct (root_check_exempt argv),
             (privilege_violation cfg host); simpl;
             rewrite ?Hrole;
             rewrite ?elem_of_cons, ?elem_of_nil; intros H; by intuition.
        -- destruct (root_check_exempt argv),
             (privilege_violation cfg host); simpl;
             rewrite ?Hrole; destruct (host_user_name host);
             rewrite ?elem_of_cons, ?elem_of_nil; intros H; by intuition.
        -- destruct (root_check_exempt argv),
             (privilege_violation cfg host); simpl;
             rewrite ?Hrole;
             rewrite ?elem_of_cons, ?elem_of_nil; intros H; by intuition.
      * intros [_ Hm]. rewrite Hm.
        assert (Hx : root_check_exempt argv = true)
          by (apply Hex; by left).
        rewrite Hx, Hrole. by apply list_elem_of_singleton.
Qed.

(** C10. The locale set-up comes before the help and version reports.
    With --help, -?, --version or -V as first argument: if the run got
    past the locale set-up, every category has been adopted and LC_ALL
    unset before the first character is written, and all the output
    follows the call of check_strxfrm_bug; if it did not, nothing is
    written and the process has ended with status 1 or with the fatal
    error; and when the C library adopts no locale at all the run ends
    with the fatal error of LC_COLLATE and writes nothing. *)
Theorem locale_before_reports (argv : list string)
    (env : gmap string string) :
  argv !! 1%nat = Some "--help" ∨ argv !! 1%nat = Some "-?" ∨
  argv !! 1%nat = Some "--version" ∨ argv !! 1%nat = Some "-V" →
  (startup_completed (trace_of (run cfg host argv env)) →
   ∃ pre,
     trace_of (run cfg host argv env) =
       pre ++ [EvUnsetenv "LC_ALL"; EvCall "check_strxfrm_bug"] ++
       stdout_of (trace_of (run cfg host argv env)) ∧
     stdout_of pre = [] ∧
     stdout_of (trace_of (run cfg host argv env)) ≠ [] ∧
     (∀ c, c ∈ categories cfg → ∃ l res, EvSetlocale c l (Some res) ∈ pre) ∧
     environ_of (run cfg host argv env) !! "LC_ALL" = None) ∧
  (¬ startup_completed (trace_of (run cfg host argv env)) →
   stdout_of (trace_of (run cfg host argv env)) = [] ∧
   (outcome_of (run cfg host argv env) = Exit 1 ∨
    ∃ fmt args, outcome_of (run cfg host argv env) = ElogFatal fmt args)) ∧
  ((∀ n e c l, host_setlocale host n e c l = None) →
   (WIN32 cfg = true → host_WSAStartup host = 0) →
   (∃ l, outcome_of (run cfg host argv env) =
         ElogFatal init_locale_diagnostic [ArgStr l; ArgStr "LC_COLLATE"]) ∧
   stdout_of (trace_of (run cfg host argv env)) = []).
Proof.
  intros Harg.
  assert (Hquiet : ¬ startup_completed (trace_of (run cfg host argv env)) →
            stdout_of (trace_of (run cfg host argv env)) = [] ∧
            (outcome_of (run cfg host argv env) = Exit 1 ∨
             ∃ fmt args,
               outcome_of (run cfg host argv env) = ElogFatal fmt args)).
  { intros Hnc. destruct (run_cases cfg host argv env) as [Hearly|Hdone].
    - split; [by apply early_failure_facts in Hearly as (_ & _ & _ & ? & _)|].
      by destruct Hearly as [? _].
    - by apply startup_done_facts in Hdone as (? & _). }
  split; [|split; [done|]].
  - intros Hdone%run_completed.
    destruct (startup_done_outcome _ _ _ _ Hdone) as (_ & Hall & _).
    destruct (startup_done_facts _ _ _ _ Hdone)
      as (_ & _ & _ & Hs & _ & pre & Htr & Hearly & Hpre).
    apply early_facts in Hearly as (_ & _ & _ & _ & Hspre & _).
    exists pre. rewrite Hs.
    assert (Hrest : stdout_of (after_startup cfg host argv).2 =
                    (after_startup cfg host argv).2 ∧
                    (after_startup cfg host argv).2 ≠ []).
    { destruct Harg as [H|[H|[H|H]]].
      - rewrite after_startup_help by tauto. simpl. split.
        + apply stdout_of_all, usage_document_stdout.
        + apply usage_document_nonempty.
      - rewrite after_startup_help by tauto. simpl. split.
        + apply stdout_of_all, usage_document_stdout.
        + apply usage_document_nonempty.
      - by rewrite after_startup_version by tauto.
      - by rewrite after_startup_version by tauto. }
    destruct Hrest as [-> Hne]. done.
  - intros Hnone Hwsa.
    destruct (total_locale_failure cfg host argv env Hnone Hwsa)
      as [Hout Hnc].
    split; [done|]. by apply Hquiet.
Qed.

End Claims.

(** * Concrete runs *)

Ltac by_computation :=
  lazymatch goal with
  | |- ?P => apply (bool_decide_unpack P); vm_compute; exact I
  end.

(** C1, as stated, fails: --describe-config is among the arguments, but
    not the first, and the superuser meets check_root and is refused. *)
Lemma root_check_describe_config_later :
  "--describe-config" ∈ ["postgres"; "-D"; "/data"; "--describe-config"] ∧
  privilege_checked
    (trace_of (run Samples.posix Samples.root
                 ["postgres"; "-D"; "/data"; "--describe-config"]
                 Samples.env0)) ∧
  outcome_of (run Samples.posix Samples.root
                ["postgres"; "-D"; "/data"; "--describe-config"]
                Samples.env0) = Exit 1.
Proof.
  split; [by_computation|]. split; [by_computation|]. by vm_compute.
Qed.

Lemma mode_classification_witness :
  ["postgres"; "-D"; "/data"] !! 1%nat = Some "-D" ∧
  classify Samples.posix ["postgres"; "-D"; "/data"] = Supervisor.
Proof.
  split; [reflexivity|].
  destruct (mode_classification Samples.posix Samples.user
              ["postgres"; "-D"; "/data"]) as (_ & _ & _ & _ & H & _).
  apply (H "-D"); [reflexivity | | ].
  - unfold mode_tokens. intros Hin.
    apply (bool_decide_pack _) in Hin. vm_compute in Hin. exact Hin.
  - intros r E. compute in E. discriminate E.
Defined.



Lemma privilege_guard_witness :
  privilege_checked
    (trace_of (run Samples.posix Samples.setuid ["postgres"; "--boot"]
                 Samples.env0)) ∧
  outcome_of (run Samples.posix Samples.setuid ["postgres"; "--boot"]
                Samples.env0) = Exit 1 ∧
  drivers_called
    (trace_of (run Samples.posix Samples.setuid ["postgres"; "--boot"]
                 Samples.env0)) = [].
Proof.
  destruct (privilege_guard Samples.posix Samples.setuid
              ["postgres"; "--boot"] Samples.env0) as (Hchk & Hexit & _).
  assert (H : privilege_checked
                (trace_of (run Samples.posix Samples.setuid
                             ["postgres"; "--boot"] Samples.env0))).
  { apply Hchk; [by_computation | right; left; reflexivity]. }
  split; [exact H|]. apply Hexit; [exact H|].
  right. vm_compute. discriminate.
Defined.

Lemma locale_negotiation_witness :
  startup_completed
    (trace_of (run Samples.posix Samples.C_locale ["postgres"]
                 Samples.env0)) ∧
  is_Some (environ_of (run Samples.posix Samples.C_locale ["postgres"]
                         Samples.env0) !! "LC_COLLATE").
Proof.
  assert (H : startup_completed
                (trace_of (run Samples.posix Samples.C_locale ["postgres"]
                             Samples.env0)))
    by by_computation.
  split; [exact H|].
  destruct (locale_negotiation Samples.posix Samples.C_locale) as [_ Hset].
  apply (Hset ["postgres"] Samples.env0 H LC_COLLATE). by_computation.
Defined.

Lemma pinned_categories_witness :
  Samples.env0 !! "LC_ALL" = Some "de_DE.UTF-8" ∧
  startup_completed
    (trace_of (run Samples.posix Samples.user ["postgres"] Samples.env0)) ∧
  environ_of (run Samples.posix Samples.user ["postgres"] Samples.env0)
    !! "LC_ALL" = None.
Proof.
  split; [by vm_compute|].
  assert (H : startup_completed
                (trace_of (run Samples.posix Samples.user ["postgres"]
                             Samples.env0)))
    by by_computation.
  split; [exact H|].
  destruct (pinned_categories Samples.posix Samples.user ["postgres"]
              Samples.env0) as [_ Hunset].
  apply (Hunset H).
Defined.

(** C7, as stated, fails: a database name is given, and still the user
    name is handed to PostgresMain, whose database-name argument is NULL. *)
Lemma single_session_name_always :
  ["postgres"; "--single"; "mydb"] !! 2%nat = Some "mydb" ∧
  drivers_called
    (trace_of (run Samples.posix Samples.user
                 ["postgres"; "--single"; "mydb"] Samples.env0)) =
  [PostgresMain 3 ["postgres"; "--single"; "mydb"] None (Some "alice")].
Proof. split; [reflexivity|]. by vm_compute. Qed.

Lemma single_session_witness :
  drivers_called
    (trace_of (run Samples.posix Samples.user ["postgres"; "--single"]
                 Samples.env0)) =
    [PostgresMain 2 ["postgres"; "--single"] None (Some "alice")] ∧
  outcome_of (run Samples.posix Samples.user ["postgres"; "--single"]
                Samples.env0) =
    Running (PostgresMain 2 ["postgres"; "--single"] None (Some "alice")).
Proof.
  apply (single_session Samples.posix Samples.user ["postgres"; "--single"]
           Samples.env0 "alice").
  - reflexivity.
  - by_computation.
  - reflexivity.
  - reflexivity.
Defined.



Lemma dash_C_dispatch_witness :
  ¬ privilege_checked
      (trace_of (run Samples.posix Samples.root ["postgres"; "-C"; "port"]
                   Samples.env0)) ∧
  drivers_called
    (trace_of (run Samples.posix Samples.root ["postgres"; "-C"; "port"]
                 Samples.env0)) =
    [PostmasterMain 3 ["postgres"; "-C"; "port"]].
Proof.
  destruct (dash_C_dispatch Samples.posix Samples.root
              ["postgres"; "-C"; "port"] Samples.env0) as [HC _].
  destruct HC as (Hnc & Hd & _).
  - reflexivity.
  - simpl. lia.
  - by_computation.
  - split; [exact Hnc | exact Hd].
Defined.

Lemma locale_before_reports_witness :
  ∃ l, outcome_of (run Samples.win32 Samples.no_locale
                     ["postgres"; "--version"] Samples.env0) =
       ElogFatal init_locale_diagnostic [ArgStr l; ArgStr "LC_COLLATE"].
Proof.
  destruct (locale_before_reports Samples.win32 Samples.no_locale
              ["postgres"; "--version"] Samples.env0) as (_ & _ & Hfatal).
  - right; right; left. reflexivity.
  - destruct Hfatal as [Hout _]; [reflexivity | reflexivity | exact Hout].
Defined.

(** * Further properties *)

(** ** The locale set-up, variable by variable *)

Section LocaleTracking.

Context (cfg : BuildConfig) (host : Host).

Lemma requests_of_extend (env : gmap string string)
    (cs : list LocaleCategory) (evs evs' : list Event) (c : LocaleCategory) :
  requests_of cfg env cs evs →
  Forall (λ e, is_setlocale e = true) evs' →
  (∀ c' l res, EvSetlocale c' l res ∈ evs' →
               c' = c ∧ (l = requested_locale cfg env c ∨ l = "C")) →
  (∃ res, EvSetlocale c (requested_locale cfg env c) res ∈ evs') →
  requests_of cfg env (c :: cs) (evs ++ evs').
Proof.
  intros (Hall & Hreq & Hfirst) Hall' Hreq' (res & Hfirst').
  split; [by apply Forall_app|]. split.
  - intros c' l r [Hin|Hin]%elem_of_app.
    + destruct (Hreq _ _ _ Hin) as [Hc Hl]. split; [|done].
      apply elem_of_cons. by right.
    + destruct (Hreq' _ _ _ Hin) as [-> Hl]. split; [|done].
      apply elem_of_cons. by left.
  - intros c' [->|Hc]%elem_of_cons.
    + exists res. apply elem_of_app. by right.
    + destruct (Hfirst c' Hc) as (r & Hin). exists r.
      apply elem_of_app. by left.
Qed.

Lemma requests_of_same (env : gmap string string)
    (cs cs' : list LocaleCategory) (evs : list Event) :
  (∀ c, c ∈ cs ↔ c ∈ cs') →
  requests_of cfg env cs evs → requests_of cfg env cs' evs.
Proof.
  intros Hsame (Hall & Hreq & Hfirst). split; [done|]. split.
  - intros c l res Hin. destruct (Hreq _ _ _ Hin) as [Hc Hl].
    split; [by apply Hsame | done].
  - intros c Hc. apply Hfirst. by apply Hsame.
Qed.

(** One category: the name handed to init_locale is the category's own,
    and the locale is the category's first choice. *)
Lemma hoare_init_locale_inv (w0 : World) (cs : list LocaleCategory)
    (c : LocaleCategory) (l : string) :
  hoare (λ w, locale_inv cfg w0 cs w ∧
              l = requested_locale cfg (environ w0) c ∧
              (∀ c', c' ∈ c :: cs → c' ∈ categories cfg) ∧
              (S (length cs) ≤ length (categories cfg))%nat)
        (init_locale host (category_envvar c) c l)
        (λ _, locale_inv cfg w0 (c :: cs)) (locale_fatal cfg w0).
Proof.
  intros w ((Hframe & evs & Htr & Hreq & Hcalls & Hlo & Hhi) & -> & Hsub & Hlen).
  rewrite init_locale_run.
  set (l := requested_locale cfg (environ w0) c).
  assert (Hframe' : ∀ r k, (∀ c', c' ∈ c :: cs → k ≠ category_envvar c') →
            <[category_envvar c := r]> (environ w) !! k = environ w0 !! k).
  { intros r k Hk. rewrite lookup_insert_ne.
    - apply Hframe. intros c' Hc'. apply Hk, elem_of_cons. by right.
    - intros E. apply (Hk c); [apply elem_of_cons; by left | done]. }
  destruct (host_setlocale host (setlocale_calls w) (environ w) c l)
    as [r|].
  - split; [apply Hframe'|]. exists (evs ++ [EvSetlocale c l (Some r)]).
    simpl. rewrite Htr, Hcalls, length_app. simpl.
    split; [by rewrite <- app_assoc|]. split; [|repeat split; lia].
    apply requests_of_extend; [done | by repeat constructor | |].
    + intros c' l' res [= -> -> ->]%list_elem_of_singleton. auto.
    + exists (Some r). by apply list_elem_of_singleton.
  - destruct (host_setlocale host (S (setlocale_calls w)) (environ w) c "C")
      as [r|].
    + split; [apply Hframe'|].
      exists (evs ++ [EvSetlocale c l None; EvSetlocale c "C" (Some r)]).
      simpl. rewrite Htr, Hcalls, length_app. simpl.
      split; [by rewrite <- app_assoc|]. split; [|repeat split; lia].
      apply requests_of_extend; [done | by repeat constructor | |].
      * intros c' l' res. rewrite !elem_of_cons, elem_of_nil.
        intros [[= -> -> ->]|[[= -> -> ->]|[]]]; auto.
      * exists None. apply elem_of_cons. by left.
    + split.
      * intros k Hk. simpl. apply Hframe. intros c' Hc'.
        apply Hk, Hsub, elem_of_cons. by right.
      * exists c, evs. cbn [trace setlocale_calls environ].
        rewrite Htr, Hcalls.
        destruct Hreq as (Hall & Hreq & _).
        split; [apply Hsub, elem_of_cons; by left|].
        split; [done|]. split; [by rewrite <- app_assoc|].
        split; [lia|]. split; [lia|]. split; [done|].
        intros c' l' res Hin. destruct (Hreq _ _ _ Hin) as [Hc' Hl].
        split; [apply Hsub, elem_of_cons; by right | done].
Qed.

Lemma hoare_getenv_value (P : World → Prop) (name : string) X :
  hoare P (getenv name) (λ r w, P w ∧ r = environ w !! name) X.
Proof. by intros w HP. Qed.

Lemma hoare_locale_start (w0 : World) :
  hoare (λ w, w = w0) (extern "set_pglocale_pgservice")
        (λ _, locale_inv cfg w0 []) (locale_fatal cfg w0).
Proof.
  intros w Hw. subst w. simpl. split; [done|]. exists []. simpl.
  split; [done|]. split; [|repeat split; lia].
  split; [done|]. split.
  - by intros c l res ?%elem_of_nil.
  - by intros c ?%elem_of_nil.
Qed.

(** WIN32: the first choice is read from the environment, which still has
    the category's variable as the process was started with. *)
Lemma hoare_env_locale (w0 : World) (cs : list LocaleCategory)
    (c : LocaleCategory) (e : option string) :
  requested_locale cfg (environ w0) c =
    default "" (environ w0 !! category_envvar c) →
  (∀ c', c' ∈ cs → category_envvar c ≠ category_envvar c') →
  (∀ c', c' ∈ c :: cs → c' ∈ categories cfg) →
  (S (length cs) ≤ length (categories cfg))%nat →
  hoare (λ w, locale_inv cfg w0 cs w ∧ e = environ w !! category_envvar c)
        (match e with
         | Some l => init_locale host (category_envvar c) c l
         | None => init_locale host (category_envvar c) c ""
         end)
        (λ _, locale_inv cfg w0 (c :: cs)) (locale_fatal cfg w0).
Proof.
  intros Hreq Hfresh Hsub Hlen w [Hw ->].
  assert (Henv : environ w !! category_envvar c =
                 environ w0 !! category_envvar c)
    by (destruct Hw as [Hframe _]; by apply Hframe).
  destruct (environ w !! category_envvar c) as [l|] eqn:E;
    apply (hoare_init_locale_inv w0 cs c _ w);
    (split; [done|]); (split; [|done]); by rewrite Hreq, <- Henv.
Qed.

(** The categories, in the order [main] takes them. *)
Lemma categories_cases :
  (categories cfg =
     [LC_COLLATE; LC_CTYPE; LC_MESSAGES; LC_MONETARY; LC_NUMERIC; LC_TIME] ∧
   HAVE_LC_MESSAGES cfg = true) ∨
  (categories cfg = [LC_COLLATE; LC_CTYPE; LC_MONETARY; LC_NUMERIC; LC_TIME] ∧
   HAVE_LC_MESSAGES cfg = false).
Proof. unfold categories. destruct (HAVE_LC_MESSAGES cfg); auto. Qed.

Ltac in_categories H :=
  rewrite H; intros ?; rewrite !elem_of_cons, ?elem_of_nil; intuition auto 10.

Lemma hoare_init_locale_step (w0 : World) (cs : list LocaleCategory)
    (c : LocaleCategory) (l : string) :
  (∀ c', c' ∈ c :: cs → c' ∈ categories cfg) →
  (S (length cs) ≤ length (categories cfg))%nat →
  l = requested_locale cfg (environ w0) c →
  hoare (locale_inv cfg w0 cs)
        (init_locale host (category_envvar c) c l)
        (λ _, locale_inv cfg w0 (c :: cs)) (locale_fatal cfg w0).
Proof.
  intros Hsub Hlen Hl.
  eapply hoare_conseq; [apply (hoare_init_locale_inv w0 cs c l)| |done].
  intros w Hw. split; [done|]. split; [done|]. by split.
Qed.

Lemma hoare_collate_ctype_inv (w0 : World) :
  hoare (locale_inv cfg w0 [])
    (if WIN32 cfg then
       env_locale ← getenv "LC_COLLATE";
       match env_locale with
       | Some l => init_locale host "LC_COLLATE" LC_COLLATE l
       | None => init_locale host "LC_COLLATE" LC_COLLATE ""
       end;;
       env_locale ← getenv "LC_CTYPE";
       match env_locale with
       | Some l => init_locale host "LC_CTYPE" LC_CTYPE l
       | None => init_locale host "LC_CTYPE" LC_CTYPE ""
       end
     else
       init_locale host "LC_COLLATE" LC_COLLATE "";;
       init_locale host "LC_CTYPE" LC_CTYPE "")
    (λ _, locale_inv cfg w0 [LC_CTYPE; LC_COLLATE]) (locale_fatal cfg w0).
Proof.
  assert (Hlen : (2 ≤ length (categories cfg))%nat)
    by (destruct categories_cases as [[-> _]|[-> _]]; simpl; lia).
  assert (Hin : ∀ c', c' ∈ [LC_CTYPE; LC_COLLATE] → c' ∈ categories cfg).
  { destruct categories_cases as [[Hcat _]|[Hcat _]]; in_categories Hcat. }
  assert (Hin1 : ∀ c', c' ∈ [LC_COLLATE] → c' ∈ categories cfg).
  { intros c' Hc'. apply Hin. apply elem_of_cons. by right. }
  destruct (WIN32 cfg) eqn:Hwin.
  - eapply hoare_bind; [apply hoare_getenv_value|]. intros e1.
    eapply hoare_bind.
    + apply (hoare_env_locale w0 [] LC_COLLATE); [|by intros c' ?%elem_of_nil
        |done|simpl; lia].
      unfold requested_locale. by rewrite Hwin.
    + intros ?.
      eapply hoare_bind; [apply hoare_getenv_value|]. intros e2.
      apply (hoare_env_locale w0 [LC_COLLATE] LC_CTYPE); [| |done|simpl; lia].
      * unfold requested_locale. by rewrite Hwin.
      * by intros c' ->%list_elem_of_singleton.
  - eapply hoare_bind.
    + apply (hoare_init_locale_step w0 [] LC_COLLATE); [done|simpl; lia|].
      unfold requested_locale. by rewrite Hwin.
    + intros ?.
      apply (hoare_init_locale_step w0 [LC_COLLATE] LC_CTYPE);
        [done|simpl; lia|].
      unfold requested_locale. by rewrite Hwin.
Qed.

Lemma hoare_unset_LC_ALL_inv (w0 : World) (cs : list LocaleCategory) :
  (∀ c, c ∈ cs ↔ c ∈ categories cfg) →
  length cs = length (categories cfg) →
  hoare (locale_inv cfg w0 cs)
        (unsetenv "LC_ALL";; extern "check_strxfrm_bug")
        (λ _, locale_final cfg w0) (locale_fatal cfg w0).
Proof.
  intros Hsame Hlen w (Hframe & evs & Htr & Hreq & Hcalls & Hlo & Hhi).
  rewrite bind_run. unfold unsetenv at 1, extern, emit. cbv beta iota.
  unfold log. cbn [environ trace setlocale_calls]. split.
  - intros k Hk Hcs. cbn [environ].
    rewrite lookup_delete_ne by done. apply Hframe.
    intros c Hc. by apply Hcs, Hsame.
  - exists evs. cbn [trace setlocale_calls]. rewrite Htr, <- Hlen.
    split; [by rewrite <- !app_assoc|].
    split; [by eapply requests_of_same|]. done.
Qed.

Lemma hoare_main_locale_inv (argv : list string) (w0 : World) :
  hoare (λ w, w = w0) (main_locale cfg host argv)
        (λ _, locale_final cfg w0) (locale_fatal cfg w0).
Proof.
  unfold main_locale.
  eapply hoare_bind; [apply hoare_locale_start|]. intros ?.
  eapply hoare_bind; [apply hoare_collate_ctype_inv|]. intros ?.
  destruct categories_cases as [[Hcat Hmsg]|[Hcat Hmsg]]; rewrite Hmsg;
    cbn [when].
  - eapply hoare_bind;
      [apply (hoare_init_locale_step w0 _ LC_MESSAGES);
       [in_categories Hcat | rewrite Hcat; simpl; lia | done]|]. intros ?.
    eapply hoare_bind;
      [apply (hoare_init_locale_step w0 _ LC_MONETARY);
       [in_categories Hcat | rewrite Hcat; simpl; lia | done]|]. intros ?.
    eapply hoare_bind;
      [apply (hoare_init_locale_step w0 _ LC_NUMERIC);
       [in_categories Hcat | rewrite Hcat; simpl; lia | done]|]. intros ?.
    eapply hoare_bind;
      [apply (hoare_init_locale_step w0 _ LC_TIME);
       [in_categories Hcat | rewrite Hcat; simpl; lia | done]|]. intros ?.
    apply hoare_unset_LC_ALL_inv; [|by rewrite Hcat].
    intros c. rewrite Hcat, !elem_of_cons, ?elem_of_nil. intuition auto 10.
  - eapply hoare_bind; [apply hoare_ret|]. intros ?.
    eapply hoare_bind;
      [apply (hoare_init_locale_step w0 _ LC_MONETARY);
       [in_categories Hcat | rewrite Hcat; simpl; lia | done]|]. intros ?.
    eapply hoare_bind;
      [apply (hoare_init_locale_step w0 _ LC_NUMERIC);
       [in_categories Hcat | rewrite Hcat; simpl; lia | done]|]. intros ?.
    eapply hoare_bind;
      [apply (hoare_init_locale_step w0 _ LC_TIME);
       [in_categories Hcat | rewrite Hcat; simpl; lia | done]|]. intros ?.
    apply hoare_unset_LC_ALL_inv; [|by rewrite Hcat].
    intros c. rewrite Hcat, !elem_of_cons, ?elem_of_nil. intuition auto 10.
Qed.

End LocaleTracking.

(** ** The run, from the first statement on *)

Section RunShape.

Context (cfg : BuildConfig) (host : Host).

Lemma main_startup_shape (argv : list string) (w : World) :
  main_startup cfg host argv w =
  if winsock_failure cfg host
  then (Terminated (Exit 1),
        log (crashdump_events cfg ++
             [EvCall "setvbuf(stdout)"; EvCall "setvbuf(stderr)";
              EvStderr winsock_diagnostic
                [ArgStr (host_get_progname host (arg argv 0));
                 ArgInt (host_WSAStartup host)]]) w)
  else (Continue (host_get_progname host (arg argv 0)),
        log (platform_events cfg host ++
             [EvCall "SpinLockInit(&dummy_spinlock)";
              EvCall "save_ps_display_args"; EvCall "MemoryContextInit"]) w).
Proof.
  rewrite (Framed_run _ w (Framed_main_startup cfg host argv)).
  unfold main_startup, startup_hacks, winsock_failure, platform_events,
    crashdump_events.
  destruct (WIN32 cfg), (HAVE_MINIDUMP_TYPE cfg), (MSVC2013_AMD64 cfg),
    (host_IsWindows7SP1OrGreater host), (host_WSAStartup host =? 0);
    reflexivity.
Qed.

Lemma startup_events_eq (argv : list string) :
  startup_events cfg host argv =
  if winsock_failure cfg host
  then crashdump_events cfg ++
       [EvCall "setvbuf(stdout)"; EvCall "setvbuf(stderr)";
        EvStderr winsock_diagnostic
          [ArgStr (host_get_progname host (arg argv 0));
           ArgInt (host_WSAStartup host)]]
  else platform_events cfg host ++
       [EvCall "SpinLockInit(&dummy_spinlock)";
        EvCall "save_ps_display_args"; EvCall "MemoryContextInit"].
Proof.
  unfold startup_events. rewrite main_startup_shape.
  by destruct (winsock_failure cfg host).
Qed.

(** The three ways a run goes: the Winsock start-up fails; a category
    cannot be adopted; or the locale set-up comes through and the mode
    decides the rest. *)
Lemma run_shape (argv : list string) (env : gmap string string) :
  let w1 := log (startup_events cfg host argv) (start env) in
  (winsock_failure cfg host = true ∧ run cfg host argv env = (Exit 1, w1)) ∨
  (winsock_failure cfg host = false ∧
   ∃ o w2, locale_fatal cfg w1 o w2 ∧ run cfg host argv env = (o, w2)) ∨
  (winsock_failure cfg host = false ∧
   ∃ w2, locale_final cfg w1 w2 ∧
         run cfg host argv env =
         ((after_startup cfg host argv).1,
          log (after_startup cfg host argv).2 w2)).
Proof.
  cbv zeta. rewrite startup_events_eq.
  unfold run, main. rewrite bind_run, main_startup_shape.
  destruct (winsock_failure cfg host); [by left|]. right.
  rewrite bind_run.
  match goal with
  | |- context [main_locale cfg host argv ?w] =>
      pose proof (hoare_main_locale_inv cfg host argv w w eq_refl) as Hloc;
      destruct (main_locale cfg host argv w) as [[[]|o] w2]
  end.
  - right. split; [done|]. exists w2. split; [done|].
    rewrite main_rest_by_mode.
    rewrite (Framed_run _ w2 (Framed_mode_behaviour cfg host _ _ _)).
    unfold after_startup.
    by destruct (mode_behaviour cfg host _ _ _ (start ∅)) as [[[]|?] ?].
  - left. split; [done|]. by exists o, w2.
Qed.

Lemma check_root_run_diag (progname : string) (w : World) :
  check_root cfg host progname w =
  if privilege_violation cfg host
  then (Terminated (Exit 1),
        log [EvCheckRoot; check_root_diagnostic cfg host progname] w)
  else (Continue tt, log [EvCheckRoot] w).
Proof.
  unfold check_root, privilege_violation, check_root_diagnostic.
  destruct (WIN32 cfg), (host_pgwin32_is_admin host),
    (host_geteuid host =? 0), (host_getuid host =? host_geteuid host);
    unfold write_stderr, exit, terminate, emit, mbind, M_bind, mret, M_ret;
    simpl; rewrite ?log_log; reflexivity.
Qed.

Lemma after_startup_diag (argv : list string) :
  after_startup cfg host argv =
  match classify cfg argv with
  | ShowHelp =>
      (Exit 0, usage_document cfg host (host_get_progname host (arg argv 0)))
  | ShowVersion => (Exit 0, [EvStdout (PG_BACKEND_VERSIONSTR cfg) []])
  | mode =>
      if root_check_exempt argv then role_run cfg host mode argv
      else if privilege_violation cfg host
           then (Exit 1,
                 [EvCheckRoot;
                  check_root_diagnostic cfg host
                    (host_get_progname host (arg argv 0))])
           else ((role_run cfg host mode argv).1,
                 EvCheckRoot :: (role_run cfg host mode argv).2)
  end.
Proof.
  unfold after_startup, mode_behaviour, role_run.
  destruct (classify cfg argv) eqn:Hmode.
  1: by rewrite bind_run, help_run.
  1: reflexivity.
  all: rewrite bind_run; destruct (root_check_exempt argv);
    cbn [negb when];
    [ reflexivity | rewrite check_root_run_diag ];
    (destruct (privilege_violation cfg host); [reflexivity|]);
    cbv beta iota;
    rewrite (Framed_run _ (log _ _) (Framed_role_entry cfg host _ _ _));
    by destruct (role_entry cfg host _ _ _ (start ∅)) as [[[]|?] ?].
Qed.

End RunShape.

(** ** The forms a run can take *)

Section RunFacts.

Context (cfg : BuildConfig) (host : Host).

Lemma stderr_of_app (t1 t2 : list Event) :
  stderr_of (t1 ++ t2) = stderr_of t1 ++ stderr_of t2.
Proof. apply filter_app. Qed.

Lemma filter_none (f : Event → bool) (t : list Event) :
  Forall (λ e, f e = false) t → filter f t = [].
Proof.
  induction 1 as [|e t He _ IH]; [done|].
  rewrite filter_cons, IH. destruct (decide (f e)) as [Hd|]; [|done].
  rewrite He in Hd. done.
Qed.

Lemma filter_all (f : Event → bool) (t : list Event) :
  Forall (λ e, f e = true) t → filter f t = t.
Proof.
  induction 1 as [|e t He _ IH]; [done|].
  rewrite filter_cons, IH. destruct (decide (f e)) as [|Hd]; [done|].
  rewrite He in Hd. by destruct Hd.
Qed.

Lemma drivers_called_in (d : DriverCall) (t : list Event) :
  d ∈ drivers_called t ↔ EvDriver d ∈ t.
Proof.
  unfold drivers_called. rewrite list_elem_of_omap. split.
  - intros (e & Hin & He). destruct e; try done. by injection He as ->.
  - intros Hin. by exists (EvDriver d).
Qed.

Lemma platform_events_calls :
  Forall (λ e, is_call e = true) (platform_events cfg host).
Proof.
  unfold platform_events, crashdump_events.
  destruct (WIN32 cfg), (HAVE_MINIDUMP_TYPE cfg), (MSVC2013_AMD64 cfg),
    (host_IsWindows7SP1OrGreater host); simpl; by repeat constructor.
Qed.

Lemma crashdump_events_calls :
  Forall (λ e, is_call e = true) (crashdump_events cfg).
Proof.
  unfold crashdump_events.
  destruct (WIN32 cfg), (HAVE_MINIDUMP_TYPE cfg); simpl; by repeat constructor.
Qed.

(** The facts of a run, by the way it went. *)
Lemma run_facts (argv : list string) (env : gmap string string) :
  (winsock_failure cfg host = true ∧
   outcome_of (run cfg host argv env) = Exit 1 ∧
   trace_of (run cfg host argv env) = startup_events cfg host argv ∧
   environ_of (run cfg host argv env) = env ∧
   setlocale_calls (run cfg host argv env).2 = 0%nat) ∨
  (winsock_failure cfg host = false ∧
   ∃ c pre,
     c ∈ categories cfg ∧
     outcome_of (run cfg host argv env) =
       ElogFatal init_locale_diagnostic
         [ArgStr (requested_locale cfg env c); ArgStr (category_envvar c)] ∧
     trace_of (run cfg host argv env) =
       startup_events cfg host argv ++ EvCall "set_pglocale_pgservice" ::
       pre ++ [EvSetlocale c (requested_locale cfg env c) None;
               EvSetlocale c "C" None] ∧
     (∀ k, (∀ c, c ∈ categories cfg → k ≠ category_envvar c) →
           environ_of (run cfg host argv env) !! k = env !! k) ∧
     setlocale_calls (run cfg host argv env).2 = (length pre + 2)%nat ∧
     (length pre + 2 ≤ 2 * length (categories cfg))%nat ∧
     Forall (λ e, is_setlocale e = true) pre ∧
     (∀ c' l res, EvSetlocale c' l res ∈ pre →
                  c' ∈ categories cfg ∧
                  (l = requested_locale cfg env c' ∨ l = "C"))) ∨
  (winsock_failure cfg host = false ∧
   ∃ evs,
     outcome_of (run cfg host argv env) = (after_startup cfg host argv).1 ∧
     trace_of (run cfg host argv env) =
       startup_events cfg host argv ++ EvCall "set_pglocale_pgservice" ::
       evs ++ [EvUnsetenv "LC_ALL"; EvCall "check_strxfrm_bug"] ++
       (after_startup cfg host argv).2 ∧
     (∀ k, k ≠ "LC_ALL" →
           (∀ c, c ∈ categories cfg → k ≠ category_envvar c) →
           environ_of (run cfg host argv env) !! k = env !! k) ∧
     requests_of cfg env (categories cfg) evs ∧
     setlocale_calls (run cfg host argv env).2 = length evs ∧
     (length (categories cfg) ≤ length evs)%nat ∧
     (length evs ≤ 2 * length (categories cfg))%nat).
Proof.
  destruct (run_shape cfg host argv env)
    as [[Hw ->]|[(Hw & o & w2 & Hfatal & ->)|(Hw & w2 & Hfinal & ->)]].
  - left. by rewrite Hw.
  - right; left. split; [done|].
    destruct Hfatal
      as (Hframe & c & pre & Hc & -> & Htr & Hcalls & Hlen & Hall & Hreq).
    exists c, pre. unfold outcome_of, trace_of, environ_of.
    change (environ (log (startup_events cfg host argv) (start env)))
      with env in *.
    change (trace (log (startup_events cfg host argv) (start env)))
      with (startup_events cfg host argv) in *.
    change (setlocale_calls (log (startup_events cfg host argv) (start env)))
      with 0%nat in *.
    cbv [fst snd]. rewrite Htr, Hcalls. repeat (split; [done|]). done.
  - right; right. split; [done|].
    destruct Hfinal as (Hframe & evs & Htr & Hreq & Hcalls & Hlo & Hhi).
    exists evs. unfold outcome_of, trace_of, environ_of.
    change (environ (log (startup_events cfg host argv) (start env)))
      with env in *.
    change (trace (log (startup_events cfg host argv) (start env)))
      with (startup_events cfg host argv) in *.
    change (setlocale_calls (log (startup_events cfg host argv) (start env)))
      with 0%nat in *.
    cbv [fst snd]. rewrite trace_log, Htr. cbn [setlocale_calls log environ].
    rewrite Hcalls. split; [done|].
    split; [by rewrite <- !app_assoc, <- app_comm_cons, <- !app_assoc|].
    repeat (split; [done|]). done.
Qed.

End RunFacts.

(** ** The platform start-up *)

Section StartupProperties.

Context (cfg : BuildConfig) (host : Host).

Lemma winsock_failure_spec :
  winsock_failure cfg host = true ↔
  WIN32 cfg = true ∧ host_WSAStartup host ≠ 0.
Proof.
  unfold winsock_failure.
  rewrite andb_true_iff, negb_true_iff, Z.eqb_neq. done.
Qed.

(** X1. A failed Winsock start-up (WIN32 only) ends every run, whatever the
    arguments, with status 1 and one diagnostic that names the program and
    the error code: the environment is as it was, nothing is written on
    the standard output, no locale is asked for, and neither the spinlock
    nor the saved argument vector is set up. *)
Theorem winsock_failure_ends_run (argv : list string)
    (env : gmap string string) :
  WIN32 cfg = true → host_WSAStartup host ≠ 0 →
  outcome_of (run cfg host argv env) = Exit 1 ∧
  environ_of (run cfg host argv env) = env ∧
  stderr_of (trace_of (run cfg host argv env)) =
    [EvStderr winsock_diagnostic
       [ArgStr (host_get_progname host (arg argv 0));
        ArgInt (host_WSAStartup host)]] ∧
  stdout_of (trace_of (run cfg host argv env)) = [] ∧
  filter is_setlocale (trace_of (run cfg host argv env)) = [] ∧
  (EvCall "SpinLockInit(&dummy_spinlock)" ∉ trace_of (run cfg host argv env)) ∧
  (EvCall "save_ps_display_args" ∉ trace_of (run cfg host argv env)).
Proof.
  intros Hwin Hwsa.
  assert (Hfail : winsock_failure cfg host = true)
    by (by apply winsock_failure_spec).
  destruct (run_facts cfg host argv env)
    as [(_ & Hout & Htr & Henv & _)|[[Hw _]|[Hw _]]]; [|congruence..].
  rewrite Hout, Htr, Henv, startup_events_eq, Hfail.
  unfold crashdump_events. rewrite Hwin.
  split; [done|]. split; [done|].
  destruct (HAVE_MINIDUMP_TYPE cfg); simpl;
    (repeat split; [done..| |]);
    rewrite !elem_of_cons, elem_of_nil; intros H;
    repeat (destruct H as [H|H]; [discriminate H|]); done.
Qed.

(** X2. The FMA3 work-around (lines 287-301) is applied in exactly one
    situation: a WIN32 build by the 2013 compiler for x64, on a Windows
    older than 7 SP1, after a successful Winsock start-up. *)
Theorem fma3_workaround_iff (argv : list string) (env : gmap string string) :
  EvCall "_set_FMA3_enable(0)" ∈ trace_of (run cfg host argv env) ↔
  WIN32 cfg = true ∧ MSVC2013_AMD64 cfg = true ∧
  host_WSAStartup host = 0 ∧ host_IsWindows7SP1OrGreater host = false.
Proof.
  assert (Hlate : EvCall "_set_FMA3_enable(0)" ∉ (after_startup cfg host argv).2)
    by (eapply not_in_class; [apply after_startup_late | done]).
  assert (Hstart : EvCall "_set_FMA3_enable(0)" ∈ startup_events cfg host argv ↔
            winsock_failure cfg host = false ∧
            WIN32 cfg = true ∧ MSVC2013_AMD64 cfg = true ∧
            host_IsWindows7SP1OrGreater host = false).
  { rewrite startup_events_eq.
    unfold platform_events, crashdump_events, winsock_failure.
    destruct (WIN32 cfg), (HAVE_MINIDUMP_TYPE cfg), (MSVC2013_AMD64 cfg),
      (host_IsWindows7SP1OrGreater host), (host_WSAStartup host =? 0);
      simpl; rewrite ?elem_of_cons, ?elem_of_nil; intuition congruence. }
  assert (Hws : winsock_failure cfg host = false →
            (WIN32 cfg = true → host_WSAStartup host = 0)).
  { unfold winsock_failure. intros H Hwin. rewrite Hwin in H.
    simpl in H. apply negb_false_iff in H. by apply Z.eqb_eq. }
  assert (Hws' : WIN32 cfg = true → host_WSAStartup host = 0 →
            winsock_failure cfg host = false).
  { unfold winsock_failure. intros -> ->. done. }
  assert (Hsl : ∀ l, Forall (λ e, is_setlocale e = true) l →
            EvCall "_set_FMA3_enable(0)" ∉ l)
    by (intros l Hl; by eapply not_in_class).
  destruct (run_facts cfg host argv env)
    as [(Hw & _ & -> & _)
       |[(Hw & c & pre & _ & _ & -> & _ & _ & _ & Hall & _)
        |(Hw & evs & _ & -> & _ & (Hall & _) & _)]].
  - rewrite Hstart, Hw.
    apply winsock_failure_spec in Hw as [Hwin Hne]. intuition congruence.
  - rewrite elem_of_app, elem_of_cons, elem_of_app, !elem_of_cons,
      elem_of_nil, Hstart.
    specialize (Hsl _ Hall). intuition (try congruence); auto.
  - rewrite elem_of_app, elem_of_cons, !elem_of_app, !elem_of_cons,
      elem_of_nil, Hstart.
    specialize (Hsl _ Hall). intuition (try congruence); auto.
Qed.

(** X3. Unless the Winsock start-up fails, every run begins in the order of
    lines 88-122: after the platform's calls (none outside WIN32) the
    spinlock is initialised, the argument vector saved, the memory
    contexts set up, and set_pglocale_pgservice called; whatever the run
    does about locales, privileges and roles comes after. *)
Theorem startup_order (argv : list string) (env : gmap string string) :
  (WIN32 cfg = true → host_WSAStartup host = 0) →
  (∃ rest,
     trace_of (run cfg host argv env) =
       platform_events cfg host ++
       [EvCall "SpinLockInit(&dummy_spinlock)"; EvCall "save_ps_display_args";
        EvCall "MemoryContextInit"; EvCall "set_pglocale_pgservice"] ++ rest) ∧
  Forall (λ e, is_call e = true) (platform_events cfg host) ∧
  (WIN32 cfg = false → platform_events cfg host = []).
Proof.
  intros Hwsa.
  assert (Hw : winsock_failure cfg host = false).
  { destruct (winsock_failure cfg host) eqn:E; [|done].
    apply winsock_failure_spec in E as [Hwin Hne]. by apply Hwsa in Hwin. }
  split; [|split; [apply platform_events_calls|]].
  - destruct (run_facts cfg host argv env)
      as [(Hw' & _)
         |[(_ & c & pre & _ & _ & -> & _)|(_ & evs & _ & -> & _)]];
      [congruence|..]; rewrite startup_events_eq, Hw, <- app_assoc;
      simpl; eauto.
  - unfold platform_events, crashdump_events. by intros ->.
Qed.

End StartupProperties.

(** ** The usage document *)

(** X4. help writes its messages on the standard output and returns: it
    never ends the process, writes nothing on the standard error stream,
    and leaves the environment and the locale settings alone. There are 44
    messages in a build with USE_SSL and 43 in one without. *)
Theorem help_returns (cfg : BuildConfig) (host : Host) (progname : string)
    (w : World) :
  ∃ w', help cfg host progname w = (Continue tt, w') ∧
        environ w' = environ w ∧
        setlocale_calls w' = setlocale_calls w ∧
        trace w' = trace w ++ usage_document cfg host progname ∧
        Forall (λ e, is_stdout e = true) (usage_document cfg host progname) ∧
        length (usage_document cfg host progname) =
          if USE_SSL cfg then 44%nat else 43%nat.
Proof.
  exists (log (usage_document cfg host progname) w).
  split; [apply help_run|]. split; [done|]. split; [done|]. split; [done|].
  split; [apply usage_document_stdout|].
  unfold usage_document, help. by destruct (USE_SSL cfg).
Qed.

(** X5. The build enters the usage document through USE_SSL only, and
    USE_SSL decides about one message only: the line of the -l option,
    which comes after the first 13 messages. *)
Theorem help_ssl_line (host : Host) (progname : string) :
  ∃ pre post,
    length pre = 13%nat ∧
    ∀ cfg, usage_document cfg host progname =
           pre ++ (if USE_SSL cfg then [ssl_usage_line host] else []) ++ post.
Proof.
  exists (take 13 (usage_document Samples.posix host progname)),
         (drop 14 (usage_document Samples.posix host progname)).
  split; [reflexivity|].
  intros cfg. unfold usage_document, help. by destruct (USE_SSL cfg).
Qed.

(** X6. The program name enters the usage document as the argument of its
    first two messages and nowhere else: the other messages take no
    argument, and the formats are those of the message catalogue whatever
    the program is called. *)
Theorem help_progname (cfg : BuildConfig) (host : Host) :
  ∃ rest,
    Forall (λ e, ∃ fmt, e = EvStdout fmt []) rest ∧
    ∀ progname,
      usage_document cfg host progname =
      EvStdout (host_gettext host ("%s is the PostgreSQL server." +:+ LF +:+ LF))
               [ArgStr progname] ::
      EvStdout (host_gettext host
                  ("Usage:" +:+ LF +:+ "  %s [OPTION]..." +:+ LF +:+ LF))
               [ArgStr progname] ::
      rest.
Proof.
  exists (drop 2 (usage_document cfg host "")). split.
  - unfold usage_document, help.
    destruct (USE_SSL cfg); cbn; repeat constructor; eauto.
  - intros progname. unfold usage_document, help.
    by destruct (USE_SSL cfg).
Qed.

(** ** Diagnostics, privileges and roles *)

Section PrivilegeProperties.

Context (cfg : BuildConfig) (host : Host).

Lemma startup_events_class (argv : list string) :
  winsock_failure cfg host = false →
  Forall (λ e, is_call e = true) (startup_events cfg host argv) ∧
  (EvCall "check_strxfrm_bug" ∉ startup_events cfg host argv).
Proof.
  intros Hw. rewrite startup_events_eq, Hw.
  assert (Hc : Forall (λ e, is_call e = true)
                 (platform_events cfg host ++
                  [EvCall "SpinLockInit(&dummy_spinlock)";
                   EvCall "save_ps_display_args"; EvCall "MemoryContextInit"])).
  { apply Forall_app. split; [apply platform_events_calls|].
    by repeat constructor. }
  split; [done|].
  unfold platform_events, crashdump_events.
  destruct (WIN32 cfg), (HAVE_MINIDUMP_TYPE cfg), (MSVC2013_AMD64 cfg),
    (host_IsWindows7SP1OrGreater host); simpl;
    rewrite !elem_of_cons, elem_of_nil; intros H;
    repeat (destruct H as [H|H]; [discriminate H|]); done.
Qed.

Lemma stderr_of_calls (t : list Event) :
  Forall (λ e, is_call e = true) t → stderr_of t = [].
Proof.
  intros H. apply filter_none. eapply class_excl; [|exact H]. by intros [].
Qed.

Lemma stderr_of_setlocale (t : list Event) :
  Forall (λ e, is_setlocale e = true) t → stderr_of t = [].
Proof.
  intros H. apply filter_none. eapply class_excl; [|exact H]. by intros [].
Qed.

(** The standard error stream of a run that came through the locale
    set-up is that of the rest of [main]. *)
Lemma stderr_of_completed (argv : list string) (env : gmap string string) :
  startup_completed (trace_of (run cfg host argv env)) →
  stderr_of (trace_of (run cfg host argv env)) =
  stderr_of (after_startup cfg host argv).2.
Proof.
  unfold startup_completed.
  destruct (run_facts cfg host argv env)
    as [(Hw & _ & -> & _)
       |[(Hw & c & pre & _ & _ & -> & _ & _ & _ & Hall & _)
        |(Hw & evs & _ & -> & _ & (Hall & _) & _)]].
  - rewrite startup_events_eq, Hw. unfold crashdump_events.
    destruct (WIN32 cfg && HAVE_MINIDUMP_TYPE cfg); simpl;
      rewrite !elem_of_cons, elem_of_nil; intros H;
      repeat (destruct H as [H|H]; [discriminate H|]); done.
  - destruct (startup_events_class argv Hw) as [_ Hm].
    rewrite elem_of_app, elem_of_cons, elem_of_app, !elem_of_cons,
      elem_of_nil.
    intros [?|[?|[Hin|[?|[?|[]]]]]]; try done.
    exfalso. revert Hin. by eapply not_in_class.
  - intros _. destruct (startup_events_class argv Hw) as [Hc _].
    change (EvCall "set_pglocale_pgservice" ::
            evs ++ [EvUnsetenv "LC_ALL"; EvCall "check_strxfrm_bug"] ++
            (after_startup cfg host argv).2)
      with ([EvCall "set_pglocale_pgservice"] ++
            evs ++ [EvUnsetenv "LC_ALL"; EvCall "check_strxfrm_bug"] ++
            (after_startup cfg host argv).2).
    rewrite !stderr_of_app, (stderr_of_calls _ Hc),
      (stderr_of_setlocale _ Hall). done.
Qed.

(** The standard error stream of a run that did not. *)
Lemma stderr_of_early (argv : list string) (env : gmap string string) :
  ¬ startup_completed (trace_of (run cfg host argv env)) →
  stderr_of (trace_of (run cfg host argv env)) =
  if winsock_failure cfg host
  then [EvStderr winsock_diagnostic
          [ArgStr (host_get_progname host (arg argv 0));
           ArgInt (host_WSAStartup host)]]
  else [].
Proof.
  unfold startup_completed.
  destruct (run_facts cfg host argv env)
    as [(Hw & _ & -> & _)
       |[(Hw & c & pre & _ & _ & -> & _ & _ & _ & Hall & _)
        |(Hw & evs & _ & -> & _ & (Hall & _) & _)]]; rewrite Hw.
  - intros _. rewrite startup_events_eq, Hw. unfold crashdump_events.
    by destruct (WIN32 cfg && HAVE_MINIDUMP_TYPE cfg).
  - intros _. destruct (startup_events_class argv Hw) as [Hc _].
    change (EvCall "set_pglocale_pgservice" ::
            pre ++ [EvSetlocale c (requested_locale cfg env c) None;
                    EvSetlocale c "C" None])
      with ([EvCall "set_pglocale_pgservice"] ++
            pre ++ [EvSetlocale c (requested_locale cfg env c) None;
                    EvSetlocale c "C" None]).
    rewrite !stderr_of_app, (stderr_of_calls _ Hc),
      (stderr_of_setlocale _ Hall). done.
  - intros H. exfalso. apply H.
    rewrite elem_of_app, elem_of_cons, !elem_of_app, !elem_of_cons. auto 10.
Qed.

Lemma stderr_of_role (mode : ExecutionMode) (argv : list string) :
  stderr_of (role_run cfg host mode argv).2 = [].
Proof.
  apply filter_none. eapply class_excl; [|apply role_run_events].
  by intros [].
Qed.

(** What the rest of [main] writes on the standard error stream: the
    diagnostic of check_root when it refuses, and nothing else. *)
Lemma stderr_of_after_startup (argv : list string) :
  stderr_of (after_startup cfg host argv).2 =
  if bool_decide (EvCheckRoot ∈ (after_startup cfg host argv).2) &&
     privilege_violation cfg host
  then [check_root_diagnostic cfg host (host_get_progname host (arg argv 0))]
  else [].
Proof.
  pose proof (check_in_rest cfg host argv) as Hchk.
  rewrite after_startup_diag in *.
  pose proof (usage_document_stdout cfg host
                (host_get_progname host (arg argv 0))) as Husage.
  assert (Hdiag : ∀ p, is_stderr (check_root_diagnostic cfg host p) = true).
  { intros p. unfold check_root_diagnostic.
    by destruct (WIN32 cfg), (host_geteuid host =? 0). }
  destruct (classify cfg argv).
  1: { rewrite bool_decide_eq_false_2 by (rewrite Hchk; tauto). simpl.
       apply filter_none. eapply class_excl; [|exact Husage]. by intros []. }
  1: { rewrite bool_decide_eq_false_2 by (rewrite Hchk; tauto). done. }
  all: destruct (root_check_exempt argv);
    [ rewrite bool_decide_eq_false_2 by (rewrite Hchk; by intros (_ & _ & ?));
      apply stderr_of_role |];
    rewrite bool_decide_eq_true_2 by (by apply Hchk);
    destruct (privilege_violation cfg host); simpl;
    [ unfold stderr_of; rewrite !filter_cons; simpl;
      destruct (decide (is_stderr (check_root_diagnostic cfg host _)))
        as [|Hn]; [done | by rewrite Hdiag in Hn]
    | apply stderr_of_role ].
Qed.

Lemma filter_through (f g : Event → bool) (t : list Event) :
  (∀ e, f e = true → g e = true) → filter f (filter g t) = filter f t.
Proof.
  intros Hfg. induction t as [|e t IH]; [done|].
  rewrite (filter_cons g), (filter_cons f).
  destruct (decide (g e)) as [Hg|Hg].
  - rewrite (filter_cons f), IH. done.
  - rewrite IH. destruct (decide (f e)) as [Hf|Hf]; [|done].
    exfalso. apply Hg. apply Is_true_true. apply Hfg.
    by apply Is_true_true.
Qed.

Lemma check_root_diagnostic_refusal (progname : string) :
  is_refusal (check_root_diagnostic cfg host progname) = true.
Proof.
  unfold check_root_diagnostic.
  destruct (WIN32 cfg), (host_geteuid host =? 0); vm_compute; reflexivity.
Qed.

(** In a run, the messages on the standard error stream are diagnostics of
    this file. *)
Lemma own_diagnostics_run (argv : list string) (env : gmap string string) :
  filter is_own_diagnostic (trace_of (run cfg host argv env)) =
  stderr_of (trace_of (run cfg host argv env)).
Proof.
  rewrite <- (filter_through is_own_diagnostic is_stderr) by (by intros []).
  fold (stderr_of (trace_of (run cfg host argv env))).
  assert (Hone : ∀ e, is_own_diagnostic e = true →
            filter is_own_diagnostic [e] = [e])
    by (intros e He; apply filter_all; by repeat constructor).
  destruct (run_cases cfg host argv env) as [Hearly|Hdone].
  - destruct (early_failure_facts _ Hearly) as (Hnc & _).
    rewrite (stderr_of_early _ _ Hnc).
    destruct (winsock_failure cfg host); [|done].
    apply Hone. by vm_compute.
  - destruct (startup_done_facts _ _ _ _ Hdone) as (Hc & _).
    rewrite (stderr_of_completed _ _ Hc), stderr_of_after_startup.
    destruct (bool_decide _ && privilege_violation cfg host); [|done].
    apply Hone.
    pose proof (check_root_diagnostic_refusal
                  (host_get_progname host (arg argv 0))) as Href.
    destruct (check_root_diagnostic cfg host _); try done.
    simpl in *. rewrite Href. apply orb_true_r.
Qed.

(** X7. The diagnostic of a refusal: when control has entered check_root,
    the superuser is told that "root" execution is not permitted, also
    when the real user id differs as well; a user whose real and effective
    ids differ is told so, with the program name; an administrator on
    WIN32 gets the message about administrative permissions; and in each
    case this is the only thing written on the standard error stream. An
    acceptable identity gets none of the three messages. *)
Theorem refusal_diagnostic (argv : list string) (env : gmap string string) :
  privilege_checked (trace_of (run cfg host argv env)) →
  (WIN32 cfg = false → host_geteuid host = 0 →
   stderr_of (trace_of (run cfg host argv env)) =
     [EvStderr root_diagnostic []]) ∧
  (WIN32 cfg = false → host_geteuid host ≠ 0 →
   host_getuid host ≠ host_geteuid host →
   stderr_of (trace_of (run cfg host argv env)) =
     [EvStderr mismatch_diagnostic
        [ArgStr (host_get_progname host (arg argv 0))]]) ∧
  (WIN32 cfg = true → host_pgwin32_is_admin host = true →
   stderr_of (trace_of (run cfg host argv env)) =
     [EvStderr admin_diagnostic []]) ∧
  (privilege_violation cfg host = false →
   filter is_refusal (trace_of (run cfg host argv env)) = []).
Proof.
  intros Hchk.
  rewrite <- (filter_through is_refusal is_stderr
                (trace_of (run cfg host argv env))) by (by intros []).
  fold (stderr_of (trace_of (run cfg host argv env))).
  assert (Hdone := Hchk).
  apply privilege_checked_iff in Hdone as [Hc _].
  rewrite (stderr_of_completed _ _ Hc), stderr_of_after_startup.
  apply run_completed in Hc.
  destruct (startup_done_facts _ _ _ _ Hc) as (_ & Hp & _).
  rewrite bool_decide_eq_true_2 by (by apply Hp).
  unfold privilege_violation, check_root_diagnostic. cbn [andb].
  repeat split.
  - intros -> ->. done.
  - intros -> Hne Hdiff.
    apply Z.eqb_neq in Hne, Hdiff. by rewrite Hne, Hdiff.
  - intros -> ->. done.
  - by intros ->.
Qed.

(** X8. Of the diagnostics this file writes with write_stderr, that of
    startup_hacks and the three of check_root, a run writes one exactly
    when the Winsock start-up fails or check_root refuses; then it writes
    that one only, the process exits with status 1, and it has written
    nothing on the standard output and called no role driver. *)
Theorem stderr_discipline (argv : list string) (env : gmap string string) :
  (filter is_own_diagnostic (trace_of (run cfg host argv env)) ≠ [] ↔
   (WIN32 cfg = true ∧ host_WSAStartup host ≠ 0) ∨
   (privilege_checked (trace_of (run cfg host argv env)) ∧
    privilege_violation cfg host = true)) ∧
  (filter is_own_diagnostic (trace_of (run cfg host argv env)) ≠ [] →
   length (filter is_own_diagnostic (trace_of (run cfg host argv env))) =
     1%nat ∧
   outcome_of (run cfg host argv env) = Exit 1 ∧
   stdout_of (trace_of (run cfg host argv env)) = [] ∧
   drivers_called (trace_of (run cfg host argv env)) = []).
Proof.
  rewrite own_diagnostics_run.
  destruct (run_cases cfg host argv env) as [Hearly|Hdone].
  - destruct (early_failure_facts _ Hearly) as (Hnc & Hnp & Hd & Hs & _).
    rewrite (stderr_of_early _ _ Hnc), <- winsock_failure_spec.
    destruct (run_facts cfg host argv env)
      as [(Hw & Hout & _)|[(Hw & _)|(Hw & _)]]; rewrite Hw.
    + split; [split; [by left|done]|]. by intros _.
    + split; [|done]. split; [done|]. intros [?|[? _]]; done.
    + split; [|done]. split; [done|]. intros [?|[? _]]; done.
  - destruct (startup_done_facts _ _ _ _ Hdone) as (Hc & Hp & Hd & Hs & _).
    destruct (startup_done_outcome _ _ _ _ Hdone) as (Hout & _).
    rewrite (stderr_of_completed _ _ Hc), stderr_of_after_startup.
    assert (Hnw : ¬ (WIN32 cfg = true ∧ host_WSAStartup host ≠ 0)).
    { rewrite <- winsock_failure_spec.
      destruct (run_facts cfg host argv env)
        as [(Hw & _ & Htr & _)|[(Hw & _)|(Hw & _)]]; try congruence.
      exfalso. unfold startup_completed in Hc. rewrite Htr in Hc.
      revert Hc. rewrite startup_events_eq, Hw. unfold crashdump_events.
      destruct (WIN32 cfg && HAVE_MINIDUMP_TYPE cfg); simpl;
        rewrite !elem_of_cons, elem_of_nil; intros H;
        repeat (destruct H as [H|H]; [discriminate H|]); done. }
    destruct (bool_decide_reflect
                (EvCheckRoot ∈ (after_startup cfg host argv).2)) as [Hin|Hin];
      destruct (privilege_violation cfg host) eqn:Hviol; cbn [andb].
    + destruct (after_startup_refused cfg host argv Hin Hviol) as [Ho Hds].
      split; [split; [intros _; right; by rewrite Hp | done]|].
      intros _. rewrite Hout, Hd, Hs, Ho, Hds.
      repeat split; try done.
      destruct (after_startup_eq cfg host argv) as (msg & args & ->).
      apply check_in_rest in Hin as (Hh & Hv & ->). rewrite Hviol.
      by destruct (classify cfg argv).
    + split; [|done]. split; [done|]. intros [?|[_ ?]]; done.
    + split; [|done]. split; [done|].
      intros [?|[? _]]; [done|]. exfalso. by apply Hin, Hp.
    + split; [|done]. split; [done|]. intros [?|[_ ?]]; done.
Qed.

End PrivilegeProperties.

(** ** The locale requests of a run *)

Section LocaleProperties.

Context (cfg : BuildConfig) (host : Host).

Lemma setlocale_not_call (t : list Event) :
  Forall (λ e, is_call e = true) t → ∀ c l res, EvSetlocale c l res ∉ t.
Proof. intros H c l res. by eapply not_in_class. Qed.

Lemma filter_setlocale_calls (t : list Event) :
  Forall (λ e, is_call e = true) t → filter is_setlocale t = [].
Proof.
  intros H. apply filter_none. eapply class_excl; [|exact H]. by intros [].
Qed.

Lemma filter_setlocale_late (t : list Event) :
  Forall (λ e, is_late_event e = true) t → filter is_setlocale t = [].
Proof.
  intros H. apply filter_none. eapply class_excl; [|exact H]. by intros [].
Qed.

(** The setlocale requests of a run, set apart from the rest of its
    trace. *)
Lemma setlocale_requests (argv : list string) (env : gmap string string) :
  ∃ evs,
    filter is_setlocale (trace_of (run cfg host argv env)) = evs ∧
    setlocale_calls (run cfg host argv env).2 = length evs ∧
    (length evs ≤ 2 * length (categories cfg))%nat ∧
    (∀ c l res, EvSetlocale c l res ∈ trace_of (run cfg host argv env) ↔
                EvSetlocale c l res ∈ evs) ∧
    (∀ c l res, EvSetlocale c l res ∈ evs →
                c ∈ categories cfg ∧
                (l = requested_locale cfg env c ∨ l = "C")) ∧
    (startup_completed (trace_of (run cfg host argv env)) →
     (length (categories cfg) ≤ length evs)%nat ∧
     ∀ c, c ∈ categories cfg →
          ∃ res, EvSetlocale c (requested_locale cfg env c) res ∈ evs).
Proof.
  eexists. split; [reflexivity|].
  assert (Hin : ∀ c l res (t : list Event),
            EvSetlocale c l res ∈ t ↔
            EvSetlocale c l res ∈ filter is_setlocale t).
  { intros c l res t. rewrite list_elem_of_filter. simpl. tauto. }
  unfold startup_completed.
  destruct (run_facts cfg host argv env)
    as [(Hw & _ & Htr & _ & Hn)
       |[(Hw & c0 & pre & Hc0 & _ & Htr & _ & Hn & Hhi & Hall & Hreq)
        |(Hw & evs & _ & Htr & _ & (Hall & Hreq & Hevery) & Hn & Hlo & Hhi)]];
    rewrite Hn, Htr; clear Hn Htr.
  - assert (Hmark : EvCall "check_strxfrm_bug" ∉ startup_events cfg host argv).
    { rewrite startup_events_eq, Hw. unfold crashdump_events.
      destruct (WIN32 cfg && HAVE_MINIDUMP_TYPE cfg); simpl;
        rewrite !elem_of_cons, elem_of_nil; intros H;
        repeat (destruct H as [H|H]; [discriminate H|]); done. }
    assert (Hf : filter is_setlocale (startup_events cfg host argv) = []).
    { rewrite startup_events_eq, Hw. unfold crashdump_events.
      by destruct (WIN32 cfg && HAVE_MINIDUMP_TYPE cfg). }
    split; [by rewrite Hf|]. split; [rewrite Hf; simpl; lia|].
    split; [intros; apply Hin|]. rewrite Hf.
    split; [by intros ? ? ? ?%elem_of_nil | done].
  - destruct (startup_events_class cfg host argv Hw) as [Hcalls Hmark].
    assert (Hf : filter is_setlocale
                   (startup_events cfg host argv ++
                    EvCall "set_pglocale_pgservice" ::
                    pre ++ [EvSetlocale c0 (requested_locale cfg env c0) None;
                            EvSetlocale c0 "C" None]) =
                 pre ++ [EvSetlocale c0 (requested_locale cfg env c0) None;
                         EvSetlocale c0 "C" None]).
    { change (EvCall "set_pglocale_pgservice" ::
              pre ++ [EvSetlocale c0 (requested_locale cfg env c0) None;
                      EvSetlocale c0 "C" None])
        with ([EvCall "set_pglocale_pgservice"] ++
              pre ++ [EvSetlocale c0 (requested_locale cfg env c0) None;
                      EvSetlocale c0 "C" None]).
      rewrite !filter_app, (filter_setlocale_calls _ Hcalls),
        (filter_all _ _ Hall). done. }
    split; [rewrite Hf, length_app; cbn [length]; lia|].
    split; [rewrite Hf, length_app; cbn [length]; lia|].
    split; [intros; apply Hin|]. rewrite Hf. split.
    + intros c l res. rewrite elem_of_app, !elem_of_cons, elem_of_nil.
      intros [H|[[= -> -> ->]|[[= -> -> ->]|[]]]];
        [by apply (Hreq _ _ _ H) | split; [done | by left] | split; [done | by right]].
    + intros H. exfalso. revert H.
      rewrite elem_of_app, elem_of_cons, elem_of_app, !elem_of_cons,
        elem_of_nil.
      intros [?|[?|[Hp|[?|[?|[]]]]]]; try done.
      revert Hp. by eapply not_in_class.
  - destruct (startup_events_class cfg host argv Hw) as [Hcalls Hmark].
    assert (Hf : filter is_setlocale
                   (startup_events cfg host argv ++
                    EvCall "set_pglocale_pgservice" ::
                    evs ++ [EvUnsetenv "LC_ALL"; EvCall "check_strxfrm_bug"] ++
                    (after_startup cfg host argv).2) = evs).
    { change (EvCall "set_pglocale_pgservice" ::
              evs ++ [EvUnsetenv "LC_ALL"; EvCall "check_strxfrm_bug"] ++
              (after_startup cfg host argv).2)
        with ([EvCall "set_pglocale_pgservice"] ++
              evs ++ [EvUnsetenv "LC_ALL"; EvCall "check_strxfrm_bug"] ++
              (after_startup cfg host argv).2).
      rewrite !filter_app, (filter_setlocale_calls _ Hcalls),
        (filter_setlocale_late _ (after_startup_late cfg host argv)),
        (filter_all _ _ Hall).
      cbn. by rewrite app_nil_r. }
    split; [by rewrite Hf|]. split; [by rewrite Hf|].
    split; [intros; apply Hin|]. rewrite Hf.
    split; [done|]. intros _. split; [done|]. exact Hevery.
Qed.

(** X11. Every setlocale request of a run is for a category the build
    knows, and asks for the category's first choice or, as the fallback,
    for "C". The first choice of LC_COLLATE and LC_CTYPE is the empty
    string, which leaves the choice to the C library, except on WIN32,
    where it is the value the variable of that name had at entry, or the
    empty string if it had none; that of LC_MESSAGES is the empty string.
    When the locale set-up has come through, each category of the build
    has been asked for its first choice. *)
Theorem locales_requested (argv : list string) (env : gmap string string) :
  (∀ c l res, EvSetlocale c l res ∈ trace_of (run cfg host argv env) →
     c ∈ categories cfg ∧
     (l = "C" ∨
      l = match c with
          | LC_COLLATE | LC_CTYPE =>
              if WIN32 cfg then default "" (env !! category_envvar c) else ""
          | LC_MESSAGES => ""
          | LC_MONETARY | LC_NUMERIC | LC_TIME => "C"
          end)) ∧
  (startup_completed (trace_of (run cfg host argv env)) →
   ∀ c, c ∈ categories cfg →
        ∃ res, EvSetlocale c (requested_locale cfg env c) res
               ∈ trace_of (run cfg host argv env)).
Proof.
  destruct (setlocale_requests argv env)
    as (evs & _ & _ & _ & Hin & Hreq & Hdone).
  split.
  - intros c l res H%Hin. destruct (Hreq _ _ _ H) as [Hc [->| ->]]; auto.
  - intros Hc c Hcat. destruct (Hdone Hc) as [_ Hevery].
    destruct (Hevery c Hcat) as [res Hres]. exists res. by apply Hin.
Qed.

(** X12. The only fatal error of [main] is that of init_locale: when a
    run ends in one, its diagnostic is that of init_locale and names a
    category of the build by its variable, and the first choice of that
    category; the last two things the run did were the requests for that
    choice and for "C", both refused; and the locale set-up has not come
    through. *)
Theorem fatal_diagnostic (argv : list string) (env : gmap string string)
    (fmt : string) (args : list FmtArg) :
  outcome_of (run cfg host argv env) = ElogFatal fmt args →
  fmt = init_locale_diagnostic ∧
  ∃ c pre,
    c ∈ categories cfg ∧
    args = [ArgStr (requested_locale cfg env c); ArgStr (category_envvar c)] ∧
    trace_of (run cfg host argv env) =
      pre ++ [EvSetlocale c (requested_locale cfg env c) None;
              EvSetlocale c "C" None] ∧
    ¬ startup_completed (trace_of (run cfg host argv env)).
Proof.
  unfold startup_completed.
  destruct (run_facts cfg host argv env)
    as [(_ & -> & _)
       |[(Hw & c & pre & Hc & -> & -> & _ & _ & _ & Hall & _)
        |(_ & evs & -> & _)]].
  - done.
  - intros [= <- <-]. split; [done|].
    exists c, (startup_events cfg host argv ++
               EvCall "set_pglocale_pgservice" :: pre).
    split; [done|]. split; [done|]. split.
    + by rewrite <- app_assoc, <- app_comm_cons.
    + destruct (startup_events_class cfg host argv Hw) as [_ Hm].
      rewrite elem_of_app, elem_of_cons, elem_of_app, !elem_of_cons,
        elem_of_nil.
      intros [?|[?|[Hin|[?|[?|[]]]]]]; try done.
      revert Hin. by eapply not_in_class.
  - intros H. by apply after_startup_not_fatal in H.
Qed.

End LocaleProperties.

(** ** The block of the locale categories *)

Section CategoriesBlock.

Context (cfg : BuildConfig) (host : Host).

Lemma seq_assoc_run {A B C} (m : M A) (f : A → M B) (g : B → M C)
    (w : World) :
  ((m ≫= f) ≫= g) w =
  match m w with
  | (Continue a, w') => (f a ≫= g) w'
  | (Terminated o, w') => (Terminated o, w')
  end.
Proof. rewrite !bind_run. by destruct (m w) as [[a|o] w']. Qed.

(** [main_categories] is the middle of the locale set-up of [main]. *)
Lemma main_locale_blocks (argv : list string) (w : World) :
  main_locale cfg host argv w =
  (extern "set_pglocale_pgservice";;
   main_categories cfg host;;
   extern "check_strxfrm_bug") w.
Proof.
  unfold main_locale, main_categories.
  rewrite !(bind_run (extern "set_pglocale_pgservice")).
  destruct (extern "set_pglocale_pgservice" w) as [[[]|o] w1]; [|done].
  repeat (rewrite seq_assoc_run, bind_run;
          match goal with
          | |- match ?m ?w with _ => _ end = _ =>
              destruct (m w) as [[[]|?] ?]; [|done]
          end).
  reflexivity.
Qed.

Lemma request_segment_setlocale (c : LocaleCategory) (seg : list Event) :
  request_segment c seg → Forall (λ e, is_setlocale e = true) seg.
Proof. intros (l & [[r ->]|[res ->]]); by repeat constructor. Qed.

Lemma segments_setlocale (cs : list LocaleCategory)
    (segs : list (list Event)) :
  Forall2 request_segment cs segs →
  Forall (λ e, is_setlocale e = true) (concat segs).
Proof.
  induction 1 as [|c seg cs segs Hseg _ IH]; [done|].
  simpl. apply Forall_app. split; [|done].
  by eapply request_segment_setlocale.
Qed.

Lemma hoare_init_locale_segment (w0 : World) (cs : list LocaleCategory)
    (c : LocaleCategory) (l : string) :
  cs ++ [c] `prefix_of` categories cfg →
  hoare (categories_inv w0 cs)
        (init_locale host (category_envvar c) c l)
        (λ _, categories_inv w0 (cs ++ [c])) (categories_fatal cfg w0).
Proof.
  intros Hpre w (Hframe & segs & Htr & Hsegs). rewrite init_locale_run.
  assert (Hsub : ∀ c', c' ∈ cs ++ [c] → c' ∈ categories cfg).
  { destruct Hpre as [k ->]. intros c' Hc'. apply elem_of_app. by left. }
  assert (Hframe' : ∀ r k,
            (∀ c', c' ∈ cs ++ [c] → k ≠ category_envvar c') →
            <[category_envvar c := r]> (environ w) !! k = environ w0 !! k).
  { intros r k Hk. rewrite lookup_insert_ne.
    - apply Hframe. intros c' Hc'. apply Hk, elem_of_app. by left.
    - intros E. apply (Hk c); [|done].
      apply elem_of_app. right. by apply list_elem_of_singleton. }
  assert (Hext : ∀ seg, request_segment c seg →
            ∃ segs', trace w ++ seg = trace w0 ++ concat segs' ∧
                     Forall2 request_segment (cs ++ [c]) segs').
  { intros seg Hseg. exists (segs ++ [seg]).
    rewrite Htr, concat_app. simpl. rewrite app_nil_r, <- app_assoc.
    split; [done|]. apply Forall2_app; [done|]. by repeat constructor. }
  destruct (host_setlocale host (setlocale_calls w) (environ w) c l)
    as [r|].
  - split; [apply Hframe'|]. cbn [trace]. apply Hext.
    exists l. left. by exists r.
  - destruct (host_setlocale host (S (setlocale_calls w)) (environ w) c "C")
      as [r|].
    + split; [apply Hframe'|]. cbn [trace]. apply Hext.
      exists l. right. by exists (Some r).
    + split.
      * intros k Hk. cbn [environ]. apply Hframe. intros c' Hc'.
        apply Hk, Hsub, elem_of_app. by left.
      * exists cs, c, l, segs. cbn [trace]. rewrite Htr.
        split; [done|]. split; [done|]. split; [|done].
        by rewrite <- app_assoc.
Qed.

Lemma hoare_env_locale_segment (w0 : World) (cs : list LocaleCategory)
    (c : LocaleCategory) (e : option string) :
  cs ++ [c] `prefix_of` categories cfg →
  hoare (categories_inv w0 cs)
        (match e with
         | Some l => init_locale host (category_envvar c) c l
         | None => init_locale host (category_envvar c) c ""
         end)
        (λ _, categories_inv w0 (cs ++ [c])) (categories_fatal cfg w0).
Proof. intros Hpre. destruct e; by apply hoare_init_locale_segment. Qed.

Lemma hoare_getenv_any (P : World → Prop) (name : string) X :
  hoare P (getenv name) (λ _, P) X.
Proof. by intros w HP. Qed.

Lemma hoare_unset_LC_ALL_block (w0 : World) :
  hoare (categories_inv w0 (categories cfg)) (unsetenv "LC_ALL")
        (λ _, categories_final cfg w0) (categories_fatal cfg w0).
Proof.
  intros w (Hframe & segs & Htr & Hsegs). unfold unsetenv.
  split; [|split].
  - intros k Hk Hcs. cbn [environ]. rewrite lookup_delete_ne by done.
    by apply Hframe.
  - cbn [environ]. apply lookup_delete_eq.
  - exists segs. cbn [trace]. rewrite Htr, <- app_assoc. done.
Qed.

(** The block, from any state. *)
Lemma main_categories_spec (w0 : World) :
  hoare (λ w, w = w0) (main_categories cfg host)
        (λ _, categories_final cfg w0) (categories_fatal cfg w0).
Proof.
  apply (hoare_conseq _ (categories_inv w0 []) _ _
           (λ _, categories_final cfg w0)); [| |done].
  2: { intros w ->. split; [done|]. exists []. simpl.
       by rewrite app_nil_r. }
  unfold main_categories.
  assert (Hcat : categories cfg =
                 [LC_COLLATE; LC_CTYPE] ++
                 (if HAVE_LC_MESSAGES cfg then [LC_MESSAGES] else []) ++
                 [LC_MONETARY; LC_NUMERIC; LC_TIME]) by done.
  eapply hoare_bind.
  { destruct (WIN32 cfg).
    - eapply hoare_bind; [apply hoare_getenv_any|]. intros e1.
      eapply hoare_bind;
        [apply (hoare_env_locale_segment w0 [] LC_COLLATE);
         rewrite Hcat; by eexists|].
      intros ?. eapply hoare_bind; [apply hoare_getenv_any|]. intros e2.
      apply (hoare_env_locale_segment w0 [LC_COLLATE] LC_CTYPE).
      rewrite Hcat. by eexists.
    - eapply hoare_bind;
        [apply (hoare_init_locale_segment w0 [] LC_COLLATE);
         rewrite Hcat; by eexists|].
      intros ?.
      apply (hoare_init_locale_segment w0 [LC_COLLATE] LC_CTYPE).
      rewrite Hcat. by eexists. }
  intros ?. destruct (HAVE_LC_MESSAGES cfg); cbn [when app] in *.
  - eapply hoare_bind;
      [apply (hoare_init_locale_segment w0 [LC_COLLATE; LC_CTYPE]
                LC_MESSAGES); rewrite Hcat; by eexists|].
    intros ?. eapply hoare_bind;
      [apply (hoare_init_locale_segment w0
                [LC_COLLATE; LC_CTYPE; LC_MESSAGES] LC_MONETARY);
       rewrite Hcat; by eexists|].
    intros ?. eapply hoare_bind;
      [apply (hoare_init_locale_segment w0
                [LC_COLLATE; LC_CTYPE; LC_MESSAGES; LC_MONETARY] LC_NUMERIC);
       rewrite Hcat; by eexists|].
    intros ?. eapply hoare_bind;
      [apply (hoare_init_locale_segment w0
                [LC_COLLATE; LC_CTYPE; LC_MESSAGES; LC_MONETARY; LC_NUMERIC]
                LC_TIME); rewrite Hcat; by eexists|].
    intros ?. cbn [app]. rewrite <- Hcat. apply hoare_unset_LC_ALL_block.
  - eapply hoare_bind; [apply hoare_ret|].
    intros ?. eapply hoare_bind;
      [apply (hoare_init_locale_segment w0
                [LC_COLLATE; LC_CTYPE] LC_MONETARY);
       rewrite Hcat; by eexists|].
    intros ?. eapply hoare_bind;
      [apply (hoare_init_locale_segment w0
                [LC_COLLATE; LC_CTYPE; LC_MONETARY] LC_NUMERIC);
       rewrite Hcat; by eexists|].
    intros ?. eapply hoare_bind;
      [apply (hoare_init_locale_segment w0
                [LC_COLLATE; LC_CTYPE; LC_MONETARY; LC_NUMERIC]
                LC_TIME); rewrite Hcat; by eexists|].
    intros ?. cbn [app]. rewrite <- Hcat. apply hoare_unset_LC_ALL_block.
Qed.

(** X9. The block of lines 124-170, the init_locale calls and the
    unsetenv between the calls of set_pglocale_pgservice and
    check_strxfrm_bug, changes the environment only at LC_ALL and at the
    variables of the build's locale categories, from whatever state it
    starts; it leaves LC_ALL unset when it comes through, and as it was
    when it ends in the fatal error. *)
Theorem environment_frame (w0 : World) :
  (∀ argv w,
     main_locale cfg host argv w =
     (extern "set_pglocale_pgservice";;
      main_categories cfg host;;
      extern "check_strxfrm_bug") w) ∧
  match main_categories cfg host w0 with
  | (Continue _, w) =>
      (∀ k, k ≠ "LC_ALL" →
            (∀ c, c ∈ categories cfg → k ≠ category_envvar c) →
            environ w !! k = environ w0 !! k) ∧
      environ w !! "LC_ALL" = None
  | (Terminated _, w) =>
      (∀ k, (∀ c, c ∈ categories cfg → k ≠ category_envvar c) →
            environ w !! k = environ w0 !! k) ∧
      environ w !! "LC_ALL" = environ w0 !! "LC_ALL"
  end.
Proof.
  split; [apply main_locale_blocks|].
  pose proof (main_categories_spec w0 w0 eq_refl) as H.
  destruct (main_categories cfg host w0) as [[[]|o] w].
  - destruct H as (Hframe & Hall & _). by split.
  - destruct H as (Hframe & _). split; [done|].
    apply Hframe. intros c _. by destruct c.
Qed.

End CategoriesBlock.

(** ** The locale requests, category by category *)

Section RequestsByCategory.

Context (cfg : BuildConfig) (host : Host).

Lemma run_through_locale (argv : list string) (env : gmap string string) :
  winsock_failure cfg host = false →
  run cfg host argv env =
  match main_locale cfg host argv
          (log (startup_events cfg host argv) (start env)) with
  | (Continue _, w2) =>
      ((after_startup cfg host argv).1,
       log (after_startup cfg host argv).2 w2)
  | (Terminated o, w2) => (o, w2)
  end.
Proof.
  intros Hw. rewrite startup_events_eq.
  unfold run, main. rewrite bind_run, main_startup_shape, Hw.
  rewrite bind_run.
  match goal with
  | |- context [main_locale cfg host argv ?w] =>
      destruct (main_locale cfg host argv w) as [[[]|o] w2]
  end; [|done].
  rewrite main_rest_by_mode.
  rewrite (Framed_run _ w2 (Framed_mode_behaviour cfg host _ _ _)).
  unfold after_startup.
  by destruct (mode_behaviour cfg host _ _ _ (start ∅)) as [[[]|?] ?].
Qed.

Lemma filter_between (f : Event → bool) (t1 t2 t3 : list Event) :
  Forall (λ e, f e = false) t1 → Forall (λ e, f e = false) t3 →
  filter f (t1 ++ t2 ++ t3) = filter f t2.
Proof.
  intros H1 H3.
  by rewrite !filter_app, (filter_none _ _ H1), (filter_none _ _ H3),
    app_nil_r.
Qed.

Lemma categories_NoDup : NoDup (categories cfg).
Proof.
  unfold categories. destruct (HAVE_LC_MESSAGES cfg); simpl;
    repeat (apply NoDup_cons; split;
            [rewrite ?elem_of_cons, elem_of_nil; intros H;
             repeat (destruct H as [H|H]; [discriminate H|]); done|]);
    apply NoDup_nil_2.
Qed.

(** The requests of a sequence of init_locale calls, counted by
    category. *)
Lemma segments_by_category (cs : list LocaleCategory)
    (segs : list (list Event)) (c : LocaleCategory) :
  Forall2 request_segment cs segs → NoDup cs →
  (c ∉ cs → requests_for c (concat segs) = []) ∧
  (c ∈ cs → (1 ≤ length (requests_for c (concat segs)) ≤ 2)%nat).
Proof.
  unfold requests_for.
  induction 1 as [|c0 seg cs segs Hseg _ IH]; intros Hnd.
  - split; [done|]. by intros ?%elem_of_nil.
  - apply NoDup_cons in Hnd as [Hc0 Hnd]. destruct (IH Hnd) as [IHout IHin].
    cbn [concat]. rewrite filter_app.
    destruct (decide (c0 = c)) as [->|Hne].
    + assert (Hall : filter (is_request_for c) seg = seg).
      { apply filter_all. destruct Hseg as (l & [[r ->]|[res ->]]);
          repeat constructor; simpl; by rewrite bool_decide_eq_true_2. }
      rewrite Hall, (IHout Hc0), app_nil_r. split.
      * intros Hn. exfalso. apply Hn, elem_of_cons. by left.
      * intros _. destruct Hseg as (l & [[r ->]|[res ->]]); simpl; lia.
    + assert (Hnone : filter (is_request_for c) seg = []).
      { apply filter_none. destruct Hseg as (l & [[r ->]|[res ->]]);
          repeat constructor; simpl; by rewrite bool_decide_eq_false_2. }
      rewrite Hnone. cbn [app]. split.
      * intros Hn. apply IHout. intros Hin. apply Hn, elem_of_cons. by right.
      * intros [?|Hin]%elem_of_cons; [congruence | by apply IHin].
Qed.

(** The trace of a run around its locale requests. *)
Lemma run_requests (argv : list string) (env : gmap string string) :
  ∃ cs segs t1 t3,
    trace_of (run cfg host argv env) = t1 ++ concat segs ++ t3 ∧
    Forall (λ e, is_setlocale e = false) t1 ∧
    Forall (λ e, is_setlocale e = false) t3 ∧
    Forall2 request_segment cs segs ∧
    cs `prefix_of` categories cfg ∧
    (startup_completed (trace_of (run cfg host argv env)) →
     cs = categories cfg).
Proof.
  assert (Hcalls : ∀ t, Forall (λ e, is_call e = true) t →
            Forall (λ e, is_setlocale e = false) t)
    by (intros t; apply class_excl; by intros []).
  destruct (winsock_failure cfg host) eqn:Hw.
  - destruct (run_facts cfg host argv env)
      as [(_ & _ & Htr & _)|[(Hw' & _)|(Hw' & _)]]; [|congruence..].
    exists [], [], (startup_events cfg host argv), [].
    rewrite Htr. split; [by rewrite !app_nil_r|].
    assert (Hs : Forall (λ e, is_setlocale e = false)
                   (startup_events cfg host argv)).
    { rewrite startup_events_eq, Hw. unfold crashdump_events.
      destruct (WIN32 cfg && HAVE_MINIDUMP_TYPE cfg); by repeat constructor. }
    split; [done|]. split; [done|]. split; [done|].
    split; [by eexists|].
    unfold startup_completed. intros Hin. exfalso. revert Hin.
    rewrite startup_events_eq, Hw. unfold crashdump_events.
    destruct (WIN32 cfg && HAVE_MINIDUMP_TYPE cfg); simpl;
      rewrite !elem_of_cons, elem_of_nil; intros H;
      repeat (destruct H as [H|H]; [discriminate H|]); done.
  - destruct (startup_events_class cfg host argv Hw) as [Hstart Hmark].
    pose proof (run_through_locale argv env Hw) as Hrun.
    rewrite main_locale_blocks, bind_run in Hrun.
    unfold extern at 1, emit in Hrun. cbv beta iota in Hrun.
    rewrite bind_run in Hrun.
    set (w1 := log [EvCall "set_pglocale_pgservice"]
                 (log (startup_events cfg host argv) (start env))) in *.
    assert (Ht1 : trace w1 =
                  startup_events cfg host argv ++
                  [EvCall "set_pglocale_pgservice"]) by done.
    assert (Hc1 : Forall (λ e, is_call e = true) (trace w1)).
    { rewrite Ht1. apply Forall_app. split; [done | by repeat constructor]. }
    pose proof (main_categories_spec cfg host w1 w1 eq_refl) as Hblock.
    destruct (main_categories cfg host w1) as [[[]|o] w2].
    + destruct Hblock as (_ & _ & segs & Htr & Hsegs).
      unfold extern, emit in Hrun. cbv beta iota in Hrun. rewrite Hrun.
      exists (categories cfg), segs, (trace w1),
        ([EvUnsetenv "LC_ALL"; EvCall "check_strxfrm_bug"] ++
         (after_startup cfg host argv).2).
      unfold trace_of. cbn [snd trace log]. rewrite Htr.
      split; [by rewrite <- !app_assoc|].
      split; [by apply Hcalls|]. split.
      * apply Forall_app. split; [by repeat constructor|].
        eapply class_excl; [|apply after_startup_late]. by intros [].
      * split; [done|]. split; [by exists []; rewrite app_nil_r | done].
    + destruct Hblock as (_ & cs & c & l & segs & Hpre & -> & Htr & Hsegs).
      rewrite Hrun.
      exists (cs ++ [c]),
        (segs ++ [[EvSetlocale c l None; EvSetlocale c "C" None]]),
        (trace w1), [].
      unfold trace_of. cbn [snd]. rewrite Htr, concat_app.
      cbn [concat]. rewrite !app_nil_r.
      split; [done|]. split; [by apply Hcalls|]. split; [done|].
      split.
      { apply Forall2_app; [done|]. repeat constructor.
        exists l. right. by exists None. }
      split; [done|].
      unfold startup_completed. intros Hin. exfalso. revert Hin.
      rewrite !elem_of_app, !elem_of_cons, elem_of_nil.
      intros [Hin|[Hin|[?|[?|[]]]]]; try done.
      * revert Hin. rewrite Ht1, elem_of_app, list_elem_of_singleton.
        by intros [?|?].
      * revert Hin. eapply not_in_class; [by eapply segments_setlocale|done].
Qed.

(** X10. The setlocale requests of a run come category by category, in
    the order of the source: each category asked has one request, or two
    when the first was refused, the second being for "C"; the categories
    asked are the first ones of the build's list, and all of them once the
    locale set-up has come through. So a run holds at most two requests
    for any category, none for a category the build does not know, and at
    least one for each category of the build once the set-up is
    through. *)
Theorem setlocale_call_bounds (argv : list string)
    (env : gmap string string) :
  (∃ cs segs,
     filter is_setlocale (trace_of (run cfg host argv env)) = concat segs ∧
     Forall2 request_segment cs segs ∧
     cs `prefix_of` categories cfg ∧
     (startup_completed (trace_of (run cfg host argv env)) →
      cs = categories cfg)) ∧
  ∀ c,
    (length (requests_for c (trace_of (run cfg host argv env))) ≤ 2)%nat ∧
    (c ∉ categories cfg →
     requests_for c (trace_of (run cfg host argv env)) = []) ∧
    (startup_completed (trace_of (run cfg host argv env)) →
     c ∈ categories cfg →
     (1 ≤ length (requests_for c (trace_of (run cfg host argv env))))%nat).
Proof.
  destruct (run_requests argv env)
    as (cs & segs & t1 & t3 & Htr & H1 & H3 & Hsegs & Hpre & Hdone).
  assert (Hnd : NoDup cs).
  { destruct Hpre as [k Hk]. pose proof categories_NoDup as Hn.
    rewrite Hk in Hn. by apply NoDup_app in Hn as (? & _). }
  assert (Hsub : ∀ c, c ∈ cs → c ∈ categories cfg).
  { destruct Hpre as [k ->]. intros c Hc. apply elem_of_app. by left. }
  split.
  - exists cs, segs. rewrite Htr at 1.
    rewrite (filter_between _ _ _ _ H1 H3).
    split; [apply filter_all; by eapply segments_setlocale|]. done.
  - intros c.
    assert (Hf : ∀ t, Forall (λ e, is_setlocale e = false) t →
              Forall (λ e, is_request_for c e = false) t).
    { intros t Ht. eapply Forall_impl; [exact Ht|]. by intros []. }
    assert (Hreq : requests_for c (trace_of (run cfg host argv env)) =
                   requests_for c (concat segs)).
    { unfold requests_for. rewrite Htr.
      apply (filter_between _ _ _ _ (Hf _ H1) (Hf _ H3)). }
    rewrite Hreq.
    destruct (segments_by_category cs segs c Hsegs Hnd) as [Hout Hin].
    split; [|split].
    + destruct (decide (c ∈ cs)) as [Hc|Hc].
      * by apply Hin.
      * rewrite (Hout Hc). simpl. lia.
    + intros Hn. apply Hout. intros Hc. by apply Hn, Hsub.
    + intros Hc Hcat. apply Hin. by rewrite (Hdone Hc).
Qed.

End RequestsByCategory.

(** ** The dispatch *)

Section DispatchProperties.

Context (cfg : BuildConfig) (host : Host).

Lemma drivers_called_cons_check (t : list Event) :
  drivers_called (EvCheckRoot :: t) = drivers_called t.
Proof. reflexivity. Qed.

Lemma drivers_called_usage (progname : string) :
  drivers_called (usage_document cfg host progname) = [].
Proof.
  apply drivers_called_none.
  eapply class_excl; [|apply usage_document_stdout]. by intros [].
Qed.

(** A role ends in an exit only in the single-session mode, when the
    user-name lookup ends the process. *)
Lemma role_run_exit (mode : ExecutionMode) (argv : list string) (s : Z) :
  mode ≠ ShowHelp → mode ≠ ShowVersion →
  (role_run cfg host mode argv).1 = Exit s →
  mode = SingleSession ∧ host_user_name host = UserNameExit s ∧
  drivers_called (role_run cfg host mode argv).2 = [].
Proof.
  intros Hh Hv. rewrite role_run_eq. cbv zeta. unfold entered.
  destruct mode; try done;
    try destruct (host_user_name host) as [u|status];
    repeat match goal with
           | |- context [host_driver_returns host ?d] =>
               destruct (host_driver_returns host d)
           end;
    cbn [fst snd]; try done.
  intros [= ->]. by rewrite drivers_called_signals.
Qed.

(** With drivers that keep control, a role ends inside the driver it
    called, or in the exit of the user-name lookup. *)
Lemma role_run_keeps (mode : ExecutionMode) (argv : list string) :
  mode ≠ ShowHelp → mode ≠ ShowVersion →
  (∀ d, host_driver_returns host d = false) →
  (∃ d, (role_run cfg host mode argv).1 = Running d ∧
        drivers_called (role_run cfg host mode argv).2 = [d]) ∨
  (∃ s, (role_run cfg host mode argv).1 = Exit s ∧
        drivers_called (role_run cfg host mode argv).2 = []).
Proof.
  intros Hh Hv Hkeep.
  pose proof (role_run_drivers cfg host mode argv) as Hd.
  destruct (entry_point host mode argv) as [d|] eqn:Hentry.
  - left. exists d. rewrite (role_run_outcome _ _ _ _ d Hentry), Hd.
    unfold entered. rewrite !Hkeep. by destruct mode.
  - right. rewrite Hd. revert Hentry. unfold entry_point.
    rewrite role_run_eq. cbv zeta.
    destruct mode; try done.
    destruct (host_user_name host) as [u|status]; [done|].
    intros _. by exists status.
Qed.

(** The same for the rest of [main]. *)
Lemma after_startup_keeps (argv : list string) :
  (∀ d, host_driver_returns host d = false) →
  (∃ d, (after_startup cfg host argv).1 = Running d ∧
        drivers_called (after_startup cfg host argv).2 = [d]) ∨
  (∃ s, (after_startup cfg host argv).1 = Exit s ∧
        drivers_called (after_startup cfg host argv).2 = []).
Proof.
  intros Hkeep. rewrite after_startup_diag.
  assert (Hrole := λ m Hh Hv, role_run_keeps m argv Hh Hv Hkeep).
  assert (Hnone : drivers_called
                    [EvCheckRoot;
                     check_root_diagnostic cfg host
                       (host_get_progname host (arg argv 0))] = [])
    by (unfold check_root_diagnostic;
        by destruct (WIN32 cfg), (host_geteuid host =? 0)).
  destruct (classify cfg argv) eqn:Hm;
    [ right; exists 0; cbn [fst snd]; by rewrite drivers_called_usage
    | right; by exists 0
    | .. ];
    cbv zeta;
    (destruct (root_check_exempt argv); [by apply Hrole|]);
    (destruct (privilege_violation cfg host);
     [ right; exists 1; cbn [fst snd]; by rewrite Hnone
     | cbn [fst snd]; rewrite drivers_called_cons_check; by apply Hrole ]).
Qed.

Lemma startup_events_no_signal (argv : list string) :
  EvCall "pgwin32_signal_initialize" ∉ startup_events cfg host argv.
Proof.
  rewrite startup_events_eq. unfold platform_events, crashdump_events.
  destruct (winsock_failure cfg host), (WIN32 cfg), (HAVE_MINIDUMP_TYPE cfg),
    (MSVC2013_AMD64 cfg), (host_IsWindows7SP1OrGreater host); simpl;
    rewrite !elem_of_cons, elem_of_nil; intros H;
    repeat (destruct H as [H|H]; [discriminate H|]); done.
Qed.

(** A run that came through the locale set-up is the rest of [main] after
    a prefix that holds no start of the signal implementation. *)
Lemma run_late_split (argv : list string) (env : gmap string string) :
  startup_completed (trace_of (run cfg host argv env)) →
  outcome_of (run cfg host argv env) = (after_startup cfg host argv).1 ∧
  drivers_called (trace_of (run cfg host argv env)) =
    drivers_called (after_startup cfg host argv).2 ∧
  ∃ pre,
    trace_of (run cfg host argv env) =
      pre ++ (after_startup cfg host argv).2 ∧
    (EvCall "pgwin32_signal_initialize" ∉ pre).
Proof.
  intros Hc. assert (Hdone := run_completed _ _ _ _ Hc).
  destruct (startup_done_outcome _ _ _ _ Hdone) as (Hout & _).
  destruct (startup_done_facts _ _ _ _ Hdone) as (_ & _ & Hd & _).
  split; [done|]. split; [done|].
  revert Hc. unfold startup_completed.
  destruct (run_facts cfg host argv env)
    as [(Hw & _ & -> & _)
       |[(Hw & c & pre & _ & _ & -> & _ & _ & _ & Hall & _)
        |(Hw & evs & _ & -> & _ & (Hall & _) & _)]].
  - rewrite startup_events_eq, Hw. unfold crashdump_events.
    destruct (WIN32 cfg && HAVE_MINIDUMP_TYPE cfg); simpl;
      rewrite !elem_of_cons, elem_of_nil; intros H;
      repeat (destruct H as [H|H]; [discriminate H|]); done.
  - destruct (startup_events_class cfg host argv Hw) as [_ Hm].
    rewrite elem_of_app, elem_of_cons, elem_of_app, !elem_of_cons,
      elem_of_nil.
    intros [?|[?|[Hin|[?|[?|[]]]]]]; try done.
    exfalso. revert Hin. by eapply not_in_class.
  - intros _.
    exists (startup_events cfg host argv ++
            EvCall "set_pglocale_pgservice" ::
            evs ++ [EvUnsetenv "LC_ALL"; EvCall "check_strxfrm_bug"]).
    split; [rewrite <- app_assoc; cbn [app]; by rewrite <- app_assoc|].
    rewrite elem_of_app, elem_of_cons, elem_of_app, !elem_of_cons,
      elem_of_nil.
    intros [Hin|[?|[Hin|[?|[?|[]]]]]]; try done.
    + by apply startup_events_no_signal in Hin.
    + revert Hin. by eapply not_in_class.
Qed.

(** A run that did not: it has called no driver and has not started the
    signal implementation. *)
Lemma run_early_split (argv : list string) (env : gmap string string) :
  ¬ startup_completed (trace_of (run cfg host argv env)) →
  (outcome_of (run cfg host argv env) = Exit 1 ∨
   ∃ fmt args, outcome_of (run cfg host argv env) = ElogFatal fmt args) ∧
  drivers_called (trace_of (run cfg host argv env)) = [] ∧
  (EvCall "pgwin32_signal_initialize" ∉ trace_of (run cfg host argv env)).
Proof.
  intros Hnc.
  destruct (run_cases cfg host argv env) as [Hearly|Hdone];
    [|by apply startup_done_facts in Hdone as (Hc & _)].
  destruct (early_failure_facts _ Hearly) as (_ & _ & Hd & _).
  destruct Hearly as [Hout _].
  split; [done|]. split; [done|].
  revert Hnc. unfold startup_completed.
  destruct (run_facts cfg host argv env)
    as [(Hw & _ & -> & _)
       |[(Hw & c & pre & _ & _ & -> & _ & _ & _ & Hall & _)
        |(Hw & evs & _ & -> & _)]].
  - intros _. apply startup_events_no_signal.
  - intros _.
    rewrite elem_of_app, elem_of_cons, elem_of_app, !elem_of_cons,
      elem_of_nil.
    intros [Hin|[?|[Hin|[?|[?|[]]]]]]; try done.
    + by apply startup_events_no_signal in Hin.
    + revert Hin. by eapply not_in_class.
  - intros H. exfalso. apply H.
    rewrite elem_of_app, elem_of_cons, !elem_of_app, !elem_of_cons. auto 10.
Qed.

Lemma startup_completed_dec (argv : list string) (env : gmap string string) :
  startup_completed (trace_of (run cfg host argv env)) ∨
  ¬ startup_completed (trace_of (run cfg host argv env)).
Proof.
  destruct (run_cases cfg host argv env) as [Hearly|Hdone].
  - right. by apply early_failure_facts in Hearly as (? & _).
  - left. by apply startup_done_facts in Hdone as (? & _).
Qed.

(** The start of the signal implementation in the rest of [main]. *)
Lemma after_startup_signal (argv : list string) :
  (WIN32 cfg = false →
   EvCall "pgwin32_signal_initialize" ∉ (after_startup cfg host argv).2) ∧
  (WIN32 cfg = true →
   ∀ d, d ∈ drivers_called (after_startup cfg host argv).2 →
        (∀ n a, d ≠ SubPostmasterMain n a) →
        ∃ pre, (after_startup cfg host argv).2 =
                 pre ++ [EvCall "pgwin32_signal_initialize"; EvDriver d] ∧
               (EvCall "pgwin32_signal_initialize" ∉ pre)).
Proof.
  rewrite after_startup_diag.
  destruct (classify cfg argv) eqn:Hm.
  1: { cbn [fst snd]. rewrite drivers_called_usage. split.
       - intros _. eapply not_in_class; [apply usage_document_stdout|done].
       - by intros _ d ?%elem_of_nil. }
  1: { cbn [fst snd]. split.
       - intros _. rewrite list_elem_of_singleton. done.
       - by intros _ d ?%elem_of_nil. }
  all: cbv zeta; rewrite role_run_eq; cbv zeta;
    unfold signals_events, entered, check_root_diagnostic.
  all: split; intros ->.
  all: destruct (root_check_exempt argv), (privilege_violation cfg host),
         (host_geteuid host =? 0);
       try destruct (host_user_name host);
       repeat match goal with
              | |- context [host_driver_returns host ?d] =>
                  destruct (host_driver_returns host d)
              end;
       cbn [fst snd app drivers_called omap list_omap].
  all: try (rewrite ?elem_of_cons, elem_of_nil; intros H;
            repeat (destruct H as [H|H]; [discriminate H|]); done).
  all: intros d Hd Hns; rewrite ?elem_of_cons, elem_of_nil in Hd;
       repeat (destruct Hd as [->|Hd]; [|]); try done;
       try (exfalso; by eapply Hns).
  all: first
    [ exists []; split; [reflexivity|]
    | eexists [_]; split; [reflexivity|]
    | eexists [_; _]; split; [reflexivity|]
    | eexists [_; _; _]; split; [reflexivity|] ];
    rewrite ?elem_of_cons, elem_of_nil; intros H;
    repeat (destruct H as [H|H]; [discriminate H|]); done.
Qed.

(** X13. The signal implementation of WIN32 is started by [main] only
    for the drivers that need it: on other builds pgwin32_signal_initialize
    is never called; on WIN32 every driver [main] calls other than
    SubPostmasterMain, which does it for itself, is the last thing the run
    does and comes immediately after the one call of
    pgwin32_signal_initialize. *)
Theorem signal_initialization (argv : list string)
    (env : gmap string string) :
  (WIN32 cfg = false →
   EvCall "pgwin32_signal_initialize" ∉ trace_of (run cfg host argv env)) ∧
  (WIN32 cfg = true →
   ∀ d, d ∈ drivers_called (trace_of (run cfg host argv env)) →
        (∀ n a, d ≠ SubPostmasterMain n a) →
        ∃ pre, trace_of (run cfg host argv env) =
                 pre ++ [EvCall "pgwin32_signal_initialize"; EvDriver d] ∧
               (EvCall "pgwin32_signal_initialize" ∉ pre)).
Proof.
  destruct (after_startup_signal argv) as [Hoff Hon].
  destruct (startup_completed_dec argv env) as [Hc|Hnc].
  - destruct (run_late_split argv env Hc) as (_ & Hd & pre & Htr & Hpre).
    rewrite Htr, <- Htr, Hd, Htr. split.
    + intros HW. rewrite elem_of_app. intros [?|?]; [done|]. by apply Hoff.
    + intros HW d Hin Hns. destruct (Hon HW d Hin Hns) as (pre' & -> & Hpre').
      exists (pre ++ pre'). split; [by rewrite app_assoc|].
      rewrite elem_of_app. by intros [?|?].
  - destruct (run_early_split argv env Hnc) as (_ & Hd & Hsig).
    split; [done|]. rewrite Hd. by intros _ d ?%elem_of_nil.
Qed.

(** X14. With role drivers that keep control, as they do, [main] never
    reaches [abort]: a run ends inside the one driver it has called, or
    it has called none and ends in an exit or in the fatal error. *)
Theorem driver_outcomes (argv : list string) (env : gmap string string) :
  (∀ d, host_driver_returns host d = false) →
  outcome_of (run cfg host argv env) ≠ Abort ∧
  ((∃ d, outcome_of (run cfg host argv env) = Running d ∧
         drivers_called (trace_of (run cfg host argv env)) = [d]) ∨
   (drivers_called (trace_of (run cfg host argv env)) = [] ∧
    is_Some (exit_status (outcome_of (run cfg host argv env))))).
Proof.
  intros Hkeep.
  destruct (startup_completed_dec argv env) as [Hc|Hnc].
  - destruct (run_late_split argv env Hc) as (-> & -> & _).
    destruct (after_startup_keeps argv Hkeep)
      as [(d & -> & ->)|(s & -> & ->)].
    + split; [done|]. left. by exists d.
    + split; [done|]. by right.
  - destruct (run_early_split argv env Hnc) as (Hout & -> & _).
    destruct Hout as [->|(fmt & args & ->)]; (split; [done|]); by right.
Qed.

(** X15. Every driver [main] calls is handed the argument count and the
    argument vector of the process as [main] holds them, but GucInfoMain,
    which takes no argument; PostgresMain gets a NULL database name and
    the name get_user_name_or_exit found. *)
Theorem drivers_arguments (argv : list string) (env : gmap string string)
    (d : DriverCall) :
  d ∈ drivers_called (trace_of (run cfg host argv env)) →
  match d with
  | SubPostmasterMain n a | AuxiliaryProcessMain n a
  | PostmasterMain n a => n = length argv ∧ a = argv
  | GucInfoMain => True
  | PostgresMain n a dbname username =>
      n = length argv ∧ a = argv ∧ dbname = None ∧
      ∃ u, username = Some u ∧ host_user_name host = UserName u
  end.
Proof.
  revert d.
  destruct (startup_completed_dec argv env) as [Hc|Hnc].
  - destruct (run_late_split argv env Hc) as (_ & -> & _).
    rewrite after_startup_diag.
    destruct (classify cfg argv) eqn:Hm.
    1: { cbn [fst snd]. rewrite drivers_called_usage.
         by intros d ?%elem_of_nil. }
    1: { cbn [fst snd]. by intros d ?%elem_of_nil. }
    all: pose proof (role_run_drivers cfg host (classify cfg argv) argv)
           as Hdrv; rewrite Hm in Hdrv; unfold entry_point in Hdrv.
    all: assert (Hnone : drivers_called
                   [EvCheckRoot;
                    check_root_diagnostic cfg host
                      (host_get_progname host (arg argv 0))] = [])
           by (unfold check_root_diagnostic;
               by destruct (WIN32 cfg), (host_geteuid host =? 0)).
    all: cbv zeta;
         destruct (root_check_exempt argv), (privilege_violation cfg host);
         cbn [fst snd];
         rewrite ?Hnone, ?drivers_called_cons_check, ?Hdrv;
         try (by intros d ?%elem_of_nil).
    all: try destruct (host_user_name host) as [u|status] eqn:Hu;
         repeat match goal with
                | |- context [host_driver_returns host ?d] =>
                    destruct (host_driver_returns host d)
                end.
    all: intros d; rewrite ?elem_of_cons, elem_of_nil;
         intros H; repeat (destruct H as [->|H]; [|]); try done;
         eauto 10.
  - destruct (run_early_split argv env Hnc) as (_ & -> & _).
    by intros d ?%elem_of_nil.
Qed.

(** X16. The exits of [main]. A run that ends in an exit ends with
    status 1 after a message on the standard error stream (the Winsock
    failure or the refusal of check_root), or with status 0 after the
    usage document or the version string, asked for by the first
    argument, or, with --single as first argument, with the status
    get_user_name_or_exit chose, before any driver is called. *)
Theorem exit_outcomes (argv : list string) (env : gmap string string)
    (s : Z) :
  outcome_of (run cfg host argv env) = Exit s →
  (s = 1 ∧ stderr_of (trace_of (run cfg host argv env)) ≠ []) ∨
  (s = 0 ∧ stdout_of (trace_of (run cfg host argv env)) ≠ [] ∧
   ∃ tok, tok ∈ ["--help"; "-?"; "--version"; "-V"] ∧
          argv !! 1%nat = Some tok) ∨
  (argv !! 1%nat = Some "--single" ∧ host_user_name host = UserNameExit s ∧
   drivers_called (trace_of (run cfg host argv env)) = []).
Proof.
  destruct (startup_completed_dec argv env) as [Hc|Hnc].
  - destruct (run_late_split argv env Hc) as (-> & -> & _).
    assert (Hdone := run_completed _ _ _ _ Hc).
    destruct (startup_done_facts _ _ _ _ Hdone) as (_ & _ & _ & -> & _).
    rewrite (stderr_of_completed _ _ _ _ Hc), stderr_of_after_startup.
    pose proof (check_in_rest cfg host argv) as Hchk.
    pose proof (classify_iff cfg argv (classify cfg argv)) as Htok.
    assert (Hrole : (role_run cfg host (classify cfg argv) argv).1 = Exit s →
              classify cfg argv ≠ ShowHelp → classify cfg argv ≠ ShowVersion →
              argv !! 1%nat = Some "--single" ∧
              host_user_name host = UserNameExit s ∧
              drivers_called (role_run cfg host (classify cfg argv) argv).2
              = []).
    { intros Hs Hh Hv.
      destruct (role_run_exit (classify cfg argv) argv s Hh Hv Hs)
        as (Hm & Hu & Hd). split; [|done].
      rewrite Hm in Htok. by apply Htok. }
    rewrite after_startup_diag in *.
    destruct (classify cfg argv) eqn:Hm.
    1: { cbn [fst snd]. intros [= <-]. right; left. split; [done|]. split.
         - rewrite stdout_of_all by apply usage_document_stdout.
           apply usage_document_nonempty.
         - destruct (proj1 Htok eq_refl) as [H|H]; eexists; (split; [|exact H]);
             rewrite !elem_of_cons; auto. }
    1: { cbn [fst snd]. intros [= <-]. right; left. split; [done|].
         split; [done|].
         destruct (proj1 Htok eq_refl) as [H|H]; eexists; (split; [|exact H]);
           rewrite !elem_of_cons; auto. }
    all: cbv zeta in *.
    all: destruct (root_check_exempt argv);
      [ rewrite bool_decide_eq_false_2
          by (rewrite Hchk; by intros (_ & _ & ?));
        intros Hs; right; right; by apply Hrole |].
    all: rewrite bool_decide_eq_true_2 by (by apply Hchk).
    all: destruct (privilege_violation cfg host); cbn [fst snd andb];
      [ intros [= <-]; by left
      | intros Hs; right; right; rewrite drivers_called_cons_check;
        by apply Hrole ].
  - destruct (run_early_split argv env Hnc) as (Hout & Hd & _).
    rewrite (stderr_of_early _ _ _ _ Hnc).
    destruct (run_facts cfg host argv env)
      as [(Hw & -> & _)
         |[(Hw & c & pre & _ & -> & _)|(Hw & evs & _ & Htr & _)]].
    + intros [= <-]. left. by rewrite Hw.
    + done.
    + exfalso. apply Hnc. unfold startup_completed. rewrite Htr.
      rewrite elem_of_app, elem_of_cons, !elem_of_app, !elem_of_cons. auto 10.
Qed.

End DispatchProperties.

(** ** Concrete runs of the further properties *)

Lemma winsock_failure_ends_run_witness :
  outcome_of (run Samples.win32 no_winsock ["postgres"; "--help"]
                Samples.env0) = Exit 1 ∧
  stderr_of (trace_of (run Samples.win32 no_winsock ["postgres"; "--help"]
                         Samples.env0)) =
    [EvStderr winsock_diagnostic [ArgStr "postgres"; ArgInt 10091]].
Proof.
  destruct (winsock_failure_ends_run Samples.win32 no_winsock
              ["postgres"; "--help"] Samples.env0)
    as (Hout & _ & Herr & _); [reflexivity | by vm_compute |].
  split; [exact Hout | exact Herr].
Defined.

Lemma startup_order_witness :
  ∃ rest,
    trace_of (run Samples.posix Samples.user ["postgres"] Samples.env0) =
    [EvCall "SpinLockInit(&dummy_spinlock)"; EvCall "save_ps_display_args";
     EvCall "MemoryContextInit"; EvCall "set_pglocale_pgservice"] ++ rest.
Proof.
  destruct (startup_order Samples.posix Samples.user ["postgres"]
              Samples.env0) as ((rest & Htr) & _ & Hnone);
    [intros _; reflexivity|].
  exists rest. rewrite Htr, (Hnone eq_refl). reflexivity.
Defined.

Lemma refusal_diagnostic_witness :
  stderr_of (trace_of (run Samples.posix Samples.setuid ["postgres"]
                         Samples.env0)) =
    [EvStderr mismatch_diagnostic [ArgStr "postgres"]].
Proof.
  assert (H : privilege_checked
                (trace_of (run Samples.posix Samples.setuid ["postgres"]
                             Samples.env0))) by by_computation.
  destruct (refusal_diagnostic Samples.posix Samples.setuid ["postgres"]
              Samples.env0 H) as (_ & Hmis & _).
  apply Hmis; [reflexivity | by vm_compute | by vm_compute].
Defined.

Lemma fatal_diagnostic_witness :
  ¬ startup_completed
      (trace_of (run Samples.posix Samples.no_locale ["postgres"]
                   Samples.env0)).
Proof.
  destruct (fatal_diagnostic Samples.posix Samples.no_locale ["postgres"]
              Samples.env0 init_locale_diagnostic
              [ArgStr ""; ArgStr "LC_COLLATE"])
    as (_ & c & pre & _ & _ & _ & H); [by vm_compute | exact H].
Defined.

Lemma exit_outcomes_witness :
  (0 = 1 ∧
   stderr_of (trace_of (run Samples.posix Samples.user
                          ["postgres"; "--version"] Samples.env0)) ≠ []) ∨
  (0 = 0 ∧
   stdout_of (trace_of (run Samples.posix Samples.user
                          ["postgres"; "--version"] Samples.env0)) ≠ [] ∧
   ∃ tok, tok ∈ ["--help"; "-?"; "--version"; "-V"] ∧
          ["postgres"; "--version"] !! 1%nat = Some tok) ∨
  (["postgres"; "--version"] !! 1%nat = Some "--single" ∧
   host_user_name Samples.user = UserNameExit 0 ∧
   drivers_called (trace_of (run Samples.posix Samples.user
                               ["postgres"; "--version"] Samples.env0)) = []).
Proof.
  apply (exit_outcomes Samples.posix Samples.user ["postgres"; "--version"]
           Samples.env0 0).
  by vm_compute.
Defined.

Lemma driver_outcomes_witness :
  outcome_of (run Samples.posix Samples.user ["postgres"; "--single"; "db"]
                Samples.env0) ≠ Abort.
Proof.
  destruct (driver_outcomes Samples.posix Samples.user
              ["postgres"; "--single"; "db"] Samples.env0) as [H _];
    [intros d; reflexivity | exact H].
Defined.

Lemma drivers_arguments_witness :
  PostgresMain 3 ["postgres"; "--single"; "db"] None (Some "alice")
  ∈ drivers_called
      (trace_of (run Samples.posix Samples.user
                   ["postgres"; "--single"; "db"] Samples.env0)) ∧
  host_user_name Samples.user = UserName "alice".
Proof.
  assert (H : PostgresMain 3 ["postgres"; "--single"; "db"] None (Some "alice")
              ∈ drivers_called
                  (trace_of (run Samples.posix Samples.user
                               ["postgres"; "--single"; "db"] Samples.env0)))
    by by_computation.
  split; [exact H|].
  destruct (drivers_arguments Samples.posix Samples.user
              ["postgres"; "--single"; "db"] Samples.env0 _ H)
    as (_ & _ & _ & u & Hu & Hname).
  injection Hu as <-. exact Hname.
Defined.
